(** * HttpRequester: delivery with durable retry

    A shallow embedding of [src/HttpRequester.js] (class [HttpRequester]) and
    the properties of its failover dispatch, its retry ladder and its attempt
    ledger.

    Modelling conventions.
    - JavaScript numbers that the class handles (attempt numbers, delays,
      HTTP statuses, time-outs) are integers and are modelled by [Z].
    - The collaborators the class reaches through [axios], [mysql2],
      [Math.random], [JSON] and [os] are fields of an environment [Env]; the
      transport and the store answer per call, so they may behave differently
      at every call.
    - An [async] method is a function from the state of the world to a
      completion (normal return or thrown error) and a new world.  A ledger
      call that the source does not [await] is modelled as executed where it
      is issued: statements reach the store in the order the code issues them.
    - Console output, transport calls, timers and SQL statements are recorded
      in order in the [trace] of the world. *)

From Stdlib Require Import ZArith List String Ascii Bool Lia.
Import ListNotations.
Open Scope Z_scope.

(** ** JavaScript values *)

(** The response object of a completed HTTP exchange ([response.status]). *)
Record AxiosResponse := mkResponse { status : Z }.

(** A thrown error object: [error.message], [error.response], [error.code]. *)
Record JsError := mkError {
  err_name : string;
  err_message : string;
  err_response : option AxiosResponse;
  err_code : option string
}.

(** The value [statusCode] of [makeHttpRequest]: a number, a string or null. *)
Inductive StatusCode :=
| StatusNumber (n : Z)
| StatusString (s : string)
| StatusNull.

(** A value given for a numeric option of [requesterConfig]: a number or one
    of the falsy values.  (Truthy values that are not numbers are outside the
    documented type [{number}] of the options.) *)
Inductive JsOption :=
| JsUndefined
| JsNull
| JsFalse
| JsNaN
| JsEmptyString
| JsNumber (n : Z).

Definition truthy (v : JsOption) : bool :=
  match v with
  | JsNumber n => negb (n =? 0)
  | _ => false
  end.

(** [v || d] for a numeric default [d]. *)
Definition js_or (v : JsOption) (d : Z) : Z :=
  match v with
  | JsNumber n => if n =? 0 then d else n
  | _ => d
  end.

(** Truthiness of a string-or-null value such as [uniqueKey]. *)
Definition key_truthy (k : option string) : bool :=
  match k with
  | Some s => negb (String.eqb s "")
  | None => false
  end.

Definition ReferenceError (message : string) : JsError :=
  mkError "ReferenceError" message None None.

Definition TypeError (message : string) : JsError :=
  mkError "TypeError" message None None.

(** ** The table [http_attempts] *)

Record Row := mkRow {
  id : Z;
  request_id : string;
  attempt_number : Z;
  error : StatusCode;
  payload : string;
  abandoned : Z;
  hostname : string
}.

(** The four statements the class sends to [connection.execute], with their
    bound parameters. *)
Inductive Statement :=
| SelectAll
| InsertAttempt (request_id : string) (attempt : Z) (error : StatusCode)
                (payload : string) (abandoned : Z) (hostname : string)
| UpdateAbandoned (abandoned : Z) (attempt : Z) (error : StatusCode)
                  (request_id : string)
| DeleteAttempt (request_id : string).

Definition has_request_id (key : string) (r : Row) : bool :=
  String.eqb (request_id r) key.

(** The rows of the table after a statement; [next] is the AUTO_INCREMENT
    counter. *)
Definition apply_statement (stmt : Statement) (next : Z) (rows : list Row)
  : list Row :=
  match stmt with
  | SelectAll => rows
  | InsertAttempt rid attempt err pl ab host =>
      rows ++ [mkRow next rid attempt err pl ab host]
  | UpdateAbandoned ab attempt err rid =>
      map (fun r => if has_request_id rid r
                    then mkRow (id r) (request_id r) attempt err (payload r) ab
                               (hostname r)
                    else r) rows
  | DeleteAttempt rid => filter (fun r => negb (has_request_id rid r)) rows
  end.

Definition next_after (stmt : Statement) (next : Z) : Z :=
  match stmt with
  | InsertAttempt _ _ _ _ _ _ => next + 1
  | _ => next
  end.

Definition result_rows (stmt : Statement) (rows : list Row) : list Row :=
  match stmt with
  | SelectAll => rows
  | _ => []
  end.

(** ** Console messages and observable events *)

Inductive LogMsg :=
| SendingRequest (receiver : string)
| RequestToFailed (receiver : string)
| RequestSuccessful (status : Z)
| AttemptFailed (attempt : Z) (message : string) (statusCode : StatusCode)
| InsertingRecord
| RetryingAfter (delay : Z)
| MaximumAttemptsReached
| RetryAttemptFailed (attempt : Z) (message : string)
| NoPendingRequests
| ProcessingPending
| PendingError (message : string)
| InsertError (message : string)
| UpdateError (message : string)
| DeleteError (message : string)
| MainProcessError (message : string).

Section Runtime.

Variable Payload : Type.

Inductive Event :=
| ConsoleLog (m : LogMsg)
| ConsoleError (m : LogMsg)
| Post (url : string) (body : Payload) (timeout : Z)
| Sleep (ms : Z)
| Execute (stmt : Statement).

(** The collaborators.  [axios_post n] is the outcome of the [n]-th transport
    call, [db_fault n] the error (if any) of the [n]-th statement,
    [random16 n] the value of [(Math.random() * 16) | 0] at the [n]-th draw. *)
Record Env := mkEnv {
  axios_post : nat -> string -> Payload -> Z -> AxiosResponse + JsError;
  db_fault : nat -> option JsError;
  random16 : nat -> Z;
  JSON_stringify : Payload -> string;
  JSON_parse : string -> Payload + JsError;
  os_hostname : string
}.

Record World := mkWorld {
  ledger : list Row;
  next_id : Z;
  trace : list Event;
  posts : nat;
  execs : nat;
  draws : nat
}.

(** ** Asynchronous computations *)

Inductive Completion (A : Type) :=
| Normal (a : A)
| Throw (e : JsError)
| OutOfFuel.

Definition Async (A : Type) := World -> Completion A * World.

End Runtime.

Arguments ConsoleLog {Payload} m.
Arguments ConsoleError {Payload} m.
Arguments Post {Payload} url body timeout.
Arguments Sleep {Payload} ms.
Arguments Execute {Payload} stmt.
Arguments axios_post {Payload} e _ _ _ _.
Arguments db_fault {Payload} e _.
Arguments random16 {Payload} e _.
Arguments JSON_stringify {Payload} e _.
Arguments JSON_parse {Payload} e _.
Arguments os_hostname {Payload} e.
Arguments mkWorld {Payload} _ _ _ _ _ _.
Arguments ledger {Payload} w.
Arguments next_id {Payload} w.
Arguments trace {Payload} w.
Arguments posts {Payload} w.
Arguments execs {Payload} w.
Arguments draws {Payload} w.
Arguments Normal {A} a.
Arguments Throw {A} e.
Arguments OutOfFuel {A}.

Section Monad.

Context {Payload : Type}.

Definition ret {A} (a : A) : Async Payload A := fun w => (Normal a, w).

Definition bind {A B} (m : Async Payload A) (k : A -> Async Payload B)
  : Async Payload B :=
  fun w =>
    match m w with
    | (Normal a, w') => k a w'
    | (Throw e, w') => (Throw e, w')
    | (OutOfFuel, w') => (OutOfFuel, w')
    end.

Definition throw {A} (e : JsError) : Async Payload A := fun w => (Throw e, w).

Definition out_of_fuel {A} : Async Payload A := fun w => (OutOfFuel, w).

(** [try { body } catch (error) { handler }]. *)
Definition try_catch {A} (body : Async Payload A)
           (handler : JsError -> Async Payload A) : Async Payload A :=
  fun w =>
    match body w with
    | (Throw e, w') => handler e w'
    | r => r
    end.

Definition emit (e : Event Payload) : Async Payload unit :=
  fun w => (Normal tt,
            mkWorld (ledger w) (next_id w) (trace w ++ [e]) (posts w) (execs w)
                    (draws w)).

Definition console_log (m : LogMsg) : Async Payload unit := emit (ConsoleLog m).
Definition console_error (m : LogMsg) : Async Payload unit :=
  emit (ConsoleError m).

End Monad.

Declare Scope async_scope.
Delimit Scope async_scope with async.
Notation "x <- m ;; k" := (bind m (fun x => k))
  (at level 61, m at next level, right associativity) : async_scope.
Notation "m ;; k" := (bind m (fun _ => k))
  (at level 61, right associativity) : async_scope.

(** ** The constructor *)

Record Config := mkConfig {
  receiversUrl : list string;
  timeout : Z;
  maxAttempts : Z
}.

(** The first argument of the constructor. *)
Inductive DbArg :=
| DbPool            (* an instance of mysql.Pool *)
| DbConfigObject    (* a plain, non-null, non-array object *)
| DbInvalid.        (* anything else *)

(** An element of an array given as [receiversUrl]. *)
Inductive JsElem :=
| ElemString (s : string)
| ElemOther.

(** The value given as [requesterConfig.receiversUrl]. *)
Inductive ReceiversArg :=
| ReceiversFalsy                     (* undefined, null, 0, ... *)
| ReceiversString (s : string)
| ReceiversArray (l : list JsElem)
| ReceiversOther.                    (* a truthy non-string, non-array value *)

Record RequesterConfig := mkRequesterConfig {
  rc_receiversUrl : ReceiversArg;
  rc_timeout : JsOption;
  rc_maxAttempts : JsOption
}.

Definition startsWith (s prefix : string) : bool := String.prefix prefix s.

Definition is_url (s : string) : bool :=
  startsWith s "http://" || startsWith s "https://".

Definition elem_is_string (e : JsElem) : bool :=
  match e with ElemString _ => true | ElemOther => false end.

Definition elem_is_url (e : JsElem) : bool :=
  match e with ElemString s => is_url s | ElemOther => false end.

Fixpoint elem_strings (l : list JsElem) : list string :=
  match l with
  | [] => []
  | ElemString s :: l' => s :: elem_strings l'
  | ElemOther :: l' => elem_strings l'
  end.

(** [[...new Set(l)]]: the distinct elements in order of first occurrence. *)
Fixpoint set_spread (seen : list string) (l : list string) : list string :=
  match l with
  | [] => []
  | x :: l' =>
      if existsb (String.eqb x) seen then set_spread seen l'
      else x :: set_spread (x :: seen) l'
  end.

Definition errReceiversType : string :=
  "Invalid argument type for requesterConfig.receiversUrl. Expected a string or an array.".
Definition errReceiversEmpty : string :=
  "Invalid argument value for requesterConfig.receiversUrl. Expected a non-empty array.".
Definition errReceiversStrings : string :=
  "Invalid argument value for requesterConfig.receiversUrl. Expected an array of strings.".
Definition errReceiversUrls : string :=
  "Invalid argument value for requesterConfig.receiversUrl. Expected an array of URLs.".
Definition errDbArg : string :=
  "Invalid argument type for dbConfigOrPool. Expected an object or a mysql.Pool instance.".

(** The validation of [receiversUrl]: the list the configuration is built
    from, or the message of the error thrown. *)
Definition validate_receivers (r : ReceiversArg) : list string + string :=
  match r with
  | ReceiversFalsy => inr errReceiversType
  | ReceiversString s =>
      if String.eqb s "" then inr errReceiversType
      else if is_url s then inl [s]
      else inr errReceiversType
  | ReceiversOther => inr errReceiversType
  | ReceiversArray l =>
      if (List.length l =? 0)%nat then inr errReceiversEmpty
      else if existsb (fun e => negb (elem_is_string e)) l
           then inr errReceiversStrings
      else if existsb (fun e => negb (elem_is_url e)) l
           then inr errReceiversUrls
      else inl (elem_strings l)
  end.

Definition upper_char (c : ascii) : ascii :=
  let n := nat_of_ascii c in
  if ((97 <=? n) && (n <=? 122))%nat then ascii_of_nat (n - 32) else c.

Fixpoint toUpperCase (s : string) : string :=
  match s with
  | EmptyString => EmptyString
  | String c s' => String (upper_char c) (toUpperCase s')
  end.

(** An instance: [this.config] and [this.hostname]. *)
Record HttpRequester := mkRequester {
  config : Config;
  this_hostname : string
}.

Definition constructor {Payload} (env : Env Payload) (dbConfigOrPool : DbArg)
           (requesterConfig : RequesterConfig) : HttpRequester + JsError :=
  match dbConfigOrPool with
  | DbInvalid => inr (mkError "Error" errDbArg None None)
  | _ =>
      match validate_receivers (rc_receiversUrl requesterConfig) with
      | inr msg => inr (mkError "Error" msg None None)
      | inl urls =>
          inl (mkRequester
                 (mkConfig (set_spread [] urls)
                           (js_or (rc_timeout requesterConfig) 5000)
                           (js_or (rc_maxAttempts requesterConfig) 5))
                 (toUpperCase (os_hostname env)))
      end
  end.

(** ** The methods *)

Section Methods.

Context {Payload : Type}.
Variable env : Env Payload.
Variable this : HttpRequester.

Local Open Scope async_scope.

Definition set_draws (n : nat) (w : World Payload) : World Payload :=
  mkWorld (ledger w) (next_id w) (trace w) (posts w) (execs w) n.

(** [v.toString(16)] for [v] in 0..15. *)
Definition hex_digit (v : Z) : ascii :=
  nth (Z.to_nat v) (list_ascii_of_string "0123456789abcdef") "0"%char.

(** [template.replace(/[xy]/g, c => ...)]: the replaced text and the index of
    the next random draw. *)
Fixpoint replace_xy (template : string) (draw : nat) : string * nat :=
  match template with
  | EmptyString => (EmptyString, draw)
  | String c rest =>
      if (Ascii.eqb c "x" || Ascii.eqb c "y")%char then
        let r := random16 env draw in
        let v := if Ascii.eqb c "x"%char then r else Z.lor (Z.land r 3) 8 in
        let (rest', draw') := replace_xy rest (S draw) in
        (String (hex_digit v) rest', draw')
      else
        let (rest', draw') := replace_xy rest draw in
        (String c rest', draw')
  end.

Definition uuid_template : string := "xxxxxxxx-xxxx-4xxx-yxxx-xxxxxxxxxxxx".

Definition generateUUID : Async Payload string :=
  fun w =>
    let (uuid, draw') := replace_xy uuid_template (draws w) in
    (Normal uuid, set_draws draw' w).

Definition sleep (ms : Z) : Async Payload unit := emit (Sleep ms).

(** [axios.post(receiver, payload, { timeout })]. *)
Definition post (receiver : string) (body : Payload) (tmo : Z)
  : Async Payload AxiosResponse :=
  fun w =>
    let w' := mkWorld (ledger w) (next_id w)
                      (trace w ++ [Post receiver body tmo])
                      (S (posts w)) (execs w) (draws w) in
    match axios_post env (posts w) receiver body tmo with
    | inl response => (Normal response, w')
    | inr err => (Throw err, w')
    end.

(** [this.connection.execute(statement, parameters)]. *)
Definition execute (stmt : Statement) : Async Payload (list Row) :=
  fun w =>
    match db_fault env (execs w) with
    | Some err =>
        (Throw err,
         mkWorld (ledger w) (next_id w) (trace w ++ [Execute stmt]) (posts w)
                 (S (execs w)) (draws w))
    | None =>
        (Normal (result_rows stmt (ledger w)),
         mkWorld (apply_statement stmt (next_id w) (ledger w))
                 (next_after stmt (next_id w))
                 (trace w ++ [Execute stmt]) (posts w) (S (execs w)) (draws w))
    end.

(** The loop of [sendRequest]: [pending] holds the receivers from index [i]
    on.  When the loop ends without a return the method returns undefined. *)
Fixpoint sendRequest_loop (pending : list string) (i : Z) (body : Payload)
  : Async Payload (option AxiosResponse) :=
  match pending with
  | [] => ret None
  | receiver :: pending' =>
      console_log (SendingRequest receiver) ;;
      try_catch
        (response <- post receiver body (timeout (config this)) ;;
         ret (Some response))
        (fun err =>
           console_log (RequestToFailed receiver) ;;
           if i =? Z.of_nat (List.length (receiversUrl (config this))) - 1
           then throw err
           else sendRequest_loop pending' (i + 1) body)
  end.

Definition sendRequest (body : Payload)
  : Async Payload (option AxiosResponse) :=
  sendRequest_loop (receiversUrl (config this)) 0 body.

(** [response.status]; a TypeError when [response] is undefined. *)
Definition response_status (response : option AxiosResponse) : Async Payload Z :=
  match response with
  | Some r => ret (status r)
  | None =>
      throw (TypeError "Cannot read properties of undefined (reading 'status')")
  end.

Definition insertAttemptRecord (rid : string) (attempt : Z) (err : StatusCode)
           (body : Payload) (aband : Z) : Async Payload unit :=
  try_catch
    (_ <- execute (InsertAttempt rid attempt err (JSON_stringify env body)
                                 aband (this_hostname this)) ;;
     ret tt)
    (fun e => console_error (InsertError (err_message e))).

Definition abandonAttemptRecord (uniqueKey : string) (attempt : Z)
           (err : StatusCode) : Async Payload unit :=
  try_catch
    (_ <- execute (UpdateAbandoned 1 attempt err uniqueKey) ;; ret tt)
    (fun e => console_error (UpdateError (err_message e))).

Definition deleteAttemptRecord (uniqueKey : option string)
  : Async Payload unit :=
  match uniqueKey with
  | Some key =>
      if key_truthy uniqueKey then
        try_catch
          (_ <- execute (DeleteAttempt key) ;; ret tt)
          (fun e => console_error (DeleteError (err_message e)))
      else ret tt
  | None => ret tt
  end.

(** [error.response ? error.response.status : error.code || null]. *)
Definition statusCode_of (err : JsError) : StatusCode :=
  match err_response err with
  | Some response => StatusNumber (status response)
  | None =>
      match err_code err with
      | Some code => if String.eqb code "" then StatusNull else StatusString code
      | None => StatusNull
      end
  end.

(** [makeHttpRequest(payload, attempt = 1, uniqueKey = null)]; [fuel] bounds
    the depth of the recursion. *)
Fixpoint makeHttpRequest_fuel (fuel : nat) (body : Payload) (attempt : Z)
         (uniqueKey : option string) : Async Payload unit :=
  match fuel with
  | O => out_of_fuel
  | S fuel' =>
      try_catch
        (response <- sendRequest body ;;
         (if (attempt >? 1) && key_truthy uniqueKey
          then deleteAttemptRecord uniqueKey else ret tt) ;;
         st <- response_status response ;;
         console_log (RequestSuccessful st))
        (fun err =>
           let statusCode := statusCode_of err in
           console_error (AttemptFailed attempt (err_message err) statusCode) ;;
           key <- (match uniqueKey with
                   | Some k => if key_truthy uniqueKey then ret k
                               else generateUUID
                   | None => generateUUID
                   end) ;;
           if attempt <? maxAttempts (config this) then
             (if attempt =? 1
              then console_log InsertingRecord ;;
                   insertAttemptRecord key attempt statusCode body 0
              else ret tt) ;;
             let delay := 2 ^ attempt * 1000 in
             console_log (RetryingAfter delay) ;;
             sleep delay ;;
             makeHttpRequest_fuel fuel' body (attempt + 1) (Some key)
           else
             (if attempt =? 1
              then console_log InsertingRecord ;;
                   insertAttemptRecord key attempt statusCode body 1
              else abandonAttemptRecord key attempt statusCode) ;;
             console_error MaximumAttemptsReached)
  end.

(** The recursion goes from [attempt] up to [maxAttempts] at most. *)
Definition ladder_fuel (attempt : Z) : nat :=
  S (Z.to_nat (maxAttempts (config this) - attempt)).

Definition makeHttpRequest (body : Payload) (attempt : Z)
           (uniqueKey : option string) : Async Payload unit :=
  makeHttpRequest_fuel (ladder_fuel attempt) body attempt uniqueKey.

(** Evaluating the template literal of the last [console.error] of
    [retryHttpRequest] reads the undeclared identifier [recordId]. *)
Definition recordId_not_defined : JsError :=
  ReferenceError "recordId is not defined".

Fixpoint retryHttpRequest_fuel (fuel : nat) (requestId : string) (attempt : Z)
         (body : Payload) : Async Payload unit :=
  match fuel with
  | O => out_of_fuel
  | S fuel' =>
      try_catch
        (response <- sendRequest body ;;
         st <- response_status response ;;
         console_log (RequestSuccessful st) ;;
         deleteAttemptRecord (Some requestId))
        (fun err =>
           console_error (RetryAttemptFailed attempt (err_message err)) ;;
           if attempt <? maxAttempts (config this) then
             let delay := 2 ^ attempt * 1000 in
             console_log (RetryingAfter delay) ;;
             sleep delay ;;
             retryHttpRequest_fuel fuel' requestId (attempt + 1) body
           else
             throw recordId_not_defined)
  end.

Definition retryHttpRequest (requestId : string) (attempt : Z) (body : Payload)
  : Async Payload unit :=
  retryHttpRequest_fuel (ladder_fuel attempt) requestId attempt body.

(** [for (const row of rows) { ... await this.retryHttpRequest(...) }]. *)
Fixpoint for_each_row (rows : list Row) : Async Payload unit :=
  match rows with
  | [] => ret tt
  | row :: rows' =>
      body <- (match JSON_parse env (payload row) with
               | inl v => ret v
               | inr e => throw e
               end) ;;
      retryHttpRequest (request_id row) (attempt_number row) body ;;
      for_each_row rows'
  end.

Definition checkPendingRequests : Async Payload unit :=
  try_catch
    (rows <- execute SelectAll ;;
     if (List.length rows =? 0)%nat then console_log NoPendingRequests
     else console_log ProcessingPending ;; for_each_row rows)
    (fun e => console_error (PendingError (err_message e))).

Definition startRequest (body : Payload) : Async Payload unit :=
  try_catch
    (makeHttpRequest body 1 None)
    (fun e => console_error (MainProcessError (err_message e))).

End Methods.

(** ** Views of a trace *)

Section Views.

Context {Payload : Type}.

(** The statements sent to the store. *)
Definition statement_of (e : Event Payload) : list Statement :=
  match e with
  | Execute stmt => [stmt]
  | _ => []
  end.

Definition statements (evs : list (Event Payload)) : list Statement :=
  flat_map statement_of evs.

(** The transport calls, as (url, payload, timeout). *)
Definition post_of (e : Event Payload) : list (string * Payload * Z) :=
  match e with
  | Post url body tmo => [(url, body, tmo)]
  | _ => []
  end.

Definition transport_calls (evs : list (Event Payload))
  : list (string * Payload * Z) :=
  flat_map post_of evs.

(** The retry ladder: which attempts were reported failed, and which delays
    were slept, in order. *)
Inductive LadderEvent :=
| Failed (attempt : Z)
| Delay (ms : Z).

Definition ladder_of (e : Event Payload) : list LadderEvent :=
  match e with
  | ConsoleError (AttemptFailed n _ _) => [Failed n]
  | ConsoleError (RetryAttemptFailed n _) => [Failed n]
  | Sleep ms => [Delay ms]
  | _ => []
  end.

Definition ladder (evs : list (Event Payload)) : list LadderEvent :=
  flat_map ladder_of evs.

(** [schedule a k]: [k] failed attempts numbered from [a], each followed by
    its back-off delay of [2^n] seconds. *)
Fixpoint schedule (a : Z) (k : nat) : list LadderEvent :=
  match k with
  | O => []
  | S k' => Failed a :: Delay (2 ^ a * 1000) :: schedule (a + 1) k'
  end.

(** The events of one endpoint that fails, and of one that answers. *)
Definition failed_events (body : Payload) (tmo : Z) (receiver : string)
  : list (Event Payload) :=
  [ConsoleLog (SendingRequest receiver); Post receiver body tmo;
   ConsoleLog (RequestToFailed receiver)].

Definition answered_events (body : Payload) (tmo : Z) (receiver : string)
  : list (Event Payload) :=
  [ConsoleLog (SendingRequest receiver); Post receiver body tmo].

(** The world after a dispatch that issued [k] transport calls and the events
    [evs]: nothing else changes. *)
Definition dispatched (w : World Payload) (evs : list (Event Payload))
           (k : nat) : World Payload :=
  mkWorld (ledger w) (next_id w) (trace w ++ evs) (posts w + k) (execs w)
          (draws w).

End Views.

(** ** Vocabulary of the statements *)

Section Vocabulary.

Context {Payload : Type}.
Variable env : Env Payload.
Variable this : HttpRequester.

(** The world after console output or timers only. *)
Definition logged (w : World Payload) (evs : list (Event Payload))
  : World Payload :=
  mkWorld (ledger w) (next_id w) (trace w ++ evs) (posts w) (execs w)
          (draws w).

(** The world after a statement that the store executed. *)
Definition stored (w : World Payload) (stmt : Statement) : World Payload :=
  mkWorld (apply_statement stmt (next_id w) (ledger w))
          (next_after stmt (next_id w)) (trace w ++ [Execute stmt]) (posts w)
          (S (execs w)) (draws w).

Definition fails (r : AxiosResponse + JsError) : Prop :=
  exists err, r = inr err.

(** The outcome of the [j]-th transport call of a dispatch that starts in [w]
    and goes through the receivers [l]. *)
Definition outcome (l : list string) (body : Payload) (w : World Payload)
           (j : nat) : AxiosResponse + JsError :=
  axios_post env (posts w + j) (nth j l ""%string) body
             (timeout (config this)).

(** The outcome of the [j]-th transport call of a delivery that starts in
    [w]: every attempt goes through the receivers from the first one. *)
Definition call (body : Payload) (w : World Payload) (j : nat)
  : AxiosResponse + JsError :=
  let l := receiversUrl (config this) in
  axios_post env (posts w + j) (nth (j mod List.length l) l ""%string) body
             (timeout (config this)).

(** The store answers every statement. *)
Definition store_available : Prop := forall n, db_fault env n = None.

(** The request identifier that [generateUUID] returns in [w]. *)
Definition uuid_in (w : World Payload) : string :=
  fst (replace_xy env uuid_template (draws w)).

(** The blocks of [makeHttpRequest]: the body of [try], and the body of
    [catch] where [next] stands for the recursive call. *)
Definition make_try (body : Payload) (attempt : Z) (uniqueKey : option string)
  : Async Payload unit :=
  (response <- sendRequest env this body ;;
   (if (attempt >? 1) && key_truthy uniqueKey
    then deleteAttemptRecord env uniqueKey else ret tt) ;;
   st <- response_status response ;;
   console_log (RequestSuccessful st))%async.

Definition make_catch (next : Z -> option string -> Async Payload unit)
           (body : Payload) (attempt : Z) (uniqueKey : option string)
           (err : JsError) : Async Payload unit :=
  (let statusCode := statusCode_of err in
   console_error (AttemptFailed attempt (err_message err) statusCode) ;;
   key <- (match uniqueKey with
           | Some k => if key_truthy uniqueKey then ret k
                       else generateUUID env
           | None => generateUUID env
           end) ;;
   if attempt <? maxAttempts (config this) then
     (if attempt =? 1
      then console_log InsertingRecord ;;
           insertAttemptRecord env this key attempt statusCode body 0
      else ret tt) ;;
     let delay := 2 ^ attempt * 1000 in
     console_log (RetryingAfter delay) ;;
     sleep delay ;;
     next (attempt + 1) (Some key)
   else
     (if attempt =? 1
      then console_log InsertingRecord ;;
           insertAttemptRecord env this key attempt statusCode body 1
      else abandonAttemptRecord env key attempt statusCode) ;;
     console_error MaximumAttemptsReached)%async.

(** The blocks of [retryHttpRequest]. *)
Definition retry_try (requestId : string) (body : Payload)
  : Async Payload unit :=
  (response <- sendRequest env this body ;;
   st <- response_status response ;;
   console_log (RequestSuccessful st) ;;
   deleteAttemptRecord env (Some requestId))%async.

Definition retry_catch (next : Z -> Async Payload unit) (attempt : Z)
           (err : JsError) : Async Payload unit :=
  (console_error (RetryAttemptFailed attempt (err_message err)) ;;
   if attempt <? maxAttempts (config this) then
     let delay := 2 ^ attempt * 1000 in
     console_log (RetryingAfter delay) ;;
     sleep delay ;;
     next (attempt + 1)
   else
     throw recordId_not_defined)%async.


(** The ladders a run from attempt [a] may show, for a budget of [M]
    attempts: the run stops at a success, or reports attempt [a] failed and
    then either stops, when the budget is used up, or sleeps [2^a] seconds and
    goes on from attempt [a + 1]. *)
Inductive ladder_from (M : Z) : Z -> list LadderEvent -> Prop :=
| ladder_success a : ladder_from M a []
| ladder_exhausted a : M <= a -> ladder_from M a [Failed a]
| ladder_retry a l :
    a < M -> ladder_from M (a + 1) l ->
    ladder_from M a (Failed a :: Delay (2 ^ a * 1000) :: l).

End Vocabulary.

(** ** Scenarios

    Concrete collaborators and instances: the payload is a JSON text, two
    receivers are configured (the ones of the README), the store is
    available. *)

Definition error503 : JsError :=
  mkError "AxiosError" "Request failed with status code 503"
          (Some (mkResponse 503)) (Some "ERR_BAD_RESPONSE"%string).

(** An error object with neither [response] nor [code]. *)
Definition bare_error : JsError := mkError "Error" "socket hang up" None None.

(** Every transport call fails with [err]. *)
Definition receivers_failing (err : JsError) : Env string :=
  mkEnv string (fun _ _ _ _ => inr err) (fun _ => None)
        (fun k => Z.of_nat k mod 16) (fun body => body) (fun text => inl text)
        "host-a".

Definition receivers_down : Env string := receivers_failing error503.

(** The transport calls before the [k]-th fail, the others are answered. *)
Definition receivers_up_from (k : nat) : Env string :=
  mkEnv string
        (fun i _ _ _ => if (k <=? i)%nat then inl (mkResponse 200)
                        else inr error503)
        (fun _ => None) (fun k => Z.of_nat k mod 16) (fun body => body)
        (fun text => inl text) "host-a".

Definition requester (budget : Z) : HttpRequester :=
  mkRequester
    (mkConfig ["http://localhost:3450/message"%string;
               "http://localhost:3459/message"%string] 5000 budget)
    "HOST-A".

Definition world_with (rows : list Row) : World string :=
  mkWorld rows (1 + Z.of_nat (List.length rows)) [] 0 0 0.

Definition stored_row (i : Z) (rid : string) (attempt : Z) (body : string)
           (aband : Z) : Row :=
  mkRow i rid attempt (StatusNumber 503) body aband "HOST-A".

(** A configuration that sets both numeric options to zero. *)
Definition zero_options : RequesterConfig :=
  mkRequesterConfig (ReceiversString "http://localhost:3459/message")
                    (JsNumber 0) (JsNumber 0).

(** ** Vocabulary of the further properties *)

(** The number of characters of a template that [replace] rewrites. *)
Fixpoint count_xy (template : string) : nat :=
  match template with
  | EmptyString => O
  | String c rest =>
      if (Ascii.eqb c "x" || Ascii.eqb c "y")%char then S (count_xy rest)
      else count_xy rest
  end.

Definition is_hex_char (c : ascii) : bool :=
  existsb (Ascii.eqb c) (list_ascii_of_string "0123456789abcdef").

(** The request identifier a statement is about. *)
Definition statement_key (stmt : Statement) : option string :=
  match stmt with
  | SelectAll => None
  | InsertAttempt rid _ _ _ _ _ => Some rid
  | UpdateAbandoned _ _ _ rid => Some rid
  | DeleteAttempt rid => Some rid
  end.

(** The sum of the delays of a ladder, in milliseconds. *)
Fixpoint total_delay (l : list LadderEvent) : Z :=
  match l with
  | [] => 0
  | Delay ms :: l' => ms + total_delay l'
  | Failed _ :: l' => total_delay l'
  end.

(** The number of attempts a ladder reports as failed. *)
Fixpoint failed_attempts (l : list LadderEvent) : nat :=
  match l with
  | [] => O
  | Failed _ :: l' => S (failed_attempts l')
  | Delay _ :: l' => failed_attempts l'
  end.

(** The longest delay that [setTimeout] takes as it is given, 2^31 - 1 ms,
    and the ladders whose delays are all of that kind. *)
Definition timer_limit : Z := 2147483647.

Definition within_timer (ev : LadderEvent) : Prop :=
  match ev with
  | Delay ms => 1 <= ms <= timer_limit
  | Failed _ => True
  end.

Section Confinement.

Context {Payload : Type}.
Variable env : Env Payload.
Variable this : HttpRequester.

(** The request identifier under which [makeHttpRequest] works when it is
    called with [uniqueKey] in [w]: the given one when it is truthy, the one
    [generateUUID] returns otherwise. *)
Definition delivery_key (uniqueKey : option string) (w : World Payload)
  : string :=
  match uniqueKey with
  | Some k => if key_truthy uniqueKey then k else uuid_in env w
  | None => uuid_in env w
  end.

(** A transport call of a delivery of [body]: to a configured receiver, with
    [body] and the configured time-out. *)
Definition call_of (body : Payload) (c : string * Payload * Z) : Prop :=
  In (fst (fst c)) (receiversUrl (config this)) /\
  snd (fst c) = body /\
  snd c = timeout (config this).

(** The store fails on every statement from the [k]-th on. *)
Definition store_down_from (k : nat) : Prop :=
  forall i, (k <= i)%nat -> db_fault env i <> None.

(** What a run from [w] to [w'] with the events [evs], on behalf of the
    request [key] and the payload [body], may do: add its events to the trace;
    send the store only statements about [key]; leave the rows of the other
    requests as they are; call the transport at most [bound] times, each time
    as [call_of] says; and change no row at all while the store is down. *)
Definition confined (body : Payload) (key : string) (bound : nat)
           (w w' : World Payload) (evs : list (Event Payload)) : Prop :=
  trace w' = trace w ++ evs /\
  Forall (fun stmt => statement_key stmt = Some key) (statements evs) /\
  (forall other, other <> key ->
                 filter (has_request_id other) (ledger w')
                 = filter (has_request_id other) (ledger w)) /\
  Forall (call_of body) (transport_calls evs) /\
  (List.length (transport_calls evs) <= bound)%nat /\
  posts w' = (posts w + List.length (transport_calls evs))%nat /\
  (execs w <= execs w')%nat /\
  (store_down_from (execs w) ->
   ledger w' = ledger w /\ next_id w' = next_id w).

(** The ladder that the outcomes of the transport calls determine, for a
    run that starts at attempt [a] in [w]: when call [m] is the first to be
    answered and belongs to the [k]-th dispatch after the first, [k] attempts
    failed, each followed by its delay; when every call of the budget fails,
    all the attempts failed and no delay follows the last. *)
Definition ladder_of_outcomes (body : Payload) (a : Z) (w : World Payload)
           (l : list LadderEvent) : Prop :=
  let n := List.length (receiversUrl (config this)) in
  let r := Z.to_nat (maxAttempts (config this) - a) in
  (forall k m response,
      (k <= r)%nat -> (n * k <= m < n * S k)%nat ->
      (forall j, (j < m)%nat -> fails (call env this body w j)) ->
      call env this body w m = inl response ->
      l = schedule a k) /\
  ((forall j, (j < n * S r)%nat -> fails (call env this body w j)) ->
   l = schedule a r ++ [Failed (a + Z.of_nat r)]).

(** What a scan of the stored [rows] may send: to a receiver, the parsed
    payload of one of the rows; to the store, the deletion of one of them. *)
Definition resubmission_of (rows : list Row) (c : string * Payload * Z)
  : Prop :=
  exists row body,
    In row rows /\ JSON_parse env (payload row) = inl body /\ call_of body c.

Definition deletion_of (rows : list Row) (stmt : Statement) : Prop :=
  exists row, In row rows /\ stmt = DeleteAttempt (request_id row).

End Confinement.

(** ** Further scenarios *)

Definition store_error : JsError :=
  mkError "Error" "connect ECONNREFUSED" None (Some "ECONNREFUSED"%string).

(** The receivers fail and the store fails on the statements whose index
    [faulty] selects. *)
Definition receivers_down_store (faulty : nat -> bool) : Env string :=
  mkEnv string (fun _ _ _ _ => inr error503)
        (fun i => if faulty i then Some store_error else None)
        (fun k => Z.of_nat k mod 16) (fun body => body) (fun text => inl text)
        "host-a".

(** A configuration with the two receivers of the README and no option. *)
Definition two_receivers : RequesterConfig :=
  mkRequesterConfig
    (ReceiversArray [ElemString "http://localhost:3450/message";
                     ElemString "http://localhost:3459/message"])
    JsUndefined JsUndefined.

(** * Properties *)

(** ** The constructor and the failure classification *)

Lemma js_or_nonzero (v : JsOption) (d : Z) : d <> 0 -> js_or v d <> 0.
Proof.
  intros Hd. destruct v; simpl; try assumption.
  destruct (n =? 0) eqn:E; [assumption | now apply Z.eqb_neq].
Qed.

Lemma js_or_falsy (v : JsOption) (d : Z) : truthy v = false -> js_or v d = d.
Proof.
  destruct v; simpl; try reflexivity.
  destruct (n =? 0); [reflexivity | discriminate].
Qed.

Lemma constructor_config {Payload} (env : Env Payload) db rc this :
  constructor env db rc = inl this ->
  timeout (config this) = js_or (rc_timeout rc) 5000 /\
  maxAttempts (config this) = js_or (rc_maxAttempts rc) 5.
Proof.
  unfold constructor. intros H.
  destruct db; try discriminate;
    destruct (validate_receivers (rc_receiversUrl rc)); try discriminate;
    injection H as <-; simpl; split; reflexivity.
Qed.

(** ** Dispatch over the receivers *)

Section Dispatch.

Context {Payload : Type}.
Variable env : Env Payload.
Variable this : HttpRequester.

Abbreviation urls := (receiversUrl (config this)).
Abbreviation tmo := (timeout (config this)).

Lemma world_eta (w : World Payload) :
  mkWorld (ledger w) (next_id w) (trace w) (posts w) (execs w) (draws w) = w.
Proof. destruct w; reflexivity. Qed.

Lemma dispatched_dispatched (w : World Payload) evs1 k1 evs2 k2 :
  dispatched (dispatched w evs1 k1) evs2 k2
  = dispatched w (evs1 ++ evs2) (k1 + k2).
Proof.
  unfold dispatched; simpl. rewrite <- app_assoc. f_equal. lia.
Qed.

(** One turn of the loop of [sendRequest] on a receiver that fails. *)
Lemma sendRequest_loop_failed receiver pending i body w err :
  axios_post env (posts w) receiver body tmo = inr err ->
  sendRequest_loop env this (receiver :: pending) i body w
  = if i =? Z.of_nat (List.length urls) - 1
    then (Throw err, dispatched w (failed_events body tmo receiver) 1)
    else sendRequest_loop env this pending (i + 1) body
           (dispatched w (failed_events body tmo receiver) 1).
Proof.
  intros H. simpl.
  unfold bind, try_catch, console_log, emit, post, throw, ret; simpl.
  rewrite H; simpl.
  assert (E : forall ev3 : list (Event Payload),
             mkWorld (ledger w) (next_id w)
               (((trace w ++ [ConsoleLog (SendingRequest receiver)]) ++
                 [Post receiver body tmo]) ++ ev3)
               (S (posts w)) (execs w) (draws w)
             = dispatched w (ConsoleLog (SendingRequest receiver)
                               :: Post receiver body tmo :: ev3) 1).
  { intros ev3. unfold dispatched. rewrite <- !app_assoc; simpl.
    f_equal. lia. }
  rewrite E. unfold failed_events.
  destruct (i =? Z.of_nat (List.length urls) - 1); reflexivity.
Qed.

(** One turn of the loop on a receiver that answers. *)
Lemma sendRequest_loop_answered receiver pending i body w response :
  axios_post env (posts w) receiver body tmo = inl response ->
  sendRequest_loop env this (receiver :: pending) i body w
  = (Normal (Some response),
     dispatched w (answered_events body tmo receiver) 1).
Proof.
  intros H. simpl.
  unfold bind, try_catch, console_log, emit, post, throw, ret; simpl.
  rewrite H; simpl. unfold dispatched, answered_events.
  rewrite <- !app_assoc; simpl. do 2 f_equal. lia.
Qed.

(** The loop, from any index on: either some receiver is the first to answer,
    or all fail and the error of the last one is thrown. *)
Lemma sendRequest_loop_spec body :
  forall pending done w,
    urls = done ++ pending -> pending <> [] ->
    (exists k response,
        (k < List.length pending)%nat /\
        (forall j, (j < k)%nat -> fails (outcome env this pending body w j)) /\
        outcome env this pending body w k = inl response /\
        sendRequest_loop env this pending (Z.of_nat (List.length done)) body w
        = (Normal (Some response),
           dispatched w
             (flat_map (failed_events body tmo) (firstn k pending)
              ++ answered_events body tmo (nth k pending ""%string))
             (S k)))
    \/
    (exists err,
        (forall j, (j < List.length pending)%nat ->
                   fails (outcome env this pending body w j)) /\
        outcome env this pending body w (List.length pending - 1) = inr err /\
        sendRequest_loop env this pending (Z.of_nat (List.length done)) body w
        = (Throw err,
           dispatched w (flat_map (failed_events body tmo) pending)
                      (List.length pending))).
Proof.
  induction pending as [|receiver rest IH]; intros done w Hurls Hne;
    [congruence|].
  destruct (axios_post env (posts w) receiver body tmo) as [response|err]
    eqn:Hcall.
  - left. exists 0%nat, response. repeat split.
    + simpl; lia.
    + intros j Hj; lia.
    + unfold outcome. now rewrite Nat.add_0_r.
    + now apply sendRequest_loop_answered.
  - rewrite (sendRequest_loop_failed _ _ _ _ _ _ Hcall).
    assert (Hlen : List.length urls
                   = (List.length done + S (List.length rest))%nat).
    { rewrite Hurls, length_app. reflexivity. }
    destruct rest as [|receiver' rest'].
    + replace (Z.of_nat (List.length done)
               =? Z.of_nat (List.length urls) - 1) with true
        by (symmetry; apply Z.eqb_eq; rewrite Hlen; simpl; lia).
      right. exists err. repeat split.
      * intros j Hj. simpl in Hj. assert (j = 0%nat) as -> by lia.
        exists err. unfold outcome. now rewrite Nat.add_0_r.
      * unfold outcome. simpl. now rewrite Nat.add_0_r.
    + replace (Z.of_nat (List.length done)
               =? Z.of_nat (List.length urls) - 1) with false
        by (symmetry; apply Z.eqb_neq; rewrite Hlen; simpl; lia).
      set (w1 := dispatched w (failed_events body tmo receiver) 1).
      assert (Hshift : forall j,
                 outcome env this (receiver' :: rest') body w1 j
                 = outcome env this (receiver :: receiver' :: rest') body w (S j)).
      { intros j. unfold outcome, w1, dispatched. simpl posts.
        replace (posts w + 1 + j)%nat with (posts w + S j)%nat by lia.
        reflexivity. }
      assert (Hdone : urls = (done ++ [receiver]) ++ receiver' :: rest').
      { rewrite Hurls, <- app_assoc. reflexivity. }
      replace (Z.of_nat (List.length done) + 1)
        with (Z.of_nat (List.length (done ++ [receiver])))
        by (rewrite length_app; simpl; lia).
      destruct (IH (done ++ [receiver]) w1 Hdone ltac:(discriminate))
        as [(k & response & Hk & Hbefore & Hat & Hrun)
           |(err' & Hall & Hlast & Hrun)].
      * left. exists (S k), response. repeat split.
        -- simpl in *; lia.
        -- intros [|j] Hj.
           ++ exists err. unfold outcome. now rewrite Nat.add_0_r.
           ++ rewrite <- Hshift. apply Hbefore. lia.
        -- now rewrite <- Hshift.
        -- rewrite Hrun. unfold w1. rewrite dispatched_dispatched.
           reflexivity.
      * right. exists err'. repeat split.
        -- intros [|j] Hj.
           ++ exists err. unfold outcome. now rewrite Nat.add_0_r.
           ++ rewrite <- Hshift. apply Hall. simpl in *; lia.
        -- replace (List.length (receiver :: receiver' :: rest') - 1)%nat
             with (S (List.length (receiver' :: rest') - 1))
             by (simpl; lia).
           now rewrite <- Hshift.
        -- rewrite Hrun. unfold w1. rewrite dispatched_dispatched.
           reflexivity.
Qed.

End Dispatch.

Section DispatchResults.

Context {Payload : Type}.
Variable env : Env Payload.
Variable this : HttpRequester.

Abbreviation urls := (receiversUrl (config this)).
Abbreviation tmo := (timeout (config this)).

Lemma fails_not_answer (r : AxiosResponse + JsError) response :
  fails r -> r = inl response -> False.
Proof. intros [err ->]; discriminate. Qed.

(** Every receiver fails: the error of the last one is thrown. *)
Lemma sendRequest_all_fail body w :
  urls <> [] ->
  (forall j, (j < List.length urls)%nat ->
             fails (outcome env this urls body w j)) ->
  exists err,
    outcome env this urls body w (List.length urls - 1) = inr err /\
    sendRequest env this body w
    = (Throw err,
       dispatched w (flat_map (failed_events body tmo) urls)
                  (List.length urls)).
Proof.
  intros Hne Hall.
  destruct (sendRequest_loop_spec env this body urls [] w eq_refl Hne)
    as [(k & response & Hk & _ & Hat & _)|(err & _ & Hlast & Hrun)].
  - exfalso. eapply fails_not_answer; [apply (Hall k Hk) | exact Hat].
  - exists err. split; [exact Hlast | exact Hrun].
Qed.

(** Receiver [k] is the first to answer: its response is returned. *)
Lemma sendRequest_first_answer body w k response :
  (k < List.length urls)%nat ->
  (forall j, (j < k)%nat -> fails (outcome env this urls body w j)) ->
  outcome env this urls body w k = inl response ->
  sendRequest env this body w
  = (Normal (Some response),
     dispatched w
       (flat_map (failed_events body tmo) (firstn k urls)
        ++ answered_events body tmo (nth k urls ""%string))
       (S k)).
Proof.
  intros Hk Hbefore Hat.
  assert (Hne : urls <> []).
  { intros E. rewrite E in Hk. simpl in Hk. lia. }
  destruct (sendRequest_loop_spec env this body urls [] w eq_refl Hne)
    as [(k' & response' & Hk' & Hbefore' & Hat' & Hrun)
       |(err & Hall & _ & _)].
  - assert (k' = k) as ->.
    { destruct (Nat.lt_trichotomy k' k) as [Hlt|[Heq|Hgt]]; [|exact Heq|].
      - exfalso. eapply fails_not_answer; [apply (Hbefore _ Hlt)|exact Hat'].
      - exfalso. eapply fails_not_answer; [apply (Hbefore' _ Hgt)|exact Hat]. }
    rewrite Hat in Hat'. injection Hat' as <-. exact Hrun.
  - exfalso. eapply fails_not_answer; [apply (Hall k Hk) | exact Hat].
Qed.

Lemma transport_calls_app (l1 l2 : list (Event Payload)) :
  transport_calls (l1 ++ l2) = transport_calls l1 ++ transport_calls l2.
Proof. apply flat_map_app. Qed.

Lemma transport_calls_failed (body : Payload) (l : list string) :
  transport_calls (flat_map (failed_events body tmo) l)
  = map (fun u => (u, body, tmo)) l.
Proof.
  induction l as [|u l IH]; [reflexivity|].
  simpl. unfold transport_calls in *. simpl. now rewrite IH.
Qed.

Lemma no_sleep_failed (body : Payload) (l : list string) ms :
  ~ In (Sleep ms) (flat_map (failed_events body tmo) l).
Proof.
  induction l as [|u l IH]; simpl; [tauto|].
  intros [H|[H|[H|H]]]; try discriminate. now apply IH.
Qed.

Lemma ladder_app (l1 l2 : list (Event Payload)) :
  ladder (l1 ++ l2) = ladder l1 ++ ladder l2.
Proof. apply flat_map_app. Qed.

Lemma statements_app (l1 l2 : list (Event Payload)) :
  statements (l1 ++ l2) = statements l1 ++ statements l2.
Proof. apply flat_map_app. Qed.

Lemma ladder_failed (body : Payload) (l : list string) :
  ladder (flat_map (failed_events body tmo) l) = [].
Proof. induction l as [|u l IH]; [reflexivity|]. simpl. exact IH. Qed.

Lemma statements_failed (body : Payload) (l : list string) :
  statements (flat_map (failed_events body tmo) l) = [].
Proof. induction l as [|u l IH]; [reflexivity|]. simpl. exact IH. Qed.

Lemma firstn_snoc (l : list string) k :
  (k < List.length l)%nat ->
  firstn (S k) l = firstn k l ++ [nth k l ""%string].
Proof.
  revert k. induction l as [|u l IH]; intros k Hk; simpl in Hk; [lia|].
  destruct k as [|k]; [reflexivity|].
  change (firstn (S (S k)) (u :: l)) with (u :: firstn (S k) l).
  rewrite IH by lia. reflexivity.
Qed.

(** What a dispatch leaves in the world, whatever the transport does: events
    of the dispatch only, no statement, no step on the ladder. *)
Lemma sendRequest_frame body w :
  exists r evs k,
    sendRequest env this body w = (r, dispatched w evs k) /\
    r <> OutOfFuel /\ ladder evs = [] /\ statements evs = [] /\
    (urls <> [] -> r <> Normal None).
Proof.
  destruct urls as [|u l] eqn:Hurls.
  - exists (Normal None), [], 0%nat. unfold sendRequest. rewrite Hurls.
    simpl. unfold ret, dispatched. rewrite app_nil_r, Nat.add_0_r, world_eta.
    repeat split; congruence.
  - assert (Hne : urls <> []) by (rewrite Hurls; discriminate).
    destruct (sendRequest_loop_spec env this body urls [] w eq_refl Hne)
      as [(k & response & _ & _ & _ & Hrun)|(err & _ & _ & Hrun)].
    + unfold sendRequest. rewrite <- Hurls.
      eexists _, _, _. split; [exact Hrun|].
      rewrite ladder_app, statements_app, ladder_failed, statements_failed.
      repeat split; try reflexivity; discriminate.
    + unfold sendRequest. rewrite <- Hurls.
      eexists _, _, _. split; [exact Hrun|].
      rewrite ladder_failed, statements_failed.
      repeat split; try reflexivity; discriminate.
Qed.

(** C3: one dispatch goes through the receivers in list order without any
    delay, returns the response of the first receiver whose call completes,
    and, when every receiver fails, throws the error of the last one; the
    earlier failures are only logged. *)
Theorem sendRequest_failover body w :
  urls <> [] ->
  exists r evs k,
    sendRequest env this body w = (r, dispatched w evs k) /\
    (1 <= k <= List.length urls)%nat /\
    transport_calls evs = map (fun u => (u, body, tmo)) (firstn k urls) /\
    (forall ms, ~ In (Sleep ms) evs) /\
    (forall j, (j < k - 1)%nat ->
               fails (outcome env this urls body w j) /\
               In (ConsoleLog (RequestToFailed (nth j urls ""%string))) evs) /\
    match outcome env this urls body w (k - 1) with
    | inl response => r = Normal (Some response)
    | inr err => k = List.length urls /\ r = Throw err
    end.
Proof.
  intros Hne.
  destruct (sendRequest_loop_spec env this body urls [] w eq_refl Hne)
    as [(k & response & Hk & Hbefore & Hat & Hrun)
       |(err & Hall & Hlast & Hrun)].
  - eexists _, _, (S k). split; [exact Hrun|].
    replace (S k - 1)%nat with k by lia. rewrite Hat.
    repeat split; try lia.
    + rewrite transport_calls_app, transport_calls_failed, firstn_snoc by lia.
      rewrite map_app. reflexivity.
    + intros ms Hin. apply in_app_or in Hin as [Hin|Hin].
      * now apply no_sleep_failed in Hin.
      * simpl in Hin. destruct Hin as [H|[H|H]]; try discriminate; exact H.
    + now apply Hbefore.
    + apply in_or_app. left. apply in_flat_map.
      exists (nth j urls ""%string). split.
      * rewrite <- (firstn_skipn k urls) at 1.
        rewrite app_nth1 by (rewrite length_firstn; lia).
        apply nth_In. rewrite length_firstn. lia.
      * simpl. tauto.
  - eexists _, _, (List.length urls). split; [exact Hrun|].
    assert (Hpos : (0 < List.length urls)%nat).
    { destruct urls; [congruence | simpl; lia]. }
    rewrite Hlast. repeat split; try lia.
    + now rewrite transport_calls_failed, firstn_all.
    + intros ms. apply no_sleep_failed.
    + apply Hall. lia.
    + apply in_flat_map. exists (nth j urls ""%string). split.
      * apply nth_In. lia.
      * simpl. tauto.
Qed.

End DispatchResults.

(** ** The ledger operations and the blocks of the two ladders *)

Ltac run :=
  unfold bind, try_catch, console_log, console_error, emit, sleep, ret, throw,
    execute, generateUUID, set_draws, logged, stored; simpl.

Ltac world_eq := rewrite <- ?app_assoc; simpl; reflexivity.

Section Blocks.

Context {Payload : Type}.
Variable env : Env Payload.
Variable this : HttpRequester.

Abbreviation M := (maxAttempts (config this)).

Lemma replace_xy_nonempty c template draw :
  exists c' rest,
    fst (replace_xy env (String c template) draw) = String c' rest.
Proof.
  simpl.
  destruct (Ascii.eqb c "x" || Ascii.eqb c "y")%char.
  - destruct (replace_xy env template (S draw)). eexists _, _. reflexivity.
  - destruct (replace_xy env template draw). eexists _, _. reflexivity.
Qed.

#[local] Arguments replace_xy : simpl never.
#[local] Arguments Z.pow : simpl never.
#[local] Arguments Z.mul : simpl never.

Lemma uuid_truthy (w : World Payload) : key_truthy (Some (uuid_in env w)) = true.
Proof.
  unfold uuid_in, uuid_template.
  destruct (replace_xy_nonempty "x"%char "xxxxxxx-xxxx-4xxx-yxxx-xxxxxxxxxxxx"
              (draws w)) as (c & rest & E).
  rewrite E. reflexivity.
Qed.

Lemma generateUUID_eq (w : World Payload) :
  generateUUID env w
  = (Normal (uuid_in env w),
     set_draws (snd (replace_xy env uuid_template (draws w))) w).
Proof.
  unfold generateUUID, uuid_in.
  destruct (replace_xy env uuid_template (draws w)). reflexivity.
Qed.

(** With the store available. *)

Lemma insertAttemptRecord_stored rid a code body ab w :
  store_available env ->
  insertAttemptRecord env this rid a code body ab w
  = (Normal tt,
     stored w (InsertAttempt rid a code (JSON_stringify env body) ab
                             (this_hostname this))).
Proof.
  intros Hdb. unfold insertAttemptRecord. run. now rewrite Hdb.
Qed.

Lemma abandonAttemptRecord_stored key a code w :
  store_available env ->
  abandonAttemptRecord env key a code w
  = (Normal tt, stored w (UpdateAbandoned 1 a code key)).
Proof.
  intros Hdb. unfold abandonAttemptRecord. run. now rewrite Hdb.
Qed.

Lemma deleteAttemptRecord_stored key w :
  store_available env -> key_truthy (Some key) = true ->
  deleteAttemptRecord env (Some key) w
  = (Normal tt, stored w (DeleteAttempt key)).
Proof.
  intros Hdb Hkey. unfold deleteAttemptRecord. rewrite Hkey. run.
  now rewrite Hdb.
Qed.

(** Whatever the store does: a ledger operation returns normally, and leaves
    no step on the ladder. *)

Lemma insertAttemptRecord_frame rid a code body ab w :
  exists w' evs,
    insertAttemptRecord env this rid a code body ab w = (Normal tt, w') /\
    trace w' = trace w ++ evs /\ ladder evs = [].
Proof.
  unfold insertAttemptRecord. run.
  destruct (db_fault env (execs w)); simpl;
    eexists _, _; (split; [reflexivity|]); simpl; split;
    try world_eq; reflexivity.
Qed.

Lemma abandonAttemptRecord_frame key a code w :
  exists w' evs,
    abandonAttemptRecord env key a code w = (Normal tt, w') /\
    trace w' = trace w ++ evs /\ ladder evs = [].
Proof.
  unfold abandonAttemptRecord. run.
  destruct (db_fault env (execs w)); simpl;
    eexists _, _; (split; [reflexivity|]); simpl; split;
    try world_eq; reflexivity.
Qed.

Lemma deleteAttemptRecord_frame key w :
  exists w' evs,
    deleteAttemptRecord env key w = (Normal tt, w') /\
    trace w' = trace w ++ evs /\ ladder evs = [].
Proof.
  unfold deleteAttemptRecord.
  destruct key as [k|].
  - destruct (key_truthy (Some k)).
    + run. destruct (db_fault env (execs w)); simpl;
        eexists _, _; (split; [reflexivity|]); simpl; split;
        try world_eq; reflexivity.
    + exists w, []. unfold ret. rewrite app_nil_r. repeat split.
  - exists w, []. unfold ret. rewrite app_nil_r. repeat split.
Qed.

(** The [try] block of [makeHttpRequest]. *)

Lemma make_try_throw body a key w err w1 :
  sendRequest env this body w = (Throw err, w1) ->
  make_try env this body a key w = (Throw err, w1).
Proof. intros H. unfold make_try, bind. now rewrite H. Qed.

Lemma make_try_first body a key w response w1 :
  sendRequest env this body w = (Normal (Some response), w1) ->
  (a >? 1) && key_truthy key = false ->
  make_try env this body a key w
  = (Normal tt, logged w1 [ConsoleLog (RequestSuccessful (status response))]).
Proof.
  intros H Hc. unfold make_try, bind. rewrite H, Hc. reflexivity.
Qed.

Lemma make_try_later body a key w response w1 :
  sendRequest env this body w = (Normal (Some response), w1) ->
  store_available env -> 1 < a -> key_truthy (Some key) = true ->
  make_try env this body a (Some key) w
  = (Normal tt,
     logged (stored w1 (DeleteAttempt key))
            [ConsoleLog (RequestSuccessful (status response))]).
Proof.
  intros H Hdb Ha Hkey. unfold make_try, bind. rewrite H.
  replace (a >? 1) with true by (symmetry; apply Z.gtb_lt; lia).
  rewrite Hkey. simpl andb.
  rewrite (deleteAttemptRecord_stored _ _ Hdb Hkey). reflexivity.
Qed.

Lemma make_try_frame body a key w :
  exists r w1 evs,
    make_try env this body a key w = (r, w1) /\
    r <> OutOfFuel /\ trace w1 = trace w ++ evs /\ ladder evs = [].
Proof.
  unfold make_try, bind.
  destruct (sendRequest_frame env this body w)
    as (r & evs & k & Hrun & Hfuel & Hlad & _).
  rewrite Hrun. destruct r as [response|err|]; [| |congruence].
  - set (w1 := dispatched w evs k).
    assert (Hdel : exists w2 evs2,
               (if (a >? 1) && key_truthy key
                then deleteAttemptRecord env key else ret tt) w1
               = (Normal tt, w2) /\
               trace w2 = trace w1 ++ evs2 /\ ladder evs2 = []).
    { destruct ((a >? 1) && key_truthy key).
      - apply deleteAttemptRecord_frame.
      - exists w1, []. unfold ret. rewrite app_nil_r. repeat split. }
    destruct Hdel as (w2 & evs2 & Hdel & Ht2 & Hl2). rewrite Hdel.
    destruct response as [response|]; simpl.
    + eexists _, _, (evs ++ evs2 ++ [_]).
      split; [reflexivity|]. split; [discriminate|]. split.
      * simpl. rewrite Ht2. unfold w1; simpl. now rewrite <- !app_assoc.
      * rewrite !ladder_app, Hlad, Hl2. reflexivity.
    + eexists _, _, (evs ++ evs2).
      split; [reflexivity|]. split; [discriminate|]. split.
      * rewrite Ht2. unfold w1; simpl. now rewrite <- !app_assoc.
      * rewrite !ladder_app, Hlad, Hl2. reflexivity.
  - eexists _, _, evs. split; [reflexivity|]. split; [discriminate|].
    split; [reflexivity | exact Hlad].
Qed.

(** The [catch] block of [makeHttpRequest]. *)

Lemma make_catch_frame next body a key err w :
  exists key' w' evs,
    trace w' = trace w ++ evs /\
    ladder evs = (if a <? M then [Failed a; Delay (2 ^ a * 1000)]
                  else [Failed a]) /\
    make_catch env this next body a key err w
    = (if a <? M then next (a + 1) (Some key') w' else (Normal tt, w')).
Proof.
  unfold make_catch.
  set (w0 := logged w [ConsoleError
                         (AttemptFailed a (err_message err) (statusCode_of err))]).
  assert (Hkey : exists key' w1,
             (match key with
              | Some k => if key_truthy key then ret k else generateUUID env
              | None => generateUUID env
              end) w0 = (Normal key', w1) /\ trace w1 = trace w0).
  { destruct key as [k|]; [destruct (key_truthy (Some k))|];
      try (rewrite generateUUID_eq; eexists _, _; split; reflexivity).
    exists k, w0. split; reflexivity. }
  destruct Hkey as (key' & w1 & Hkey & Ht1).
  exists key'.
  unfold bind at 1. unfold console_error at 1, emit at 1.
  change (mkWorld (ledger w) (next_id w)
            (trace w ++ [ConsoleError (AttemptFailed a (err_message err)
                                                     (statusCode_of err))])
            (posts w) (execs w) (draws w)) with w0.
  unfold bind at 1. rewrite Hkey.
  destruct (a <? M) eqn:Hlt.
  - assert (Hins : exists w2 evs2,
               (if a =? 1
                then (console_log InsertingRecord ;;
                      insertAttemptRecord env this key' a (statusCode_of err)
                                          body 0)%async
                else ret tt) w1 = (Normal tt, w2) /\
               trace w2 = trace w1 ++ evs2 /\ ladder evs2 = []).
    { destruct (a =? 1).
      - unfold bind, console_log, emit.
        destruct (insertAttemptRecord_frame key' a (statusCode_of err) body 0
                    (mkWorld (ledger w1) (next_id w1)
                             (trace w1 ++ [ConsoleLog InsertingRecord])
                             (posts w1) (execs w1) (draws w1)))
          as (w2 & evs2 & Hrun & Ht & Hl).
        rewrite Hrun. exists w2, (ConsoleLog InsertingRecord :: evs2).
        split; [reflexivity|]. split.
        + rewrite Ht. simpl. now rewrite <- app_assoc.
        + exact Hl.
      - exists w1, []. unfold ret. rewrite app_nil_r. repeat split. }
    destruct Hins as (w2 & evs2 & Hins & Ht2 & Hl2).
    unfold bind at 1. rewrite Hins. run.
    eexists _, (_ :: evs2 ++ [_; _]). split; [|split]; cycle 2.
    + reflexivity.
    + simpl. rewrite Ht2, Ht1. unfold w0; simpl. now rewrite <- !app_assoc.
    + simpl. rewrite ladder_app, Hl2. reflexivity.
  - assert (Hins : exists w2 evs2,
               (if a =? 1
                then (console_log InsertingRecord ;;
                      insertAttemptRecord env this key' a (statusCode_of err)
                                          body 1)%async
                else abandonAttemptRecord env key' a (statusCode_of err)) w1
               = (Normal tt, w2) /\
               trace w2 = trace w1 ++ evs2 /\ ladder evs2 = []).
    { destruct (a =? 1).
      - unfold bind, console_log, emit.
        destruct (insertAttemptRecord_frame key' a (statusCode_of err) body 1
                    (mkWorld (ledger w1) (next_id w1)
                             (trace w1 ++ [ConsoleLog InsertingRecord])
                             (posts w1) (execs w1) (draws w1)))
          as (w2 & evs2 & Hrun & Ht & Hl).
        rewrite Hrun. exists w2, (ConsoleLog InsertingRecord :: evs2).
        split; [reflexivity|]. split.
        + rewrite Ht. simpl. now rewrite <- app_assoc.
        + exact Hl.
      - apply abandonAttemptRecord_frame. }
    destruct Hins as (w2 & evs2 & Hins & Ht2 & Hl2).
    unfold bind at 1. rewrite Hins. run.
    eexists _, (_ :: evs2 ++ [_]). split; [|split]; cycle 2.
    + reflexivity.
    + simpl. rewrite Ht2, Ht1. unfold w0; simpl. now rewrite <- !app_assoc.
    + simpl. rewrite ladder_app, Hl2. reflexivity.
Qed.

End Blocks.

(** ** The two ladders, whatever the transport and the store do *)

Section Ladders.

Context {Payload : Type}.
Variable env : Env Payload.
Variable this : HttpRequester.

Abbreviation M := (maxAttempts (config this)).

#[local] Arguments deleteAttemptRecord : simpl never.
#[local] Arguments Z.pow : simpl never.
#[local] Arguments Z.mul : simpl never.

Lemma makeHttpRequest_fuel_ladder body :
  forall fuel a key w,
    (Z.to_nat (M - a) < fuel)%nat ->
    exists w' evs,
      makeHttpRequest_fuel env this fuel body a key w = (Normal tt, w') /\
      trace w' = trace w ++ evs /\
      ladder_from M a (ladder evs).
Proof.
  induction fuel as [|fuel IH]; intros a key w Hfuel; [lia|].
  change (makeHttpRequest_fuel env this (S fuel) body a key w)
    with (try_catch (make_try env this body a key)
            (make_catch env this (makeHttpRequest_fuel env this fuel body)
                        body a key) w).
  unfold try_catch.
  destruct (make_try_frame env this body a key w)
    as (r & w1 & evs1 & Hrun & Hf & Ht & Hl).
  rewrite Hrun. destruct r as [[]|err|]; [| |congruence].
  - exists w1, evs1. rewrite Hl. repeat split; [assumption | constructor].
  - destruct (make_catch_frame env this
                (makeHttpRequest_fuel env this fuel body) body a key err w1)
      as (key' & w2 & evs2 & Ht2 & Hl2 & Heq).
    rewrite Heq. destruct (a <? M) eqn:Ha.
    + apply Z.ltb_lt in Ha.
      destruct (IH (a + 1) (Some key') w2 ltac:(lia))
        as (w' & evs3 & Hrun3 & Ht3 & Hl3).
      rewrite Hrun3. exists w', (evs1 ++ evs2 ++ evs3).
      split; [reflexivity|]. split.
      * rewrite Ht3, Ht2, Ht. now rewrite <- !app_assoc.
      * rewrite !ladder_app, Hl, Hl2. simpl. now constructor.
    + apply Z.ltb_ge in Ha.
      exists w2, (evs1 ++ evs2). split; [reflexivity|]. split.
      * rewrite Ht2, Ht. now rewrite <- !app_assoc.
      * rewrite ladder_app, Hl, Hl2. simpl. now constructor.
Qed.

(** The blocks of [retryHttpRequest]. *)

Lemma retry_try_frame rid body w :
  exists r w1 evs,
    retry_try env this rid body w = (r, w1) /\
    r <> OutOfFuel /\ trace w1 = trace w ++ evs /\ ladder evs = [].
Proof.
  unfold retry_try, bind.
  destruct (sendRequest_frame env this body w)
    as (r & evs & k & Hrun & Hfuel & Hlad & _).
  rewrite Hrun. destruct r as [[response|]|err|]; [| | |congruence]; simpl.
  - unfold console_log, emit; simpl.
    match goal with
    | |- context [deleteAttemptRecord env (Some rid) ?w0] =>
        destruct (deleteAttemptRecord_frame env (Some rid) w0)
          as (w2 & evs2 & Hdel & Ht2 & Hl2)
    end.
    rewrite Hdel. eexists _, _, (evs ++ _ :: evs2).
    split; [reflexivity|]. split; [discriminate|]. split.
    + rewrite Ht2. simpl. now rewrite <- !app_assoc.
    + rewrite ladder_app, Hlad. simpl. exact Hl2.
  - eexists _, _, evs. split; [reflexivity|]. split; [discriminate|].
    split; [reflexivity | exact Hlad].
  - eexists _, _, evs. split; [reflexivity|]. split; [discriminate|].
    split; [reflexivity | exact Hlad].
Qed.

Lemma retry_catch_retry next a err (w : World Payload) :
  a < M ->
  retry_catch this next a err w
  = next (a + 1)
      (logged w [ConsoleError (RetryAttemptFailed a (err_message err));
                 ConsoleLog (RetryingAfter (2 ^ a * 1000));
                 Sleep (2 ^ a * 1000)]).
Proof.
  intros Ha. unfold retry_catch.
  replace (a <? M) with true by (symmetry; now apply Z.ltb_lt).
  unfold bind, console_error, console_log, sleep, emit, logged; simpl.
  now rewrite <- !app_assoc.
Qed.

Lemma retry_catch_exhausted next a err (w : World Payload) :
  M <= a ->
  retry_catch this next a err w
  = (Throw recordId_not_defined,
     logged w [ConsoleError (RetryAttemptFailed a (err_message err))]).
Proof.
  intros Ha. unfold retry_catch.
  replace (a <? M) with false by (symmetry; now apply Z.ltb_ge).
  reflexivity.
Qed.

Lemma retryHttpRequest_fuel_ladder rid body :
  forall fuel a w,
    (Z.to_nat (M - a) < fuel)%nat ->
    exists r w' evs,
      retryHttpRequest_fuel env this fuel rid a body w = (r, w') /\
      r <> OutOfFuel /\
      trace w' = trace w ++ evs /\
      ladder_from M a (ladder evs).
Proof.
  induction fuel as [|fuel IH]; intros a w Hfuel; [lia|].
  change (retryHttpRequest_fuel env this (S fuel) rid a body w)
    with (try_catch (retry_try env this rid body)
            (retry_catch this
               (fun a' => retryHttpRequest_fuel env this fuel rid a' body) a)
            w).
  unfold try_catch.
  destruct (retry_try_frame rid body w)
    as (r & w1 & evs1 & Hrun & Hf & Ht & Hl).
  rewrite Hrun. destruct r as [[]|err|]; [| |congruence].
  - exists (Normal tt), w1, evs1. rewrite Hl.
    repeat split; [discriminate | assumption | constructor].
  - destruct (Z.lt_ge_cases a M) as [Ha|Ha].
    + rewrite retry_catch_retry by assumption.
      match goal with
      | |- context [retryHttpRequest_fuel env this fuel rid (a + 1) body ?w0] =>
          destruct (IH (a + 1) w0 ltac:(lia))
            as (r & w' & evs3 & Hrun3 & Hf3 & Ht3 & Hl3)
      end.
      rewrite Hrun3. eexists r, w', (evs1 ++ [_; _; _] ++ evs3).
      split; [reflexivity|]. split; [assumption|]. split.
      * rewrite Ht3. simpl. rewrite Ht. now rewrite <- !app_assoc.
      * rewrite !ladder_app, Hl. simpl. now constructor.
    + rewrite retry_catch_exhausted by assumption.
      eexists _, _, (evs1 ++ _). split; [reflexivity|].
      split; [discriminate|]. split.
      * simpl. rewrite Ht. now rewrite <- !app_assoc.
      * rewrite ladder_app, Hl. simpl. now constructor.
Qed.

(** How a ladder reads: a delay always comes right after the report of a
    failed attempt [k] below the budget, lasts [2^k] seconds, and what follows
    it is the ladder of attempt [k + 1]. *)
Lemma ladder_from_delay B a l :
  ladder_from B a l ->
  forall pre d post,
    l = pre ++ Delay d :: post ->
    exists pre' k,
      pre = pre' ++ [Failed k] /\ a <= k < B /\ d = 2 ^ k * 1000 /\
      ladder_from B (k + 1) post.
Proof.
  induction 1 as [a|a Ha|a l Ha Hl IH]; intros pre d post E.
  - destruct pre; discriminate.
  - destruct pre as [|x [|y pre]]; discriminate.
  - destruct pre as [|x [|y pre]]; [discriminate| |].
    + injection E as <- <- <-. exists [], a. repeat split; try lia.
      exact Hl.
    + injection E as <- <- E.
      destruct (IH pre d post E) as (pre' & k & -> & Hk & Hd & Hpost).
      exists (Failed a :: Delay (2 ^ a * 1000) :: pre'), k.
      repeat split; try lia; assumption.
Qed.

(** C8: whatever the transport and the store do, [makeHttpRequest] returns
    normally from every attempt number, and so does [startRequest]: no error
    reaches the caller, not even when the budget is used up. *)
Theorem startRequest_never_throws body w :
  (forall attempt uniqueKey,
      fst (makeHttpRequest env this body attempt uniqueKey w) = Normal tt) /\
  fst (startRequest env this body w) = Normal tt.
Proof.
  assert (H : forall a key,
             fst (makeHttpRequest env this body a key w) = Normal tt).
  { intros a key.
    destruct (makeHttpRequest_fuel_ladder body (ladder_fuel this a) a key w)
      as (w' & evs & Hrun & _); [unfold ladder_fuel; lia|].
    unfold makeHttpRequest. now rewrite Hrun. }
  split; [exact H|].
  specialize (H 1 None). unfold startRequest, try_catch.
  destruct (makeHttpRequest env this body 1 None w) as [r w'].
  simpl in H. subst r. reflexivity.
Qed.

End Ladders.

(** ** The deliver path, attempt by attempt *)

Section Deliver.

Context {Payload : Type}.
Variable env : Env Payload.
Variable this : HttpRequester.

Abbreviation M := (maxAttempts (config this)).
Abbreviation urls := (receiversUrl (config this)).
Abbreviation tmo := (timeout (config this)).
Abbreviation n := (List.length (receiversUrl (config this))).

#[local] Arguments replace_xy : simpl never.
#[local] Arguments Z.pow : simpl never.
#[local] Arguments Z.mul : simpl never.

Lemma bind_normal {A B} (m : Async Payload A) (k : A -> Async Payload B)
      w a w' :
  m w = (Normal a, w') -> bind m k w = k a w'.
Proof. intros H. unfold bind. now rewrite H. Qed.

Lemma makeHttpRequest_blocks body a key w :
  makeHttpRequest env this body a key w
  = try_catch (make_try env this body a key)
      (make_catch env this
         (makeHttpRequest_fuel env this (Z.to_nat (M - a)) body) body a key) w.
Proof. reflexivity. Qed.

Lemma makeHttpRequest_next body a key :
  a < M ->
  makeHttpRequest_fuel env this (Z.to_nat (M - a)) body (a + 1) key
  = makeHttpRequest env this body (a + 1) key.
Proof.
  intros Ha. unfold makeHttpRequest, ladder_fuel. f_equal. lia.
Qed.

(** A later attempt fails below the budget: sleep, then the next attempt. *)
Lemma makeHttpRequest_retry body a key w err w1 :
  sendRequest env this body w = (Throw err, w1) ->
  key_truthy (Some key) = true -> 1 < a -> a < M ->
  makeHttpRequest env this body a (Some key) w
  = makeHttpRequest env this body (a + 1) (Some key)
      (logged w1
         [ConsoleError (AttemptFailed a (err_message err) (statusCode_of err));
          ConsoleLog (RetryingAfter (2 ^ a * 1000));
          Sleep (2 ^ a * 1000)]).
Proof.
  intros Hsend Hkey H1 Ha.
  rewrite makeHttpRequest_blocks. unfold try_catch.
  rewrite (make_try_throw _ _ _ _ _ _ _ _ Hsend).
  unfold make_catch. rewrite Hkey.
  replace (a <? M) with true by (symmetry; now apply Z.ltb_lt).
  replace (a =? 1) with false by (symmetry; apply Z.eqb_neq; lia).
  run. rewrite makeHttpRequest_next by assumption.
  now rewrite <- !app_assoc.
Qed.

(** A later attempt fails and uses the budget up: the record is marked. *)
Lemma makeHttpRequest_abandon body a key w err w1 :
  sendRequest env this body w = (Throw err, w1) ->
  store_available env ->
  key_truthy (Some key) = true -> 1 < a -> M <= a ->
  makeHttpRequest env this body a (Some key) w
  = (Normal tt,
     logged
       (stored
          (logged w1 [ConsoleError (AttemptFailed a (err_message err)
                                                  (statusCode_of err))])
          (UpdateAbandoned 1 a (statusCode_of err) key))
       [ConsoleError MaximumAttemptsReached]).
Proof.
  intros Hsend Hdb Hkey H1 Ha.
  rewrite makeHttpRequest_blocks. unfold try_catch.
  rewrite (make_try_throw _ _ _ _ _ _ _ _ Hsend).
  unfold make_catch. rewrite Hkey.
  replace (a <? M) with false by (symmetry; now apply Z.ltb_ge).
  replace (a =? 1) with false by (symmetry; apply Z.eqb_neq; lia).
  unfold bind at 1. unfold console_error at 1, emit at 1.
  unfold bind at 1, ret at 1. unfold bind at 1.
  rewrite (abandonAttemptRecord_stored _ _ _ _ _ Hdb).
  reflexivity.
Qed.

(** The first attempt fails below the budget. *)
Lemma makeHttpRequest_first_retry body w err w1 :
  sendRequest env this body w = (Throw err, w1) ->
  store_available env -> 1 < M ->
  makeHttpRequest env this body 1 None w
  = makeHttpRequest env this body 2 (Some (uuid_in env w1))
      (logged
         (stored
            (logged
               (set_draws (snd (replace_xy env uuid_template (draws w1)))
                  (logged w1 [ConsoleError
                                (AttemptFailed 1 (err_message err)
                                               (statusCode_of err))]))
               [ConsoleLog InsertingRecord])
            (InsertAttempt (uuid_in env w1) 1 (statusCode_of err)
                           (JSON_stringify env body) 0 (this_hostname this)))
         [ConsoleLog (RetryingAfter 2000); Sleep 2000]).
Proof.
  intros Hsend Hdb HM.
  rewrite makeHttpRequest_blocks. unfold try_catch.
  rewrite (make_try_throw _ _ _ _ _ _ _ _ Hsend).
  unfold make_catch.
  replace (1 <? M) with true by (symmetry; now apply Z.ltb_lt).
  change (1 =? 1) with true. cbv iota.
  erewrite bind_normal by reflexivity.
  erewrite bind_normal by apply generateUUID_eq.
  erewrite bind_normal
    by (erewrite bind_normal by reflexivity;
        apply insertAttemptRecord_stored; assumption).
  erewrite bind_normal by reflexivity.
  erewrite bind_normal by reflexivity.
  rewrite makeHttpRequest_next by assumption.
  unfold logged, stored, set_draws, uuid_in; cbn [ledger next_id trace posts execs draws].
  now rewrite <- !app_assoc.
Qed.

(** The first attempt fails and is the whole budget. *)
Lemma makeHttpRequest_first_abandon body w err w1 :
  sendRequest env this body w = (Throw err, w1) ->
  store_available env -> M <= 1 ->
  makeHttpRequest env this body 1 None w
  = (Normal tt,
     logged
       (stored
          (logged
             (set_draws (snd (replace_xy env uuid_template (draws w1)))
                (logged w1 [ConsoleError
                              (AttemptFailed 1 (err_message err)
                                             (statusCode_of err))]))
             [ConsoleLog InsertingRecord])
          (InsertAttempt (uuid_in env w1) 1 (statusCode_of err)
                         (JSON_stringify env body) 1 (this_hostname this)))
       [ConsoleError MaximumAttemptsReached]).
Proof.
  intros Hsend Hdb HM.
  rewrite makeHttpRequest_blocks. unfold try_catch.
  rewrite (make_try_throw _ _ _ _ _ _ _ _ Hsend).
  unfold make_catch.
  replace (1 <? M) with false by (symmetry; now apply Z.ltb_ge).
  change (1 =? 1) with true. cbv iota.
  erewrite bind_normal by reflexivity.
  erewrite bind_normal by apply generateUUID_eq.
  erewrite bind_normal
    by (erewrite bind_normal by reflexivity;
        apply insertAttemptRecord_stored; assumption).
  unfold console_error, emit, logged, stored, set_draws, uuid_in;
    cbn [ledger next_id trace posts execs draws].
  reflexivity.
Qed.

(** The first attempt is answered: nothing is written to the store. *)
Lemma makeHttpRequest_answered_first body w response w1 :
  sendRequest env this body w = (Normal (Some response), w1) ->
  makeHttpRequest env this body 1 None w
  = (Normal tt, logged w1 [ConsoleLog (RequestSuccessful (status response))]).
Proof.
  intros Hsend.
  rewrite makeHttpRequest_blocks. unfold try_catch.
  now rewrite (make_try_first env this body 1 None w response w1 Hsend eq_refl).
Qed.

(** A later attempt is answered: the record is deleted. *)
Lemma makeHttpRequest_answered_later body a key w response w1 :
  sendRequest env this body w = (Normal (Some response), w1) ->
  store_available env -> key_truthy (Some key) = true -> 1 < a ->
  makeHttpRequest env this body a (Some key) w
  = (Normal tt,
     logged (stored w1 (DeleteAttempt key))
            [ConsoleLog (RequestSuccessful (status response))]).
Proof.
  intros Hsend Hdb Hkey Ha.
  rewrite makeHttpRequest_blocks. unfold try_catch.
  now rewrite (make_try_later _ _ _ _ _ _ _ _ Hsend Hdb Ha Hkey).
Qed.

End Deliver.

(** ** Deliveries that use the budget up, and deliveries answered late *)

Section Deliveries.

Context {Payload : Type}.
Variable env : Env Payload.
Variable this : HttpRequester.

Abbreviation M := (maxAttempts (config this)).
Abbreviation urls := (receiversUrl (config this)).
Abbreviation tmo := (timeout (config this)).
Abbreviation n := (List.length (receiversUrl (config this))).

#[local] Arguments Z.pow : simpl never.
#[local] Arguments Z.mul : simpl never.
#[local] Arguments Nat.mul : simpl never.

Hypothesis some_receiver : urls <> [].

Lemma n_positive : (0 < n)%nat.
Proof. destruct urls; [congruence | simpl; lia]. Qed.

Lemma outcome_call body w j :
  (j < n)%nat -> outcome env this urls body w j = call env this body w j.
Proof.
  intros Hj. unfold outcome, call. cbv zeta. now rewrite Nat.mod_small.
Qed.

Lemma call_shift body (w w1 : World Payload) j :
  posts w1 = (posts w + n)%nat ->
  call env this body w1 j = call env this body w (n + j).
Proof.
  intros Hp. unfold call. cbv zeta. rewrite Hp.
  replace ((n + j) mod n)%nat with (j mod n)%nat.
  - f_equal. lia.
  - rewrite (Nat.add_comm n j).
    replace (j + n)%nat with (j + 1 * n)%nat by lia.
    now rewrite Nat.Div0.mod_add.
Qed.

(** A dispatch all of whose calls fail. *)
Lemma dispatch_fails body w :
  (forall j, (j < n)%nat -> fails (call env this body w j)) ->
  exists err,
    sendRequest env this body w
    = (Throw err,
       dispatched w (flat_map (failed_events body tmo) urls) n).
Proof.
  intros Hall.
  destruct (sendRequest_all_fail env this body w some_receiver) as (err & _ & H).
  - intros j Hj. rewrite outcome_call by assumption. now apply Hall.
  - now exists err.
Qed.

(** A dispatch whose call [m] is the first to be answered. *)
Lemma dispatch_answered body w m response :
  (m < n)%nat ->
  (forall j, (j < m)%nat -> fails (call env this body w j)) ->
  call env this body w m = inl response ->
  sendRequest env this body w
  = (Normal (Some response),
     dispatched w
       (flat_map (failed_events body tmo) (firstn m urls)
        ++ answered_events body tmo (nth m urls ""%string))
       (S m)).
Proof.
  intros Hm Hbefore Hat.
  apply sendRequest_first_answer; [assumption| |].
  - intros j Hj. rewrite outcome_call by lia. now apply Hbefore.
  - now rewrite outcome_call.
Qed.

(** From a later attempt [a] on, [r + 1] failing attempts end the budget. *)
Lemma exhaust_from body key :
  store_available env -> key_truthy (Some key) = true ->
  forall r a w,
    1 < a -> a + Z.of_nat r = M ->
    (forall j, (j < n * S r)%nat -> fails (call env this body w j)) ->
    exists w' evs err,
      makeHttpRequest env this body a (Some key) w = (Normal tt, w') /\
      trace w' = trace w ++ evs /\
      ledger w'
      = apply_statement (UpdateAbandoned 1 M (statusCode_of err) key)
                        (next_id w) (ledger w) /\
      statements evs = [UpdateAbandoned 1 M (statusCode_of err) key] /\
      ladder evs = schedule a r ++ [Failed M] /\
      In (ConsoleError MaximumAttemptsReached) evs.
Proof.
  intros Hdb Hkey.
  induction r as [|r IH]; intros a w Ha HaM Hcalls.
  - destruct (dispatch_fails body w) as (err & Hsend).
    { intros j Hj. apply Hcalls. lia. }
    rewrite (makeHttpRequest_abandon env this body a key w err _ Hsend Hdb Hkey)
      by lia.
    assert (a = M) as -> by lia.
    eexists _, (flat_map (failed_events body tmo) urls ++ [_; _; _]), err.
    split; [reflexivity|]. split; [|split; [|split; [|split]]].
    + simpl. now rewrite <- !app_assoc.
    + reflexivity.
    + rewrite statements_app, statements_failed. reflexivity.
    + rewrite ladder_app, ladder_failed. reflexivity.
    + apply in_or_app. right. simpl. tauto.
  - destruct (dispatch_fails body w) as (err & Hsend).
    { intros j Hj. apply Hcalls. lia. }
    rewrite (makeHttpRequest_retry env this body a key w err _ Hsend Hkey)
      by lia.
    match goal with
    | |- context [makeHttpRequest env this body (a + 1) (Some key) ?w0] =>
        destruct (IH (a + 1) w0) as (w' & evs & err' & Hrun & Ht & Hled & Hst
                                     & Hlad & Hin)
    end.
    + lia.
    + lia.
    + intros j Hj. erewrite call_shift by reflexivity. apply Hcalls. lia.
    + rewrite Hrun.
      eexists w', (flat_map (failed_events body tmo) urls ++ [_; _; _] ++ evs),
        err'.
      split; [reflexivity|]. split; [|split; [|split; [|split]]].
      * rewrite Ht. simpl. now rewrite <- !app_assoc.
      * exact Hled.
      * rewrite !statements_app, statements_failed. simpl. exact Hst.
      * rewrite !ladder_app, ladder_failed. simpl. now rewrite Hlad.
      * apply in_or_app. right. apply in_or_app. now right.
Qed.

(** From a later attempt [a] on, call [m] is the first to be answered and
    falls within the budget. *)
Lemma answered_from body key :
  store_available env -> key_truthy (Some key) = true ->
  forall r a w m response,
    1 < a -> a + Z.of_nat r = M + 1 -> (m < n * r)%nat ->
    (forall j, (j < m)%nat -> fails (call env this body w j)) ->
    call env this body w m = inl response ->
    exists w' evs,
      makeHttpRequest env this body a (Some key) w = (Normal tt, w') /\
      trace w' = trace w ++ evs /\
      ledger w' = apply_statement (DeleteAttempt key) (next_id w) (ledger w) /\
      statements evs = [DeleteAttempt key] /\
      In (ConsoleLog (RequestSuccessful (status response))) evs.
Proof.
  intros Hdb Hkey.
  induction r as [|r IH]; intros a w m response Ha HaM Hm Hbefore Hat; [lia|].
  destruct (Nat.lt_ge_cases m n) as [Hnow|Hlater].
  - rewrite (makeHttpRequest_answered_later env this body a key w response _
               (dispatch_answered body w m response Hnow Hbefore Hat)
               Hdb Hkey Ha).
    eexists _, ((flat_map (failed_events body tmo) (firstn m urls)
                 ++ answered_events body tmo (nth m urls ""%string))
                ++ [_; _]).
    split; [reflexivity|].
    split; [|split; [|split]].
    + simpl. now rewrite <- !app_assoc.
    + reflexivity.
    + rewrite !statements_app, statements_failed. reflexivity.
    + apply in_or_app. right. simpl. tauto.
  - destruct (dispatch_fails body w) as (err & Hsend).
    { intros j Hj. apply Hbefore. lia. }
    assert (Hr : (0 < r)%nat) by (destruct r; lia).
    rewrite (makeHttpRequest_retry env this body a key w err _ Hsend Hkey)
      by lia.
    match goal with
    | |- context [makeHttpRequest env this body (a + 1) (Some key) ?w0] =>
        destruct (IH (a + 1) w0 (m - n)%nat response)
          as (w' & evs & Hrun & Ht & Hled & Hst & Hin)
    end.
    + lia.
    + lia.
    + lia.
    + intros j Hj. erewrite call_shift by reflexivity. apply Hbefore. lia.
    + erewrite call_shift by reflexivity.
      now replace (n + (m - n))%nat with m by lia.
    + rewrite Hrun.
      eexists w', (flat_map (failed_events body tmo) urls ++ [_; _; _] ++ evs).
      split; [reflexivity|]. split; [|split; [|split]].
      * rewrite Ht. simpl. now rewrite <- !app_assoc.
      * exact Hled.
      * rewrite !statements_app, statements_failed. simpl. exact Hst.
      * apply in_or_app. right. apply in_or_app. now right.
Qed.

(** Rows of other requests are out of reach of the statements on [key]. *)
Lemma update_fresh key ab a code next (l : list Row) :
  (forall row, In row l -> request_id row <> key) ->
  apply_statement (UpdateAbandoned ab a code key) next l = l.
Proof.
  intros Hfresh. simpl. induction l as [|row l IH]; [reflexivity|].
  simpl. unfold has_request_id at 1.
  replace (String.eqb (request_id row) key) with false
    by (symmetry; apply String.eqb_neq; apply Hfresh; now left).
  f_equal. apply IH. intros row' Hin. apply Hfresh. now right.
Qed.

Lemma filter_fresh key (l : list Row) :
  (forall row, In row l -> request_id row <> key) ->
  filter (has_request_id key) l = [].
Proof.
  intros Hfresh. induction l as [|row l IH]; [reflexivity|].
  simpl. unfold has_request_id at 1.
  replace (String.eqb (request_id row) key) with false
    by (symmetry; apply String.eqb_neq; apply Hfresh; now left).
  apply IH. intros row' Hin. apply Hfresh. now right.
Qed.

Lemma filter_new_row key (l : list Row) row :
  (forall row', In row' l -> request_id row' <> key) ->
  request_id row = key ->
  filter (has_request_id key) (l ++ [row]) = [row].
Proof.
  intros Hfresh Hrow. rewrite filter_app, (filter_fresh key l Hfresh).
  simpl. unfold has_request_id. rewrite Hrow, String.eqb_refl. reflexivity.
Qed.

Lemma update_new_row key ab a code next (l : list Row) row :
  (forall row', In row' l -> request_id row' <> key) ->
  request_id row = key ->
  apply_statement (UpdateAbandoned ab a code key) next (l ++ [row])
  = l ++ [mkRow (id row) (request_id row) a code (payload row) ab
                (hostname row)].
Proof.
  intros Hfresh Hrow.
  pose proof (update_fresh key ab a code next l Hfresh) as Hl.
  simpl in *. rewrite map_app, Hl. simpl. unfold has_request_id.
  rewrite Hrow, String.eqb_refl. reflexivity.
Qed.

Lemma delete_new_row key next (l : list Row) row :
  request_id row = key ->
  apply_statement (DeleteAttempt key) next (l ++ [row])
  = filter (fun r => negb (has_request_id key r)) l.
Proof.
  intros Hrow. simpl. rewrite filter_app. simpl. unfold has_request_id at 2.
  rewrite Hrow, String.eqb_refl. simpl. apply app_nil_r.
Qed.

Lemma startRequest_normal body w w' :
  makeHttpRequest env this body 1 None w = (Normal tt, w') ->
  startRequest env this body w = (Normal tt, w').
Proof. intros H. unfold startRequest, try_catch. now rewrite H. Qed.

(** C1: a delivery all of whose [maxAttempts] attempts fail leaves exactly
    one record of its request identifier, with [abandoned = 1] and
    [attempt_number = maxAttempts]: inserted as abandoned when
    [maxAttempts = 1], and otherwise inserted on the first failure and updated
    on the last one.  The store is available and the identifier is new. *)
Theorem exhausted_delivery_leaves_one_abandoned_record body w :
  1 <= M ->
  store_available env ->
  (forall j, (j < n * Z.to_nat M)%nat -> fails (call env this body w j)) ->
  (forall row, In row (ledger w) -> request_id row <> uuid_in env w) ->
  exists w' evs row first_err last_err,
    startRequest env this body w = (Normal tt, w') /\
    trace w' = trace w ++ evs /\
    statements evs
    = (if M =? 1
       then [InsertAttempt (uuid_in env w) 1 (statusCode_of first_err)
                           (JSON_stringify env body) 1 (this_hostname this)]
       else [InsertAttempt (uuid_in env w) 1 (statusCode_of first_err)
                           (JSON_stringify env body) 0 (this_hostname this);
             UpdateAbandoned 1 M (statusCode_of last_err) (uuid_in env w)]) /\
    ledger w' = ledger w ++ [row] /\
    filter (has_request_id (uuid_in env w)) (ledger w') = [row] /\
    request_id row = uuid_in env w /\
    abandoned row = 1 /\
    attempt_number row = M /\
    ladder evs = schedule 1 (Z.to_nat M - 1) ++ [Failed M] /\
    In (ConsoleError MaximumAttemptsReached) evs.
Proof.
  intros HM Hdb Hcalls Hfresh.
  pose proof n_positive as Hn.
  destruct (dispatch_fails body w) as (err & Hsend).
  { intros j Hj. apply Hcalls.
    destruct (Z.to_nat M) as [|k] eqn:HK; [lia|].
    rewrite Nat.mul_succ_r. lia. }
  set (w1 := dispatched w (flat_map (failed_events body tmo) urls) n) in *.
  change (uuid_in env w) with (uuid_in env w1) in *.
  set (key := uuid_in env w1) in *.
  destruct (Z.le_gt_cases M 1) as [Hle|Hgt].
  - assert (HM1 : M = 1) by lia.
    pose proof (makeHttpRequest_first_abandon env this body w err w1 Hsend Hdb
                  Hle) as Hrun.
    apply startRequest_normal in Hrun. rewrite Hrun. rewrite HM1.
    eexists _,
      (flat_map (failed_events body tmo) urls ++ [_; _; _; _]),
      (mkRow (next_id w) key 1 (statusCode_of err) (JSON_stringify env body) 1
             (this_hostname this)), err, err.
    split; [reflexivity|].
    split; [simpl; now rewrite <- !app_assoc|].
    split; [rewrite statements_app, statements_failed; reflexivity|].
    split; [reflexivity|].
    split.
    { apply filter_new_row; [exact Hfresh | reflexivity]. }
    split; [reflexivity|]. split; [reflexivity|]. split; [reflexivity|].
    split; [rewrite ladder_app, ladder_failed; reflexivity|].
    apply in_or_app. right. simpl. tauto.
  - pose proof (makeHttpRequest_first_retry env this body w err w1 Hsend Hdb
                  Hgt) as Hstep.
    fold key in Hstep.
    match type of Hstep with
    | _ = makeHttpRequest _ _ _ _ _ ?w0 => set (w2 := w0) in *
    end.
    destruct (Z.to_nat M) as [|[|k]] eqn:HK; [lia|lia|].
    destruct (exhaust_from body key Hdb (uuid_truthy env w1) k 2 w2)
      as (w' & evs & err' & Hrun & Ht & Hled & Hst & Hlad & Hin);
      [lia | lia | |].
    { intros j Hj. erewrite call_shift by reflexivity. apply Hcalls.
      rewrite (Nat.mul_succ_r n (S k)). lia. }
    rewrite Hrun in Hstep. apply startRequest_normal in Hstep. rewrite Hstep.
    replace (M =? 1) with false by (symmetry; apply Z.eqb_neq; lia).
    exists w',
      (flat_map (failed_events body tmo) urls
       ++ [ConsoleError (AttemptFailed 1 (err_message err) (statusCode_of err));
           ConsoleLog InsertingRecord;
           Execute (InsertAttempt key 1 (statusCode_of err)
                                  (JSON_stringify env body) 0
                                  (this_hostname this));
           ConsoleLog (RetryingAfter 2000); Sleep 2000]
       ++ evs),
      (mkRow (next_id w) key M (statusCode_of err') (JSON_stringify env body) 1
             (this_hostname this)), err, err'.
    assert (Hledger : ledger w'
                      = ledger w
                        ++ [mkRow (next_id w) key M (statusCode_of err')
                                  (JSON_stringify env body) 1
                                  (this_hostname this)]).
    { rewrite Hled. unfold w2, logged, stored, set_draws, w1, dispatched.
      cbn [ledger next_id].
      change (apply_statement
                (InsertAttempt key 1 (statusCode_of err)
                               (JSON_stringify env body) 0 (this_hostname this))
                (next_id w) (ledger w))
        with (ledger w ++ [mkRow (next_id w) key 1 (statusCode_of err)
                                 (JSON_stringify env body) 0
                                 (this_hostname this)]).
      apply update_new_row; [exact Hfresh | reflexivity]. }
    split; [reflexivity|].
    split.
    { rewrite Ht. unfold w2, logged, stored, set_draws, w1, dispatched.
      cbn [trace]. now rewrite <- !app_assoc. }
    split.
    { rewrite !statements_app, statements_failed. simpl. now rewrite Hst. }
    split; [exact Hledger|].
    split.
    { rewrite Hledger. apply filter_new_row; [exact Hfresh | reflexivity]. }
    split; [reflexivity|]. split; [reflexivity|]. split; [reflexivity|].
    split.
    { rewrite !ladder_app, ladder_failed, Hlad.
      replace (S (S k) - 1)%nat with (S k) by lia. reflexivity. }
    apply in_or_app. right. apply in_or_app. now right.
Qed.

(** C4: a delivery whose first attempt fails and that is answered at a later
    attempt within the budget (transport call [m] is the first to be
    answered) inserts one record on the first failure, with attempt number 1
    and [abandoned = 0], and deletes it after the answer: no record of its
    request identifier remains.  The store is available. *)
Theorem late_success_inserts_then_deletes body w m response :
  store_available env ->
  (n <= m)%nat -> (m < n * Z.to_nat M)%nat ->
  (forall j, (j < m)%nat -> fails (call env this body w j)) ->
  call env this body w m = inl response ->
  exists w' evs first_err,
    startRequest env this body w = (Normal tt, w') /\
    trace w' = trace w ++ evs /\
    statements evs
    = [InsertAttempt (uuid_in env w) 1 (statusCode_of first_err)
                     (JSON_stringify env body) 0 (this_hostname this);
       DeleteAttempt (uuid_in env w)] /\
    ledger w'
    = filter (fun r => negb (has_request_id (uuid_in env w) r)) (ledger w) /\
    (forall row, In row (ledger w') -> request_id row <> uuid_in env w).
Proof.
  intros Hdb Hfirst Hm Hbefore Hat.
  pose proof n_positive as Hn.
  destruct (dispatch_fails body w) as (err & Hsend).
  { intros j Hj. apply Hbefore. lia. }
  set (w1 := dispatched w (flat_map (failed_events body tmo) urls) n) in *.
  change (uuid_in env w) with (uuid_in env w1) in *.
  set (key := uuid_in env w1) in *.
  destruct (Z.to_nat M) as [|[|k]] eqn:HK; [lia|lia|].
  assert (Hgt : 1 < M) by lia.
  pose proof (makeHttpRequest_first_retry env this body w err w1 Hsend Hdb
                Hgt) as Hstep.
  fold key in Hstep.
  match type of Hstep with
  | _ = makeHttpRequest _ _ _ _ _ ?w0 => set (w2 := w0) in *
  end.
  destruct (answered_from body key Hdb (uuid_truthy env w1) (S k) 2 w2
              (m - n)%nat response)
    as (w' & evs & Hrun & Ht & Hled & Hst & Hin); [lia | lia | | | |].
  { rewrite (Nat.mul_succ_r n (S k)) in Hm. lia. }
  { intros j Hj. erewrite call_shift by reflexivity. apply Hbefore. lia. }
  { erewrite call_shift by reflexivity.
    now replace (n + (m - n))%nat with m by lia. }
  rewrite Hrun in Hstep. apply startRequest_normal in Hstep. rewrite Hstep.
  exists w',
    (flat_map (failed_events body tmo) urls
     ++ [ConsoleError (AttemptFailed 1 (err_message err) (statusCode_of err));
         ConsoleLog InsertingRecord;
         Execute (InsertAttempt key 1 (statusCode_of err)
                                (JSON_stringify env body) 0
                                (this_hostname this));
         ConsoleLog (RetryingAfter 2000); Sleep 2000]
     ++ evs), err.
  assert (Hledger : ledger w'
                    = filter (fun r => negb (has_request_id key r)) (ledger w)).
  { rewrite Hled. unfold w2, logged, stored, set_draws, w1, dispatched.
    cbn [ledger next_id].
    change (apply_statement
              (InsertAttempt key 1 (statusCode_of err)
                             (JSON_stringify env body) 0 (this_hostname this))
              (next_id w) (ledger w))
      with (ledger w ++ [mkRow (next_id w) key 1 (statusCode_of err)
                               (JSON_stringify env body) 0
                               (this_hostname this)]).
    apply delete_new_row. reflexivity. }
  split; [reflexivity|].
  split.
  { rewrite Ht. unfold w2, logged, stored, set_draws, w1, dispatched.
    cbn [trace]. now rewrite <- !app_assoc. }
  split.
  { rewrite !statements_app, statements_failed. simpl. now rewrite Hst. }
  split; [exact Hledger|].
  intros row Hin' Heq. rewrite Hledger in Hin'.
  apply filter_In in Hin' as [_ Hneg].
  unfold has_request_id in Hneg. rewrite Heq, String.eqb_refl in Hneg.
  discriminate.
Qed.

End Deliveries.

(** ** The resume path *)

Section Resume.

Context {Payload : Type}.
Variable env : Env Payload.
Variable this : HttpRequester.

Abbreviation M := (maxAttempts (config this)).
Abbreviation urls := (receiversUrl (config this)).
Abbreviation tmo := (timeout (config this)).
Abbreviation n := (List.length (receiversUrl (config this))).

#[local] Arguments Z.pow : simpl never.
#[local] Arguments Z.mul : simpl never.
#[local] Arguments Nat.mul : simpl never.

Lemma retryHttpRequest_blocks rid a body w :
  retryHttpRequest env this rid a body w
  = try_catch (retry_try env this rid body)
      (retry_catch this
         (fun a' =>
            retryHttpRequest_fuel env this (Z.to_nat (M - a)) rid a' body) a) w.
Proof. reflexivity. Qed.

Lemma retry_try_throw rid body w err w1 :
  sendRequest env this body w = (Throw err, w1) ->
  retry_try env this rid body w = (Throw err, w1).
Proof. intros H. unfold retry_try, bind. now rewrite H. Qed.

(** A resumed attempt fails below the budget: sleep, then the next attempt. *)
Lemma retryHttpRequest_retry rid a body w err w1 :
  sendRequest env this body w = (Throw err, w1) ->
  a < M ->
  retryHttpRequest env this rid a body w
  = retryHttpRequest env this rid (a + 1) body
      (logged w1 [ConsoleError (RetryAttemptFailed a (err_message err));
                  ConsoleLog (RetryingAfter (2 ^ a * 1000));
                  Sleep (2 ^ a * 1000)]).
Proof.
  intros Hsend Ha.
  rewrite retryHttpRequest_blocks. unfold try_catch.
  rewrite (retry_try_throw _ _ _ _ _ Hsend).
  rewrite retry_catch_retry by assumption.
  unfold retryHttpRequest, ladder_fuel. f_equal. lia.
Qed.

(** A resumed attempt fails and uses the budget up: a ReferenceError, and no
    statement for the store. *)
Lemma retryHttpRequest_exhausted rid a body w err w1 :
  sendRequest env this body w = (Throw err, w1) ->
  M <= a ->
  retryHttpRequest env this rid a body w
  = (Throw recordId_not_defined,
     logged w1 [ConsoleError (RetryAttemptFailed a (err_message err))]).
Proof.
  intros Hsend Ha.
  rewrite retryHttpRequest_blocks. unfold try_catch.
  rewrite (retry_try_throw _ _ _ _ _ Hsend).
  now rewrite retry_catch_exhausted.
Qed.

(** Resuming when every call fails: the run ends in the ReferenceError, after
    the whole ladder, and the ledger is as it was. *)
Lemma resume_exhaustion_throws rid body :
  urls <> [] ->
  forall r a w,
    r = Z.to_nat (M - a) ->
    (forall j, (j < n * S r)%nat -> fails (call env this body w j)) ->
    exists w' evs,
      retryHttpRequest env this rid a body w
      = (Throw recordId_not_defined, w') /\
      trace w' = trace w ++ evs /\
      ledger w' = ledger w /\
      statements evs = [] /\
      ladder evs = schedule a r ++ [Failed (a + Z.of_nat r)].
Proof.
  intros Hne.
  induction r as [|r IH]; intros a w Hr Hcalls.
  - destruct (dispatch_fails env this Hne body w) as (err & Hsend).
    { intros j Hj. apply Hcalls. lia. }
    rewrite (retryHttpRequest_exhausted rid a body w err _ Hsend) by lia.
    eexists _, (flat_map (failed_events body tmo) urls ++ [_]).
    split; [reflexivity|]. split; [|split; [|split]].
    + simpl. now rewrite <- !app_assoc.
    + reflexivity.
    + rewrite statements_app, statements_failed. reflexivity.
    + rewrite ladder_app, ladder_failed. simpl. now rewrite Z.add_0_r.
  - destruct (dispatch_fails env this Hne body w) as (err & Hsend).
    { intros j Hj. apply Hcalls. lia. }
    rewrite (retryHttpRequest_retry rid a body w err _ Hsend) by lia.
    match goal with
    | |- context [retryHttpRequest env this rid (a + 1) body ?w0] =>
        destruct (IH (a + 1) w0) as (w' & evs & Hrun & Ht & Hled & Hst & Hlad)
    end.
    + lia.
    + intros j Hj. erewrite call_shift by (assumption || reflexivity).
      apply Hcalls. rewrite (Nat.mul_succ_r n (S r)). lia.
    + rewrite Hrun.
      eexists w', (flat_map (failed_events body tmo) urls ++ [_; _; _] ++ evs).
      split; [reflexivity|]. split; [|split; [|split]].
      * rewrite Ht. simpl. now rewrite <- !app_assoc.
      * exact Hled.
      * rewrite !statements_app, statements_failed. simpl. exact Hst.
      * replace (a + Z.of_nat (S r)) with (a + 1 + Z.of_nat r) by lia.
        rewrite !ladder_app, ladder_failed, Hlad. reflexivity.
Qed.





End Resume.

(** ** The recovery scan *)

Section Recovery.

Context {Payload : Type}.
Variable env : Env Payload.
Variable this : HttpRequester.

Abbreviation urls := (receiversUrl (config this)).
Abbreviation tmo := (timeout (config this)).

Hypothesis store_up : store_available env.
Hypothesis receivers_answer :
  forall i url body t, exists response, axios_post env i url body t = inl response.

Variable first_receiver : string.
Variable other_receivers : list string.
Hypothesis receivers : urls = first_receiver :: other_receivers.





End Recovery.

(** ** What is recorded as the error of a failed attempt *)

Section Classification.

Context {Payload : Type}.
Variable env : Env Payload.
Variable this : HttpRequester.

Abbreviation M := (maxAttempts (config this)).

#[local] Arguments Z.pow : simpl never.
#[local] Arguments Z.mul : simpl never.

Lemma statusCode_of_cases err :
  (forall response, err_response err = Some response ->
                    statusCode_of err = StatusNumber (status response)) /\
  (err_response err = None ->
   forall code, err_code err = Some code -> code <> ""%string ->
                statusCode_of err = StatusString code) /\
  (err_response err = None ->
   err_code err = None \/ err_code err = Some ""%string ->
   statusCode_of err = StatusNull).
Proof.
  unfold statusCode_of. split; [|split].
  - intros response ->. reflexivity.
  - intros -> code -> Hcode.
    apply String.eqb_neq in Hcode. now rewrite Hcode.
  - intros -> [->| ->]; reflexivity.
Qed.

(** C10: a falsy [timeout] (zero included) gives the default of 5000 ms, a
    falsy [maxAttempts] (zero included) gives the default of 5, so that no
    instance has a zero time-out or a zero budget. *)
Theorem falsy_options_take_defaults db rc :
  constructor env db rc = inl this ->
  (truthy (rc_timeout rc) = false -> timeout (config this) = 5000) /\
  (truthy (rc_maxAttempts rc) = false -> maxAttempts (config this) = 5) /\
  (rc_timeout rc = JsNumber 0 -> timeout (config this) = 5000) /\
  (rc_maxAttempts rc = JsNumber 0 -> maxAttempts (config this) = 5) /\
  timeout (config this) <> 0 /\
  maxAttempts (config this) <> 0.
Proof.
  intros Hnew. destruct (constructor_config env db rc this Hnew) as [Ht Hm].
  rewrite Ht, Hm.
  split; [apply js_or_falsy|]. split; [apply js_or_falsy|].
  split; [now intros ->|]. split; [now intros ->|].
  split; apply js_or_nonzero; lia.
Qed.

End Classification.

(** ** The scenarios *)

Open Scope string_scope.


(** With two pending records and the receivers down, the ReferenceError that
    ends the ladder of the first record ends the scan: the second record is
    not resubmitted. *)
Lemma scan_stops_at_the_reference_error :
  let w := world_with [stored_row 1 "r1" 1 "[1]" 0;
                       stored_row 2 "r2" 1 "[2]" 0] in
  let r := checkPendingRequests receivers_down (requester 2) w in
  fst r = Normal tt /\
  map (fun c => snd (fst c)) (transport_calls (trace (snd r)))
  = ["[1]"; "[1]"; "[1]"; "[1]"] /\
  In (ConsoleError (PendingError "recordId is not defined")) (trace (snd r)) /\
  ledger (snd r) = ledger w.
Proof.
  vm_compute. split; [reflexivity|]. split; [reflexivity|].
  split; [|reflexivity]. repeat (first [left; reflexivity | right]).
Qed.

(** C6, the code at the last rung of the budget with the receivers down: the
    resume path throws a ReferenceError and leaves the record pending, where
    the deliver path returns and marks the record abandoned. *)
Theorem resume_exhaustion_on_example :
  let w := world_with [stored_row 1 "r1" 1 "[1]" 0] in
  let resumed := retryHttpRequest receivers_down (requester 2) "r1" 2 "[1]" w in
  let delivered :=
    makeHttpRequest receivers_down (requester 2) "[1]" 2 (Some "r1") w in
  fst resumed = Throw recordId_not_defined /\
  ledger (snd resumed) = [stored_row 1 "r1" 1 "[1]" 0] /\
  statements (trace (snd resumed)) = [] /\
  fst delivered = Normal tt /\
  ledger (snd delivered) = [stored_row 1 "r1" 2 "[1]" 1] /\
  statements (trace (snd delivered))
  = [UpdateAbandoned 1 2 (StatusNumber 503) "r1"].
Proof. vm_compute. repeat split. Qed.


(** C9 as stated fails: for an error without response and without code the
    record holds null, not the string unknown. *)
Lemma unclassified_failure_is_recorded_as_null :
  let w' := snd (startRequest (receivers_failing bare_error) (requester 3)
                              "[1]" (world_with [])) in
  err_response bare_error = None /\
  err_code bare_error = None /\
  map error (ledger w') = [StatusNull] /\
  map error (ledger w') <> [StatusString "unknown"].
Proof. vm_compute. repeat split; discriminate. Qed.

(** ** The theorems at work on the scenarios *)

Lemma receivers_down_fail body w j :
  fails (call receivers_down (requester 3) body w j).
Proof. exists error503. reflexivity. Defined.

Lemma exhausted_delivery_witness :
  exists w' row,
    startRequest receivers_down (requester 3) "[1]" (world_with [])
    = (Normal tt, w') /\
    ledger w' = [row] /\ abandoned row = 1 /\ attempt_number row = 3.
Proof.
  destruct (exhausted_delivery_leaves_one_abandoned_record
              receivers_down (requester 3)
              ltac:(discriminate) "[1]" (world_with []))
    as (w' & evs & row & e1 & e2 & Hrun & _ & _ & Hled & _ & _ & Hab & Hatt & _).
  - simpl. lia.
  - intros k. reflexivity.
  - intros j _. apply receivers_down_fail.
  - intros row [].
  - exists w', row. split; [exact Hrun|]. split; [exact Hled|].
    split; [exact Hab | exact Hatt].
Defined.

Lemma sendRequest_failover_witness :
  exists r evs k,
    sendRequest receivers_down (requester 3) "[1]" (world_with [])
    = (r, dispatched (world_with []) evs k) /\
    (1 <= k <= 2)%nat.
Proof.
  destruct (sendRequest_failover receivers_down (requester 3) "[1]"
              (world_with []) ltac:(discriminate))
    as (r & evs & k & Hrun & Hk & _).
  exists r, evs, k. split; [exact Hrun | exact Hk].
Defined.

Lemma late_success_witness :
  exists w',
    startRequest (receivers_up_from 2) (requester 3) "[1]" (world_with [])
    = (Normal tt, w') /\
    ledger w' = [].
Proof.
  destruct (late_success_inserts_then_deletes
              (receivers_up_from 2) (requester 3)
              ltac:(discriminate) "[1]" (world_with []) 2%nat (mkResponse 200))
    as (w' & evs & e1 & Hrun & _ & _ & Hled & _).
  - intros k. reflexivity.
  - simpl. lia.
  - simpl. lia.
  - intros [|[|j]] Hj; [exists error503; reflexivity
                       | exists error503; reflexivity | lia].
  - reflexivity.
  - exists w'. split; [exact Hrun | exact Hled].
Defined.


Lemma zero_options_witness :
  exists this,
    constructor receivers_down DbPool zero_options = inl this /\
    timeout (config this) = 5000 /\ maxAttempts (config this) = 5.
Proof.
  eexists. split; [reflexivity|].
  destruct (falsy_options_take_defaults receivers_down _ DbPool zero_options
              eq_refl) as (_ & _ & Ht & Hm & _).
  split; [apply Ht | apply Hm]; reflexivity.
Defined.


(** * Further properties of the class *)

Close Scope string_scope.

(** ** The constructor: what it accepts and what it configures *)


Lemma seen_spec x (seen : list string) :
  existsb (String.eqb x) seen = true <-> In x seen.
Proof.
  rewrite existsb_exists. split.
  - intros (y & Hin & E). apply String.eqb_eq in E. now subst.
  - intros Hin. exists x. split; [assumption | apply String.eqb_refl].
Qed.

Lemma set_spread_In x : forall l seen,
  In x (set_spread seen l) <-> In x l /\ ~ In x seen.
Proof.
  induction l as [|y l IH]; intros seen; simpl.
  - tauto.
  - destruct (existsb (String.eqb y) seen) eqn:E.
    + apply seen_spec in E. rewrite IH. split.
      * intros [H1 H2]. tauto.
      * intros [[->|H1] H2]; tauto.
    + assert (Hy : ~ In y seen).
      { intros H. apply seen_spec in H. congruence. }
      simpl. rewrite IH. simpl. split.
      * intros [->|[H1 H2]]; tauto.
      * intros [[->|H1] H2]; [now left|].
        destruct (string_dec y x) as [->|Hne]; [now left|].
        right. split; [assumption|]. intros [H|H]; tauto.
Qed.


Lemma set_spread_distinct : forall l seen,
  NoDup l -> (forall x, In x l -> ~ In x seen) -> set_spread seen l = l.
Proof.
  induction l as [|y l IH]; intros seen Hnd Hseen; simpl; [reflexivity|].
  inversion Hnd as [|? ? Hy Hl]; subst.
  destruct (existsb (String.eqb y) seen) eqn:E.
  - apply seen_spec in E. exfalso. apply (Hseen y); [now left | assumption].
  - f_equal. apply IH; [assumption|].
    intros x Hx [->|Hin]; [contradiction|].
    apply (Hseen x); [now right | assumption].
Qed.

Lemma elem_strings_all (l : list JsElem) :
  existsb (fun e => negb (elem_is_string e)) l = false ->
  map ElemString (elem_strings l) = l.
Proof.
  induction l as [|[s|] l IH]; simpl; intros H; try discriminate.
  - reflexivity.
  - now rewrite IH.
Qed.

Lemma elems_are_urls (l : list JsElem) :
  existsb (fun e => negb (elem_is_url e)) l = false ->
  Forall (fun s => is_url s = true) (elem_strings l).
Proof.
  induction l as [|[s|] l IH]; simpl; intros H.
  - constructor.
  - apply orb_false_iff in H as [Hs Hl]. apply negb_false_iff in Hs.
    constructor; [assumption | now apply IH].
  - discriminate.
Qed.

(** What [validate_receivers] lets through. *)
Lemma validate_receivers_ok r urls :
  validate_receivers r = inl urls ->
  urls <> [] /\ Forall (fun s => is_url s = true) urls /\
  ((exists s, r = ReceiversString s /\ urls = [s]) \/
   (exists l, r = ReceiversArray l /\ map ElemString urls = l)).
Proof.
  destruct r as [|s|l|]; simpl; try discriminate.
  - destruct (String.eqb s ""); [discriminate|].
    destruct (is_url s) eqn:Hs; [|discriminate].
    intros H. injection H as <-. split; [discriminate|].
    split; [now constructor|]. left. now exists s.
  - destruct (List.length l =? 0)%nat eqn:Hlen; [discriminate|].
    destruct (existsb (fun e => negb (elem_is_string e)) l) eqn:H1;
      [discriminate|].
    destruct (existsb (fun e => negb (elem_is_url e)) l) eqn:H2;
      [discriminate|].
    intros H. injection H as <-.
    pose proof (elem_strings_all _ H1) as Hall.
    split.
    + intros E. rewrite E in Hall. simpl in Hall. subst l. discriminate.
    + split; [now apply elems_are_urls|].
      right. exists l. split; [reflexivity | exact Hall].
Qed.




(** X3: receivers given without duplicates are configured as given, in the
    same order. *)
Theorem constructor_keeps_distinct_receivers {Payload} (env : Env Payload) db
        rc this given :
  constructor env db rc = inl this ->
  validate_receivers (rc_receiversUrl rc) = inl given ->
  NoDup given ->
  receiversUrl (config this) = given.
Proof.
  unfold constructor. intros H Hv Hnd. rewrite Hv in H.
  destruct db; try discriminate; injection H as <-;
    cbn [config receiversUrl]; apply set_spread_distinct; auto.
Qed.

(** ** The request identifiers *)

Section Identifiers.

Context {Payload : Type}.
Variable env : Env Payload.

#[local] Arguments replace_xy : simpl never.

Lemma replace_xy_step c rest d :
  replace_xy env (String c rest) d
  = if (Ascii.eqb c "x" || Ascii.eqb c "y")%char
    then (String (hex_digit (if Ascii.eqb c "x"%char then random16 env d
                             else Z.lor (Z.land (random16 env d) 3) 8))
                 (fst (replace_xy env rest (S d))),
          snd (replace_xy env rest (S d)))
    else (String c (fst (replace_xy env rest d)),
          snd (replace_xy env rest d)).
Proof.
  unfold replace_xy; fold (replace_xy env).
  destruct (Ascii.eqb c "x" || Ascii.eqb c "y")%char.
  - destruct (replace_xy env rest (S d)). reflexivity.
  - destruct (replace_xy env rest d). reflexivity.
Qed.

Lemma replace_xy_length : forall t d,
  String.length (fst (replace_xy env t d)) = String.length t.
Proof.
  induction t as [|c rest IH]; intros d; [reflexivity|].
  rewrite replace_xy_step.
  destruct (Ascii.eqb c "x" || Ascii.eqb c "y")%char; simpl; now rewrite IH.
Qed.

Lemma replace_xy_draws : forall t d,
  snd (replace_xy env t d) = (d + count_xy t)%nat.
Proof.
  induction t as [|c rest IH]; intros d; [simpl; lia|].
  rewrite replace_xy_step. simpl count_xy.
  destruct (Ascii.eqb c "x" || Ascii.eqb c "y")%char; simpl; rewrite IH; lia.
Qed.

(** A character of the template other than x and y stays where it is. *)
Lemma replace_xy_keeps : forall t d i c,
  String.get i t = Some c ->
  (Ascii.eqb c "x" || Ascii.eqb c "y")%char = false ->
  String.get i (fst (replace_xy env t d)) = Some c.
Proof.
  induction t as [|c0 rest IH]; intros d i c Hget Hc; [discriminate|].
  rewrite replace_xy_step.
  destruct i as [|i]; simpl in Hget.
  - injection Hget as ->. rewrite Hc. reflexivity.
  - destruct (Ascii.eqb c0 "x" || Ascii.eqb c0 "y")%char; simpl;
      now apply IH.
Qed.

Lemma hex_digit_is_hex v : 0 <= v < 16 -> is_hex_char (hex_digit v) = true.
Proof.
  intros Hv.
  assert (H : exists k, (k < 16)%nat /\ v = Z.of_nat k).
  { exists (Z.to_nat v). lia. }
  destruct H as (k & Hk & ->). unfold hex_digit. rewrite Nat2Z.id.
  do 16 (destruct k as [|k]; [reflexivity|]). lia.
Qed.

Lemma variant_digit r :
  In (hex_digit (Z.lor (Z.land r 3) 8))
     (list_ascii_of_string "89ab").
Proof.
  assert (E : Z.land r 3 = r mod 4).
  { change 3 with (Z.ones 2). rewrite Z.land_ones by lia. reflexivity. }
  rewrite E. pose proof (Z.mod_pos_bound r 4 ltac:(lia)) as Hb.
  assert (H : r mod 4 = 0 \/ r mod 4 = 1 \/ r mod 4 = 2 \/ r mod 4 = 3) by lia.
  destruct H as [->|[->|[->| ->]]]; simpl; tauto.
Qed.

(** The character written for a y is one of 8, 9, a, b. *)
Lemma replace_xy_variant : forall t d i,
  String.get i t = Some "y"%char ->
  exists c, String.get i (fst (replace_xy env t d)) = Some c /\
            In c (list_ascii_of_string "89ab").
Proof.
  induction t as [|c0 rest IH]; intros d i Hget; [discriminate|].
  rewrite replace_xy_step.
  destruct i as [|i]; simpl in Hget.
  - injection Hget as ->. simpl.
    eexists. split; [reflexivity | apply variant_digit].
  - destruct (Ascii.eqb c0 "x" || Ascii.eqb c0 "y")%char; simpl;
      now apply IH.
Qed.

(** With draws in 0..15, every character written is a hexadecimal digit or a
    character of the template other than x and y. *)
Lemma replace_xy_chars :
  (forall k, 0 <= random16 env k < 16) ->
  forall t d i c,
    String.get i (fst (replace_xy env t d)) = Some c ->
    is_hex_char c = true \/
    (String.get i t = Some c /\
     (Ascii.eqb c "x" || Ascii.eqb c "y")%char = false).
Proof.
  intros Hrange.
  induction t as [|c0 rest IH]; intros d i c Hget; [discriminate|].
  rewrite replace_xy_step in Hget.
  destruct (Ascii.eqb c0 "x" || Ascii.eqb c0 "y")%char eqn:Hxy;
    destruct i as [|i]; simpl in Hget |- *.
  - injection Hget as <-. left.
    destruct (Ascii.eqb c0 "x"); [now apply hex_digit_is_hex|].
    pose proof (variant_digit (random16 env d)) as Hv. simpl in Hv.
    destruct Hv as [<-|[<-|[<-|[<-|[]]]]]; reflexivity.
  - now apply IH in Hget.
  - injection Hget as <-. right. now split.
  - now apply IH in Hget.
Qed.

(** X4: [generateUUID] returns a text of 36 characters with hyphens at the
    positions 8, 13, 18 and 23, the version digit 4 at position 14 and one of
    8, 9, a, b at position 19; it draws 31 random numbers and changes nothing
    else; with draws in 0..15 every other character is a hexadecimal digit. *)
Theorem generateUUID_shape (w : World Payload) :
  let uuid := uuid_in env w in
  generateUUID env w = (Normal uuid, set_draws (draws w + 31) w) /\
  String.length uuid = 36%nat /\
  String.get 8 uuid = Some "-"%char /\
  String.get 13 uuid = Some "-"%char /\
  String.get 18 uuid = Some "-"%char /\
  String.get 23 uuid = Some "-"%char /\
  String.get 14 uuid = Some "4"%char /\
  (exists c, String.get 19 uuid = Some c /\
             In c (list_ascii_of_string "89ab")) /\
  ((forall k, 0 <= random16 env k < 16) ->
   forall i c, String.get i uuid = Some c ->
               c = "-"%char \/ is_hex_char c = true).
Proof.
  cbv zeta. unfold uuid_in.
  split.
  { rewrite generateUUID_eq. unfold uuid_in.
    rewrite replace_xy_draws. reflexivity. }
  split; [now rewrite replace_xy_length|].
  do 5 (split; [now apply replace_xy_keeps|]).
  split; [now apply replace_xy_variant|].
  intros Hrange i c Hget.
  destruct (replace_xy_chars Hrange _ _ _ _ Hget) as [Hhex|[Ht Hxy]];
    [now right|].
  revert Ht. unfold uuid_template.
  do 36 (destruct i as [|i];
         [simpl; intros E; injection E as E; subst c;
          first [discriminate Hxy | now left | now right]|]).
  discriminate.
Qed.

End Identifiers.

(** ** The ledger operations on their own *)

Section LedgerOperations.

Context {Payload : Type}.
Variable env : Env Payload.
Variable this : HttpRequester.

(** X5: when the store fails on a statement, each of the three ledger
    operations returns normally all the same: the error is caught and
    reported on the console, and no row changes. *)
Theorem ledger_operations_swallow_store_errors (w : World Payload) e :
  db_fault env (execs w) = Some e ->
  (forall rid attempt code body aband,
      let stmt := InsertAttempt rid attempt code (JSON_stringify env body)
                                aband (this_hostname this) in
      let r := insertAttemptRecord env this rid attempt code body aband w in
      fst r = Normal tt /\ ledger (snd r) = ledger w /\
      trace (snd r)
      = trace w ++ [Execute stmt; ConsoleError (InsertError (err_message e))])
  /\
  (forall key attempt code,
      let r := abandonAttemptRecord env key attempt code w in
      fst r = Normal tt /\ ledger (snd r) = ledger w /\
      trace (snd r)
      = trace w ++ [Execute (UpdateAbandoned 1 attempt code key);
                    ConsoleError (UpdateError (err_message e))])
  /\
  (forall key,
      key_truthy (Some key) = true ->
      let r := deleteAttemptRecord env (Some key) w in
      fst r = Normal tt /\ ledger (snd r) = ledger w /\
      trace (snd r)
      = trace w ++ [Execute (DeleteAttempt key);
                    ConsoleError (DeleteError (err_message e))]).
Proof.
  intros Hfault. split; [|split].
  - intros rid attempt code body aband. cbv zeta.
    unfold insertAttemptRecord. run. rewrite Hfault. simpl.
    repeat split. now rewrite <- app_assoc.
  - intros key attempt code. cbv zeta.
    unfold abandonAttemptRecord. run. rewrite Hfault. simpl.
    repeat split. now rewrite <- app_assoc.
  - intros key Hkey. cbv zeta.
    unfold deleteAttemptRecord. rewrite Hkey. run. rewrite Hfault. simpl.
    repeat split. now rewrite <- app_assoc.
Qed.

Lemma deleteAttemptRecord_at key (w : World Payload) :
  db_fault env (execs w) = None -> key_truthy (Some key) = true ->
  deleteAttemptRecord env (Some key) w
  = (Normal tt, stored w (DeleteAttempt key)).
Proof.
  intros Hdb Hkey. unfold deleteAttemptRecord. rewrite Hkey. run.
  now rewrite Hdb.
Qed.

Lemma abandonAttemptRecord_at key a code (w : World Payload) :
  db_fault env (execs w) = None ->
  abandonAttemptRecord env key a code w
  = (Normal tt, stored w (UpdateAbandoned 1 a code key)).
Proof.
  intros Hdb. unfold abandonAttemptRecord. run. now rewrite Hdb.
Qed.

Lemma insertAttemptRecord_at rid a code body ab (w : World Payload) :
  db_fault env (execs w) = None ->
  insertAttemptRecord env this rid a code body ab w
  = (Normal tt,
     stored w (InsertAttempt rid a code (JSON_stringify env body) ab
                             (this_hostname this))).
Proof.
  intros Hdb. unfold insertAttemptRecord. run. now rewrite Hdb.
Qed.

(** X6: [deleteAttemptRecord] with a truthy identifier, the store answering,
    removes every row of that identifier and keeps the other rows in their
    order; with [null] or the empty string it does nothing at all, not even a
    statement. *)
Theorem deleteAttemptRecord_effect (w : World Payload) :
  (forall key,
      db_fault env (execs w) = None -> key_truthy (Some key) = true ->
      let w' := snd (deleteAttemptRecord env (Some key) w) in
      (forall row, In row (ledger w') <->
                   In row (ledger w) /\ request_id row <> key) /\
      ledger w' = filter (fun r => negb (has_request_id key r)) (ledger w)) /\
  deleteAttemptRecord env None w = (Normal tt, w) /\
  deleteAttemptRecord env (Some ""%string) w = (Normal tt, w).
Proof.
  split; [|split; reflexivity].
  intros key Hdb Hkey. cbv zeta.
  rewrite (deleteAttemptRecord_at key w Hdb Hkey). simpl.
  split; [|reflexivity].
  intros row. rewrite filter_In. unfold has_request_id.
  rewrite negb_true_iff, String.eqb_neq. tauto.
Qed.

(** X7: [abandonAttemptRecord], the store answering, sets [abandoned = 1],
    the attempt number and the error on every row of the identifier and
    changes nothing else: the rows keep their order, identifiers, payloads and
    hosts.  When no row has the identifier, the ledger stays as it is and
    nothing is reported. *)
Theorem abandonAttemptRecord_effect key attempt code (w : World Payload) :
  db_fault env (execs w) = None ->
  let r := abandonAttemptRecord env key attempt code w in
  fst r = Normal tt /\
  trace (snd r) = trace w ++ [Execute (UpdateAbandoned 1 attempt code key)] /\
  map id (ledger (snd r)) = map id (ledger w) /\
  map request_id (ledger (snd r)) = map request_id (ledger w) /\
  map payload (ledger (snd r)) = map payload (ledger w) /\
  map hostname (ledger (snd r)) = map hostname (ledger w) /\
  (forall row, In row (ledger (snd r)) -> request_id row = key ->
               abandoned row = 1 /\ attempt_number row = attempt /\
               error row = code) /\
  (forall row, request_id row <> key ->
               (In row (ledger (snd r)) <-> In row (ledger w))) /\
  ((forall row, In row (ledger w) -> request_id row <> key) ->
   ledger (snd r) = ledger w).
Proof.
  intros Hdb. cbv zeta.
  rewrite (abandonAttemptRecord_at key attempt code w Hdb).
  cbn [fst snd stored ledger trace].
  split; [reflexivity|]. split; [reflexivity|].
  set (upd := fun r : Row =>
                if has_request_id key r
                then mkRow (id r) (request_id r) attempt code (payload r) 1
                           (hostname r)
                else r).
  change (apply_statement (UpdateAbandoned 1 attempt code key) (next_id w)
                          (ledger w)) with (map upd (ledger w)).
  assert (Hupd : forall r, id (upd r) = id r /\
                           request_id (upd r) = request_id r /\
                           payload (upd r) = payload r /\
                           hostname (upd r) = hostname r).
  { intros r. unfold upd. destruct (has_request_id key r); repeat split. }
  split; [rewrite map_map; apply map_ext; intros r; apply Hupd|].
  split; [rewrite map_map; apply map_ext; intros r; apply Hupd|].
  split; [rewrite map_map; apply map_ext; intros r; apply Hupd|].
  split; [rewrite map_map; apply map_ext; intros r; apply Hupd|].
  split; [|split].
  - intros row Hin Hkey. apply in_map_iff in Hin as (r & <- & _).
    unfold upd in *. destruct (has_request_id key r) eqn:E.
    + repeat split.
    + unfold has_request_id in E. apply String.eqb_neq in E.
      simpl in Hkey. contradiction.
  - intros row Hkey. rewrite in_map_iff. split.
    + intros (r & <- & Hin).
      assert (E : has_request_id key r = false).
      { unfold has_request_id. apply String.eqb_neq.
        destruct (Hupd r) as (_ & Hr & _). rewrite <- Hr. exact Hkey. }
      unfold upd. rewrite E. exact Hin.
    + intros Hin. exists row. split; [|assumption]. unfold upd.
      replace (has_request_id key row) with false; [reflexivity|].
      symmetry. unfold has_request_id. now apply String.eqb_neq.
  - intros Hfresh. rewrite <- (map_id (ledger w)) at 2.
    apply map_ext_in. intros r Hin. unfold upd.
    replace (has_request_id key r) with false; [reflexivity|].
    symmetry. unfold has_request_id. apply String.eqb_neq. now apply Hfresh.
Qed.

End LedgerOperations.

(** ** What a run may touch *)

Section Confined.

Context {Payload : Type}.
Variable env : Env Payload.
Variable this : HttpRequester.
Variable body : Payload.

Abbreviation M := (maxAttempts (config this)).
Abbreviation urls := (receiversUrl (config this)).
Abbreviation tmo := (timeout (config this)).
Abbreviation n := (List.length (receiversUrl (config this))).

#[local] Arguments replace_xy : simpl never.
#[local] Arguments Z.pow : simpl never.
#[local] Arguments Z.mul : simpl never.
#[local] Arguments Nat.mul : simpl never.

Lemma confined_refl key bound (w : World Payload) :
  confined env this body key bound w w [].
Proof.
  unfold confined. rewrite app_nil_r. simpl.
  repeat split; try constructor; try lia; auto.
Qed.

Lemma confined_trans key b1 b2 (w w1 w2 : World Payload) evs1 evs2 :
  confined env this body key b1 w w1 evs1 ->
  confined env this body key b2 w1 w2 evs2 ->
  confined env this body key (b1 + b2) w w2 (evs1 ++ evs2).
Proof.
  intros (Ht1 & Hs1 & Ho1 & Hc1 & Hb1 & Hp1 & He1 & Hd1)
         (Ht2 & Hs2 & Ho2 & Hc2 & Hb2 & Hp2 & He2 & Hd2).
  unfold confined.
  rewrite statements_app, transport_calls_app, length_app.
  split; [rewrite Ht2, Ht1; now rewrite <- app_assoc|].
  split; [now apply Forall_app|].
  split; [intros other Ho; rewrite Ho2, Ho1; auto|].
  split; [now apply Forall_app|].
  split; [lia|]. split; [lia|]. split; [lia|].
  intros Hdown.
  destruct (Hd1 Hdown) as [Hl1 Hn1].
  destruct Hd2 as [Hl2 Hn2].
  { intros i Hi. apply Hdown. lia. }
  split; congruence.
Qed.

Lemma confined_weaken key b b' (w w' : World Payload) evs :
  (b <= b')%nat ->
  confined env this body key b w w' evs ->
  confined env this body key b' w w' evs.
Proof.
  intros Hb (Ht & Hs & Ho & Hc & Hl & Hp & He & Hd).
  repeat split; try assumption; try lia; now apply Hd.
Qed.

Lemma confined_then key b (w w1 w2 : World Payload) evs1 evs2 :
  confined env this body key b w w1 evs1 ->
  confined env this body key 0 w1 w2 evs2 ->
  confined env this body key b w w2 (evs1 ++ evs2).
Proof.
  intros H1 H2. apply (confined_weaken key (b + 0) b); [lia|].
  now apply (confined_trans key b 0 w w1 w2).
Qed.

(** Console output, timers and random draws. *)
Lemma confined_quiet key (w : World Payload) evs d :
  transport_calls evs = [] -> statements evs = [] ->
  confined env this body key 0 w
    (mkWorld (ledger w) (next_id w) (trace w ++ evs) (posts w) (execs w) d)
    evs.
Proof.
  intros Hc Hs. unfold confined. rewrite Hc, Hs. simpl.
  repeat split; try constructor; try lia; auto.
Qed.

Lemma confined_set_draws key (w : World Payload) d :
  confined env this body key 0 w (set_draws d w) [].
Proof.
  unfold confined, set_draws. simpl. rewrite app_nil_r.
  repeat split; try constructor; try lia; auto.
Qed.

Lemma apply_statement_other stmt key other next (l : list Row) :
  statement_key stmt = Some key -> other <> key ->
  filter (has_request_id other) (apply_statement stmt next l)
  = filter (has_request_id other) l.
Proof.
  intros Hkey Hother.
  assert (Hno : forall r, has_request_id key r = true ->
                          has_request_id other r = false).
  { intros r E. unfold has_request_id in *. apply String.eqb_eq in E.
    apply String.eqb_neq. congruence. }
  destruct stmt as [|rid a e p ab h|ab a e rid|rid]; simpl in Hkey;
    try discriminate; injection Hkey as ->.
  - cbn [apply_statement]. rewrite filter_app.
    rewrite <- (app_nil_r (filter (has_request_id other) l)) at 2.
    f_equal. cbn [filter].
    rewrite (Hno (mkRow next key a e p ab h)); [reflexivity|].
    apply String.eqb_refl.
  - cbn [apply_statement].
    induction l as [|r l IH]; [reflexivity|]. cbn [map filter].
    destruct (has_request_id key r) eqn:E.
    + rewrite (Hno r E).
      rewrite (Hno (mkRow (id r) (request_id r) a e (payload r) ab
                          (hostname r)) E).
      exact IH.
    + rewrite IH. reflexivity.
  - cbn [apply_statement].
    induction l as [|r l IH]; [reflexivity|]. cbn [filter].
    destruct (has_request_id key r) eqn:E; cbn [negb].
    + rewrite (Hno r E). exact IH.
    + cbn [filter]. rewrite IH. reflexivity.
Qed.

(** A statement about [key], whether the store answers or fails. *)
Lemma confined_execute key stmt (w : World Payload) :
  statement_key stmt = Some key ->
  exists r w',
    execute env stmt w = (r, w') /\ r <> OutOfFuel /\
    draws w' = draws w /\
    confined env this body key 0 w w' [Execute stmt].
Proof.
  intros Hkey. unfold execute.
  destruct (db_fault env (execs w)) as [e|] eqn:Hdb.
  - eexists _, _. split; [reflexivity|]. split; [discriminate|].
    split; [reflexivity|].
    unfold confined. simpl.
    split; [reflexivity|]. split; [now repeat constructor|].
    split; [reflexivity|].
    split; [constructor|]. split; [lia|]. split; [lia|]. split; [lia|].
    intros _. split; reflexivity.
  - eexists _, _. split; [reflexivity|]. split; [discriminate|].
    split; [reflexivity|].
    unfold confined. simpl.
    split; [reflexivity|]. split; [now repeat constructor|].
    split; [intros other Ho;
            apply (apply_statement_other stmt key other _ _ Hkey Ho)|].
    split; [constructor|]. split; [lia|]. split; [lia|]. split; [lia|].
    intros Hdown. exfalso. apply (Hdown (execs w)); [lia | exact Hdb].
Qed.

(** A ledger operation: [try { execute(stmt) } catch { console.error }]. *)
Lemma confined_guarded key stmt report (w : World Payload) :
  statement_key stmt = Some key ->
  (forall m, ladder_of (@ConsoleError Payload (report m)) = []) ->
  exists w' evs,
    try_catch (_ <- execute env stmt ;; ret tt)%async
              (fun e => console_error (report (err_message e))) w
    = (Normal tt, w') /\
    draws w' = draws w /\ ladder evs = [] /\ statements evs = [stmt] /\
    confined env this body key 0 w w' evs.
Proof.
  intros Hkey Hreport.
  destruct (confined_execute key stmt w Hkey)
    as (r & w1 & Hrun & Hfuel & Hdraws & Hconf).
  unfold try_catch, bind. rewrite Hrun.
  destruct r as [rows|e|]; [| |congruence].
  - exists w1, [Execute stmt]. unfold ret.
    split; [reflexivity|]. split; [exact Hdraws|].
    split; [reflexivity|]. split; [reflexivity | exact Hconf].
  - unfold console_error, emit.
    eexists _, ([Execute stmt] ++ [ConsoleError (report (err_message e))]).
    split; [reflexivity|]. split; [exact Hdraws|].
    split.
    { change (ladder ([Execute stmt]
                      ++ [ConsoleError (report (err_message e))]))
        with (ladder_of (@ConsoleError Payload (report (err_message e)))
              ++ []).
      now rewrite Hreport. }
    split; [reflexivity|].
    apply (confined_then key 0 w w1 _ _ _ Hconf).
    now apply confined_quiet.
Qed.

Lemma insertAttemptRecord_confined key a code ab (w : World Payload) :
  exists w' evs,
    insertAttemptRecord env this key a code body ab w = (Normal tt, w') /\
    draws w' = draws w /\ ladder evs = [] /\
    statements evs = [InsertAttempt key a code (JSON_stringify env body) ab (this_hostname this)] /\
    confined env this body key 0 w w' evs.
Proof. unfold insertAttemptRecord. now apply confined_guarded. Qed.

Lemma abandonAttemptRecord_confined key a code (w : World Payload) :
  exists w' evs,
    abandonAttemptRecord env key a code w = (Normal tt, w') /\
    draws w' = draws w /\ ladder evs = [] /\
    statements evs = [UpdateAbandoned 1 a code key] /\
    confined env this body key 0 w w' evs.
Proof. unfold abandonAttemptRecord. now apply confined_guarded. Qed.

Lemma deleteAttemptRecord_confined key (w : World Payload) :
  key_truthy (Some key) = true ->
  exists w' evs,
    deleteAttemptRecord env (Some key) w = (Normal tt, w') /\
    draws w' = draws w /\ ladder evs = [] /\
    statements evs = [DeleteAttempt key] /\
    confined env this body key 0 w w' evs.
Proof.
  intros Hkey. unfold deleteAttemptRecord. rewrite Hkey.
  now apply confined_guarded.
Qed.

Lemma firstn_calls j :
  Forall (call_of this body)
         (map (fun u => (u, body, tmo)) (firstn j urls)).
Proof.
  apply Forall_forall. intros c Hin.
  apply in_map_iff in Hin as (u & <- & Hu).
  repeat split. simpl. rewrite <- (firstn_skipn j urls).
  apply in_or_app. now left.
Qed.

Lemma confined_dispatched key (w : World Payload) evs j :
  statements evs = [] ->
  transport_calls evs = map (fun u => (u, body, tmo)) (firstn j urls) ->
  j = List.length (transport_calls evs) ->
  confined env this body key n w (dispatched w evs j) evs.
Proof.
  intros Hs Hc Hj. unfold confined. rewrite Hs. unfold dispatched. simpl.
  split; [reflexivity|]. split; [constructor|]. split; [auto|].
  split; [rewrite Hc; apply firstn_calls|].
  split.
  { rewrite Hc, length_map, length_firstn. lia. }
  split; [now rewrite <- Hj|]. split; [lia|]. auto.
Qed.

(** One dispatch. *)
Lemma sendRequest_confined key (w : World Payload) :
  exists r w1 evs,
    sendRequest env this body w = (r, w1) /\ r <> OutOfFuel /\
    draws w1 = draws w /\ ladder evs = [] /\ statements evs = [] /\
    confined env this body key n w w1 evs.
Proof.
  destruct urls as [|u l] eqn:Hurls.
  - exists (Normal None), w, []. unfold sendRequest. rewrite Hurls.
    split; [reflexivity|]. split; [discriminate|]. split; [reflexivity|].
    split; [reflexivity|]. split; [reflexivity|]. apply confined_refl.
  - assert (Hne : urls <> []) by (rewrite Hurls; discriminate).
    destruct (sendRequest_loop_spec env this body urls [] w eq_refl Hne)
      as [(k & response & Hk & _ & _ & Hrun)|(err & _ & _ & Hrun)];
      unfold sendRequest; rewrite <- Hurls.
    + eexists _, _,
        (flat_map (failed_events body tmo) (firstn k urls)
         ++ answered_events body tmo (nth k urls ""%string)).
      split; [exact Hrun|]. split; [discriminate|].
      split; [reflexivity|].
      split; [rewrite ladder_app, ladder_failed; reflexivity|].
      split; [rewrite statements_app, statements_failed; reflexivity|].
      apply confined_dispatched.
      * rewrite statements_app, statements_failed. reflexivity.
      * rewrite transport_calls_app, transport_calls_failed, firstn_snoc
          by assumption.
        now rewrite map_app.
      * rewrite transport_calls_app, transport_calls_failed, length_app,
          length_map, length_firstn. simpl. lia.
    + eexists _, _, (flat_map (failed_events body tmo) urls).
      split; [exact Hrun|]. split; [discriminate|].
      split; [reflexivity|].
      split; [apply ladder_failed|]. split; [apply statements_failed|].
      apply confined_dispatched.
      * apply statements_failed.
      * now rewrite transport_calls_failed, firstn_all.
      * now rewrite transport_calls_failed, length_map.
Qed.

Lemma delivery_key_draws key (w w1 : World Payload) :
  draws w1 = draws w -> delivery_key env key w1 = delivery_key env key w.
Proof.
  intros Hd. unfold delivery_key, uuid_in. now rewrite Hd.
Qed.

Lemma delivery_key_truthy k (w : World Payload) :
  key_truthy (Some k) = true -> delivery_key env (Some k) w = k.
Proof. intros Hk. unfold delivery_key. now rewrite Hk. Qed.

(** The [try] block of [makeHttpRequest]. *)
Lemma make_try_confined a key (w : World Payload) :
  exists r w1 evs,
    make_try env this body a key w = (r, w1) /\ r <> OutOfFuel /\
    draws w1 = draws w /\ ladder evs = [] /\
    confined env this body (delivery_key env key w) n w w1 evs.
Proof.
  set (k := delivery_key env key w).
  destruct (sendRequest_confined k w)
    as (r0 & w0 & evs0 & Hrun & Hf & Hd & Hl & _ & Hc).
  unfold make_try. unfold bind at 1. rewrite Hrun.
  destruct r0 as [response|err|]; [| |congruence].
  - assert (Hdel : exists w2 evs2,
               (if (a >? 1) && key_truthy key
                then deleteAttemptRecord env key else ret tt) w0
               = (Normal tt, w2) /\
               draws w2 = draws w0 /\ ladder evs2 = [] /\
               confined env this body k 0 w0 w2 evs2).
    { destruct ((a >? 1) && key_truthy key) eqn:E.
      - apply andb_true_iff in E as [_ Ht].
        destruct key as [s|]; [|discriminate].
        assert (Hk : k = s) by (unfold k; now apply delivery_key_truthy).
        rewrite Hk.
        destruct (deleteAttemptRecord_confined s w0 Ht)
          as (w2 & evs2 & H1 & H2 & H3 & _ & H4).
        now exists w2, evs2.
      - exists w0, []. unfold ret. split; [reflexivity|].
        split; [reflexivity|]. split; [reflexivity|]. apply confined_refl. }
    destruct Hdel as (w2 & evs2 & Hdel & Hd2 & Hl2 & Hc2).
    unfold bind at 1. rewrite Hdel.
    destruct response as [response|]; cbn [response_status].
    + unfold bind, ret, console_log, emit.
      eexists _, _,
        ((evs0 ++ evs2) ++ [ConsoleLog (RequestSuccessful (status response))]).
      split; [reflexivity|]. split; [discriminate|].
      split; [simpl; congruence|].
      split; [rewrite !ladder_app, Hl, Hl2; reflexivity|].
      apply (confined_then k n w w2);
        [now apply (confined_then k n w w0)|].
      now apply confined_quiet.
    + unfold bind, throw.
      eexists _, _, (evs0 ++ evs2).
      split; [reflexivity|]. split; [discriminate|].
      split; [congruence|].
      split; [rewrite ladder_app, Hl, Hl2; reflexivity|].
      now apply (confined_then k n w w0).
  - eexists _, _, evs0. split; [reflexivity|]. split; [discriminate|].
    split; [assumption|]. split; assumption.
Qed.

(** The [catch] block of [makeHttpRequest]. *)
Lemma make_catch_confined next a key err (w : World Payload) :
  exists key' w' evs,
    key' = delivery_key env key w /\
    key_truthy (Some key') = true /\
    confined env this body key' 0 w w' evs /\
    ladder evs = (if a <? M then [Failed a; Delay (2 ^ a * 1000)]
                  else [Failed a]) /\
    make_catch env this next body a key err w
    = (if a <? M then next (a + 1) (Some key') w' else (Normal tt, w')).
Proof.
  unfold make_catch.
  set (failed := ConsoleError (AttemptFailed a (err_message err)
                                             (statusCode_of err))
                 : Event Payload).
  set (w0 := mkWorld (ledger w) (next_id w) (trace w ++ [failed])
                     (posts w) (execs w) (draws w)).
  set (k := delivery_key env key w).
  assert (Hw0 : confined env this body k 0 w w0 [failed])
    by now apply confined_quiet.
  assert (Hkey : exists w1,
             (match key with
              | Some s => if key_truthy key then ret s else generateUUID env
              | None => generateUUID env
              end) w0 = (Normal k, w1) /\
             key_truthy (Some k) = true /\
             confined env this body k 0 w0 w1 []).
  { unfold k, delivery_key.
    destruct key as [s|]; [destruct (key_truthy (Some s)) eqn:Hs|].
    - exists w0. split; [reflexivity|]. split; [exact Hs|].
      apply confined_refl.
    - rewrite generateUUID_eq. eexists. split; [reflexivity|].
      split; [apply uuid_truthy|]. apply confined_set_draws.
    - rewrite generateUUID_eq. eexists. split; [reflexivity|].
      split; [apply uuid_truthy|]. apply confined_set_draws. }
  destruct Hkey as (w1 & Hkey & Hk & Hw1).
  exists k.
  unfold bind at 1. unfold console_error at 1, emit at 1. fold failed. fold w0.
  unfold bind at 1. rewrite Hkey.
  assert (Hins : forall ab, exists w2 evs2,
             (console_log InsertingRecord ;;
              insertAttemptRecord env this k a (statusCode_of err) body ab)%async
               w1 = (Normal tt, w2) /\
             ladder evs2 = [] /\
             confined env this body k 0 w1 w2 evs2).
  { intros ab. unfold bind, console_log, emit.
    match goal with
    | |- context [insertAttemptRecord env this k a ?c body ab ?w'] =>
        destruct (insertAttemptRecord_confined k a c ab w')
          as (w2 & evs2 & Hrun & _ & Hl2 & _ & Hc2)
    end.
    rewrite Hrun. exists w2, ([ConsoleLog InsertingRecord] ++ evs2).
    split; [reflexivity|]. split; [exact Hl2|].
    refine (confined_then k 0 w1 _ w2 _ _ _ Hc2).
    now apply confined_quiet. }
  destruct (a <? M) eqn:Hlt.
  - assert (Hstep : exists w2 evs2,
               (if a =? 1
                then (console_log InsertingRecord ;;
                      insertAttemptRecord env this k a (statusCode_of err)
                                          body 0)%async
                else ret tt) w1 = (Normal tt, w2) /\
               ladder evs2 = [] /\
               confined env this body k 0 w1 w2 evs2).
    { destruct (a =? 1); [apply Hins|].
      exists w1, []. unfold ret. split; [reflexivity|].
      split; [reflexivity | apply confined_refl]. }
    destruct Hstep as (w2 & evs2 & Hstep & Hl2 & Hw2).
    unfold bind at 1. rewrite Hstep.
    unfold bind, console_log, sleep, emit.
    eexists _,
      ((([failed] ++ []) ++ evs2)
       ++ ([ConsoleLog (RetryingAfter (2 ^ a * 1000))]
           ++ [Sleep (2 ^ a * 1000)])).
    split; [reflexivity|]. split; [exact Hk|].
    split; [|split; [|reflexivity]].
    + apply (confined_then k 0 w w2);
        [apply (confined_then k 0 w w1);
         [now apply (confined_then k 0 w w0) | exact Hw2]|].
      refine (confined_then k 0 w2 _ _ _ _ _ _); now apply confined_quiet.
    + rewrite !ladder_app, Hl2. reflexivity.
  - assert (Hstep : exists w2 evs2,
               (if a =? 1
                then (console_log InsertingRecord ;;
                      insertAttemptRecord env this k a (statusCode_of err)
                                          body 1)%async
                else abandonAttemptRecord env k a (statusCode_of err)) w1
               = (Normal tt, w2) /\
               ladder evs2 = [] /\
               confined env this body k 0 w1 w2 evs2).
    { destruct (a =? 1); [apply Hins|].
      destruct (abandonAttemptRecord_confined k a (statusCode_of err) w1)
        as (w2 & evs2 & Hrun & _ & Hl2 & _ & Hc2).
      exists w2, evs2. split; [assumption|]. split; assumption. }
    destruct Hstep as (w2 & evs2 & Hstep & Hl2 & Hw2).
    unfold bind at 1. rewrite Hstep.
    unfold console_error, emit.
    eexists _,
      ((([failed] ++ []) ++ evs2) ++ [ConsoleError MaximumAttemptsReached]).
    split; [reflexivity|]. split; [exact Hk|].
    split; [|split; [|reflexivity]].
    + apply (confined_then k 0 w w2);
        [apply (confined_then k 0 w w1);
         [now apply (confined_then k 0 w w0) | exact Hw2]|].
      now apply confined_quiet.
    + rewrite !ladder_app, Hl2. reflexivity.
Qed.

Lemma budget_step a :
  a < M ->
  (n + n * S (Z.to_nat (M - (a + 1))) = n * S (Z.to_nat (M - a)))%nat.
Proof.
  intros Ha.
  replace (Z.to_nat (M - a)) with (S (Z.to_nat (M - (a + 1)))) by lia.
  rewrite (Nat.mul_succ_r n (S _)). lia.
Qed.

Lemma le_budget x : (n <= n * S x)%nat.
Proof. rewrite Nat.mul_succ_r. lia. Qed.

(** The deliver path as a whole. *)
Lemma makeHttpRequest_fuel_confined :
  forall fuel a key w,
    (Z.to_nat (M - a) < fuel)%nat ->
    exists w' evs,
      makeHttpRequest_fuel env this fuel body a key w = (Normal tt, w') /\
      confined env this body (delivery_key env key w)
               (n * S (Z.to_nat (M - a))) w w' evs /\
      ladder_from M a (ladder evs).
Proof.
  induction fuel as [|fuel IH]; intros a key w Hfuel; [lia|].
  change (makeHttpRequest_fuel env this (S fuel) body a key w)
    with (try_catch (make_try env this body a key)
            (make_catch env this (makeHttpRequest_fuel env this fuel body)
                        body a key) w).
  unfold try_catch.
  destruct (make_try_confined a key w)
    as (r & w1 & evs1 & Hrun & Hf & Hd & Hl & Hc).
  rewrite Hrun. destruct r as [[]|err|]; [| |congruence].
  - exists w1, evs1. split; [reflexivity|]. split.
    + apply (confined_weaken _ n); [apply le_budget | exact Hc].
    + rewrite Hl. constructor.
  - destruct (make_catch_confined (makeHttpRequest_fuel env this fuel body)
                a key err w1)
      as (key' & w2 & evs2 & Hkey' & Htruthy & Hc2 & Hl2 & Heq).
    rewrite (delivery_key_draws key w w1 Hd) in Hkey'.
    rewrite Heq. rewrite <- Hkey' in Hc.
    destruct (a <? M) eqn:Ha.
    + apply Z.ltb_lt in Ha.
      destruct (IH (a + 1) (Some key') w2 ltac:(lia))
        as (w' & evs3 & Hrun3 & Hc3 & Hl3).
      rewrite (delivery_key_truthy key' w2 Htruthy) in Hc3.
      rewrite Hrun3. exists w', ((evs1 ++ evs2) ++ evs3).
      split; [reflexivity|]. rewrite <- Hkey'. split.
      * rewrite <- (budget_step a Ha).
        apply (confined_trans key' _ _ w w2 w');
          [now apply (confined_then key' n w w1) | exact Hc3].
      * rewrite !ladder_app, Hl, Hl2. simpl. now constructor.
    + apply Z.ltb_ge in Ha.
      exists w2, (evs1 ++ evs2). split; [reflexivity|].
      rewrite <- Hkey'. split.
      * apply (confined_weaken _ n); [apply le_budget|].
        now apply (confined_then key' n w w1).
      * rewrite ladder_app, Hl, Hl2. simpl. now constructor.
Qed.

(** The [try] block of [retryHttpRequest]. *)
Lemma retry_try_confined rid (w : World Payload) :
  exists r w1 evs,
    retry_try env this rid body w = (r, w1) /\ r <> OutOfFuel /\
    ladder evs = [] /\
    statements evs
    = match r with
      | Normal _ => if key_truthy (Some rid) then [DeleteAttempt rid] else []
      | _ => []
      end /\
    confined env this body rid n w w1 evs.
Proof.
  destruct (sendRequest_confined rid w)
    as (r0 & w0 & evs0 & Hrun & Hf & Hd & Hl & Hs0 & Hc).
  unfold retry_try. unfold bind at 1. rewrite Hrun.
  destruct r0 as [[response|]|err|]; [| | |congruence];
    cbn [response_status].
  - unfold bind at 1, ret at 1. unfold bind at 1.
    unfold console_log at 1, emit at 1.
    set (w1 := mkWorld (ledger w0) (next_id w0)
                 (trace w0
                  ++ [ConsoleLog (RequestSuccessful (status response))])
                 (posts w0) (execs w0) (draws w0)).
    assert (Hw1 : confined env this body rid 0 w0 w1
                    [ConsoleLog (RequestSuccessful (status response))])
      by now apply confined_quiet.
    destruct (key_truthy (Some rid)) eqn:Hk.
    + destruct (deleteAttemptRecord_confined rid w1 Hk)
        as (w2 & evs2 & Hdel & _ & Hl2 & Hs2 & Hc2).
      rewrite Hdel.
      eexists _, _,
        ((evs0 ++ [ConsoleLog (RequestSuccessful (status response))])
         ++ evs2).
      split; [reflexivity|]. split; [discriminate|].
      split; [rewrite !ladder_app, Hl, Hl2; reflexivity|].
      split; [rewrite !statements_app, Hs0, Hs2; reflexivity|].
      apply (confined_then rid n w w1); [|exact Hc2].
      now apply (confined_then rid n w w0).
    + unfold deleteAttemptRecord. rewrite Hk. unfold ret.
      eexists _, _,
        (evs0 ++ [ConsoleLog (RequestSuccessful (status response))]).
      split; [reflexivity|]. split; [discriminate|].
      split; [rewrite ladder_app, Hl; reflexivity|].
      split; [rewrite statements_app, Hs0; reflexivity|].
      now apply (confined_then rid n w w0).
  - unfold bind, throw. eexists _, _, evs0.
    split; [reflexivity|]. split; [discriminate|].
    split; [assumption|]. split; assumption.
  - eexists _, _, evs0.
    split; [reflexivity|]. split; [discriminate|].
    split; [assumption|]. split; assumption.
Qed.

(** The resume path as a whole: the only statement it sends is the DELETE of
    its record, after an answer. *)
Lemma retryHttpRequest_fuel_confined rid :
  forall fuel a w,
    (Z.to_nat (M - a) < fuel)%nat ->
    exists r w' evs,
      retryHttpRequest_fuel env this fuel rid a body w = (r, w') /\
      r <> OutOfFuel /\
      confined env this body rid (n * S (Z.to_nat (M - a))) w w' evs /\
      statements evs
      = match r with
        | Normal _ => if key_truthy (Some rid) then [DeleteAttempt rid] else []
        | _ => []
        end /\
      ladder_from M a (ladder evs).
Proof.
  induction fuel as [|fuel IH]; intros a w Hfuel; [lia|].
  change (retryHttpRequest_fuel env this (S fuel) rid a body w)
    with (try_catch (retry_try env this rid body)
            (retry_catch this
               (fun a' => retryHttpRequest_fuel env this fuel rid a' body) a)
            w).
  unfold try_catch.
  destruct (retry_try_confined rid w)
    as (r & w1 & evs1 & Hrun & Hf & Hl & Hs & Hc).
  rewrite Hrun. destruct r as [[]|err|]; [| |congruence].
  - exists (Normal tt), w1, evs1. split; [reflexivity|].
    split; [discriminate|]. split; [|split].
    + apply (confined_weaken _ n); [apply le_budget | exact Hc].
    + exact Hs.
    + rewrite Hl. constructor.
  - destruct (Z.lt_ge_cases a M) as [Ha|Ha].
    + rewrite retry_catch_retry by assumption.
      match goal with
      | |- context [retryHttpRequest_fuel env this fuel rid (a + 1) body ?w0] =>
          destruct (IH (a + 1) w0 ltac:(lia))
            as (r & w' & evs3 & Hrun3 & Hf3 & Hc3 & Hs3 & Hl3)
      end.
      rewrite Hrun3.
      eexists r, w',
        ((evs1 ++ [ConsoleError (RetryAttemptFailed a (err_message err));
                   ConsoleLog (RetryingAfter (2 ^ a * 1000));
                   Sleep (2 ^ a * 1000)]) ++ evs3).
      split; [reflexivity|]. split; [assumption|]. split; [|split].
      * rewrite <- (budget_step a Ha).
        refine (confined_trans rid n _ w _ w' _ _ _ Hc3).
        apply (confined_then rid n w w1); [exact Hc|].
        unfold logged. now apply confined_quiet.
      * rewrite !statements_app, Hs, Hs3. reflexivity.
      * rewrite !ladder_app, Hl. simpl. now constructor.
    + rewrite retry_catch_exhausted by assumption.
      eexists _, _,
        (evs1 ++ [ConsoleError (RetryAttemptFailed a (err_message err))]).
      split; [reflexivity|]. split; [discriminate|]. split; [|split].
      * apply (confined_weaken _ n); [apply le_budget|].
        apply (confined_then rid n w w1); [exact Hc|].
        unfold logged. now apply confined_quiet.
      * rewrite statements_app, Hs. reflexivity.
      * rewrite ladder_app, Hl. simpl. now constructor.
Qed.

End Confined.

(** ** What the two ladders touch, whatever the transport and the store do *)

Section Reach.

Context {Payload : Type}.
Variable env : Env Payload.
Variable this : HttpRequester.

Abbreviation M := (maxAttempts (config this)).
Abbreviation urls := (receiversUrl (config this)).
Abbreviation tmo := (timeout (config this)).
Abbreviation n := (List.length (receiversUrl (config this))).

#[local] Arguments Z.pow : simpl never.
#[local] Arguments Z.mul : simpl never.
#[local] Arguments Nat.mul : simpl never.

Lemma makeHttpRequest_confined body a key w :
  exists w' evs,
    makeHttpRequest env this body a key w = (Normal tt, w') /\
    confined env this body (delivery_key env key w)
             (n * S (Z.to_nat (M - a))) w w' evs /\
    ladder_from M a (ladder evs).
Proof.
  apply makeHttpRequest_fuel_confined. unfold ladder_fuel. lia.
Qed.

Lemma retryHttpRequest_confined rid body a w :
  exists r w' evs,
    retryHttpRequest env this rid a body w = (r, w') /\
    r <> OutOfFuel /\
    confined env this body rid (n * S (Z.to_nat (M - a))) w w' evs /\
    statements evs
    = match r with
      | Normal _ => if key_truthy (Some rid) then [DeleteAttempt rid] else []
      | _ => []
      end /\
    ladder_from M a (ladder evs).
Proof.
  apply retryHttpRequest_fuel_confined. unfold ladder_fuel. lia.
Qed.

(** X8: whatever the transport and the store do, a delivery sends the store
    only statements about its own request identifier (the given one, or the
    generated one), and the rows of every other request are after the
    delivery what they were before. *)
Theorem delivery_touches_only_its_request body a key w :
  let k := delivery_key env key w in
  let w' := snd (makeHttpRequest env this body a key w) in
  exists evs,
    trace w' = trace w ++ evs /\
    Forall (fun stmt => statement_key stmt = Some k) (statements evs) /\
    forall other, other <> k ->
                  filter (has_request_id other) (ledger w')
                  = filter (has_request_id other) (ledger w).
Proof.
  cbv zeta.
  destruct (makeHttpRequest_confined body a key w)
    as (w' & evs & Hrun & (Ht & Hs & Ho & _) & _).
  rewrite Hrun. exists evs. repeat split; assumption.
Qed.

(** X9: whatever the transport and the store do, every transport call of a
    delivery or of a resumed delivery posts the given payload to a configured
    receiver with the configured time-out, and from attempt [a] on there are
    at most as many calls as receivers times attempts left in the budget. *)
Theorem transport_calls_are_bounded body a :
  (forall key w,
      let w' := snd (makeHttpRequest env this body a key w) in
      exists evs,
        trace w' = trace w ++ evs /\
        Forall (call_of this body) (transport_calls evs) /\
        (List.length (transport_calls evs) <= n * S (Z.to_nat (M - a)))%nat /\
        posts w' = (posts w + List.length (transport_calls evs))%nat) /\
  (forall requestId w,
      let w' := snd (retryHttpRequest env this requestId a body w) in
      exists evs,
        trace w' = trace w ++ evs /\
        Forall (call_of this body) (transport_calls evs) /\
        (List.length (transport_calls evs) <= n * S (Z.to_nat (M - a)))%nat /\
        posts w' = (posts w + List.length (transport_calls evs))%nat).
Proof.
  split.
  - intros key w. cbv zeta.
    destruct (makeHttpRequest_confined body a key w)
      as (w' & evs & Hrun & (Ht & _ & _ & Hc & Hb & Hp & _) & _).
    rewrite Hrun. exists evs. repeat split; assumption.
  - intros rid w. cbv zeta.
    destruct (retryHttpRequest_confined rid body a w)
      as (r & w' & evs & Hrun & _ & (Ht & _ & _ & Hc & Hb & Hp & _) & _).
    rewrite Hrun. exists evs. repeat split; assumption.
Qed.

(** X10: the resume path sends the store one statement at most, the DELETE of
    its own record, and only when it returns normally; it never inserts or
    updates, and it leaves the rows of every other request as they were. *)
Theorem resume_only_deletes_its_record requestId body a w :
  let r := retryHttpRequest env this requestId a body w in
  exists evs,
    trace (snd r) = trace w ++ evs /\
    statements evs
    = match fst r with
      | Normal _ =>
          if key_truthy (Some requestId) then [DeleteAttempt requestId] else []
      | _ => []
      end /\
    forall other, other <> requestId ->
                  filter (has_request_id other) (ledger (snd r))
                  = filter (has_request_id other) (ledger w).
Proof.
  cbv zeta.
  destruct (retryHttpRequest_confined requestId body a w)
    as (r & w' & evs & Hrun & _ & (Ht & _ & Ho & _) & Hs & _).
  rewrite Hrun. exists evs. repeat split; assumption.
Qed.

(** The back-off of a ladder. *)
Lemma ladder_from_delay_bound B a l :
  0 <= a -> ladder_from B a l ->
  0 <= total_delay l <= 1000 * (2 ^ Z.max a B - 2 ^ a) /\
  (failed_attempts l <= S (Z.to_nat (B - a)))%nat.
Proof.
  intros Ha H. induction H as [a|a HB|a l HB Hl IH]; simpl.
  - assert (2 ^ a <= 2 ^ Z.max a B)
      by (apply Z.pow_le_mono_r; lia).
    split; lia.
  - replace (Z.max a B) with a by lia. split; lia.
  - destruct (IH ltac:(lia)) as [Hd Hf].
    replace (Z.max (a + 1) B) with B in Hd by lia.
    replace (Z.max a B) with B by lia.
    rewrite Z.pow_add_r in Hd by lia. change (2 ^ 1) with 2 in Hd.
    assert (0 < 2 ^ a) by (apply Z.pow_pos_nonneg; lia).
    split; [lia|].
    replace (Z.to_nat (B - a)) with (S (Z.to_nat (B - (a + 1)))) by lia.
    lia.
Qed.

(** X12: from attempt [a >= 0] on, a delivery and a resumed delivery sleep
    [1000 * (2^maxAttempts - 2^a)] milliseconds at most in total, nothing when
    the budget is already used up, and report at most one failed attempt per
    attempt left. *)
Theorem total_backoff_is_bounded body a :
  0 <= a ->
  (forall key w, exists evs,
      trace (snd (makeHttpRequest env this body a key w)) = trace w ++ evs /\
      0 <= total_delay (ladder evs) <= 1000 * (2 ^ Z.max a M - 2 ^ a) /\
      (failed_attempts (ladder evs) <= S (Z.to_nat (M - a)))%nat) /\
  (forall requestId w, exists evs,
      trace (snd (retryHttpRequest env this requestId a body w))
      = trace w ++ evs /\
      0 <= total_delay (ladder evs) <= 1000 * (2 ^ Z.max a M - 2 ^ a) /\
      (failed_attempts (ladder evs) <= S (Z.to_nat (M - a)))%nat).
Proof.
  intros Ha. split.
  - intros key w.
    destruct (makeHttpRequest_fuel_ladder env this body (ladder_fuel this a)
                a key w) as (w' & evs & Hrun & Ht & Hl);
      [unfold ladder_fuel; lia|].
    exists evs. unfold makeHttpRequest. rewrite Hrun.
    split; [exact Ht|]. now apply ladder_from_delay_bound.
  - intros rid w.
    destruct (retryHttpRequest_fuel_ladder env this rid body
                (ladder_fuel this a) a w)
      as (r & w' & evs & Hrun & _ & Ht & Hl); [unfold ladder_fuel; lia|].
    exists evs. unfold retryHttpRequest. rewrite Hrun.
    split; [exact Ht|]. now apply ladder_from_delay_bound.
Qed.

End Reach.

(** ** Delays that the timer takes as they are *)

Lemma delay_within_timer a :
  0 <= a <= 21 -> 1 <= 2 ^ a * 1000 <= timer_limit.
Proof.
  intros Ha.
  assert (0 < 2 ^ a) by (apply Z.pow_pos_nonneg; lia).
  assert (2 ^ a <= 2 ^ 21) by (apply Z.pow_le_mono_r; lia).
  change (2 ^ 21) with 2097152 in *. unfold timer_limit. lia.
Qed.

Lemma schedule_within_timer a k x :
  0 <= a -> k = 0%nat \/ a + Z.of_nat k <= 22 ->
  Forall within_timer (schedule a k ++ [Failed x])%list.
Proof.
  revert a. induction k as [|k IH]; intros a Ha Hk.
  - repeat constructor.
  - destruct Hk as [Hk|Hk]; [discriminate|].
    cbn [schedule app]. constructor; [exact I|].
    constructor; [apply delay_within_timer; lia|].
    apply IH; [lia|]. right. lia.
Qed.


(** ** Deliveries and resumed deliveries, call by call *)

Section Runs.

Context {Payload : Type}.
Variable env : Env Payload.
Variable this : HttpRequester.

Abbreviation M := (maxAttempts (config this)).
Abbreviation urls := (receiversUrl (config this)).
Abbreviation tmo := (timeout (config this)).
Abbreviation n := (List.length (receiversUrl (config this))).

#[local] Arguments Z.pow : simpl never.
#[local] Arguments Z.mul : simpl never.
#[local] Arguments Nat.mul : simpl never.

(** X13: a delivery answered at its first attempt (by receiver [m], the ones
    before it failing) writes nothing: no statement is sent, no identifier
    is generated, nothing is slept, the ledger is untouched; the receivers up
    to the one that answered were called once each, in order. *)
Theorem first_attempt_success_writes_nothing body w m response :
  (m < n)%nat ->
  (forall j, (j < m)%nat -> fails (call env this body w j)) ->
  call env this body w m = inl response ->
  exists w' evs,
    startRequest env this body w = (Normal tt, w') /\
    trace w' = trace w ++ evs /\
    statements evs = [] /\
    ladder evs = [] /\
    transport_calls evs = map (fun u => (u, body, tmo)) (firstn (S m) urls) /\
    In (ConsoleLog (RequestSuccessful (status response))) evs /\
    ledger w' = ledger w /\ next_id w' = next_id w /\
    execs w' = execs w /\ draws w' = draws w.
Proof.
  intros Hm Hbefore Hat.
  pose proof (dispatch_answered env this body w m response Hm Hbefore Hat)
    as Hsend.
  pose proof (makeHttpRequest_answered_first env this body w response _ Hsend)
    as Hrun.
  apply startRequest_normal in Hrun. rewrite Hrun.
  eexists _,
    ((flat_map (failed_events body tmo) (firstn m urls)
      ++ answered_events body tmo (nth m urls ""%string))
     ++ [ConsoleLog (RequestSuccessful (status response))]).
  split; [reflexivity|].
  split; [simpl; now rewrite <- !app_assoc|].
  split; [rewrite !statements_app, statements_failed; reflexivity|].
  split; [rewrite !ladder_app, ladder_failed; reflexivity|].
  split.
  { rewrite !transport_calls_app, transport_calls_failed, firstn_snoc
      by assumption.
    rewrite map_app. simpl. now rewrite app_nil_r. }
  split; [apply in_or_app; right; now left|].
  repeat split.
Qed.

Lemma retryHttpRequest_answered_stored rid a body w response w1 :
  sendRequest env this body w = (Normal (Some response), w1) ->
  db_fault env (execs w1) = None ->
  key_truthy (Some rid) = true ->
  retryHttpRequest env this rid a body w
  = (Normal tt,
     stored (logged w1 [ConsoleLog (RequestSuccessful (status response))])
            (DeleteAttempt rid)).
Proof.
  intros Hsend Hdb Hkey.
  rewrite retryHttpRequest_blocks. unfold try_catch, retry_try.
  unfold bind at 1. rewrite Hsend. cbn [response_status].
  unfold bind at 1, ret at 1. unfold bind at 1.
  unfold console_log at 1, emit at 1.
  rewrite deleteAttemptRecord_at by assumption.
  reflexivity.
Qed.

(** X14: a resumed delivery that is answered within its budget (transport
    call [m] is the first to be answered), the store answering, returns
    normally after the single statement DELETE: every row of its request
    identifier is gone and the other rows are kept in their order. *)
Theorem resume_answered_deletes_the_record rid body :
  store_available env -> key_truthy (Some rid) = true ->
  forall r a w m response,
    r = Z.to_nat (M - a) -> (m < n * S r)%nat ->
    (forall j, (j < m)%nat -> fails (call env this body w j)) ->
    call env this body w m = inl response ->
    exists w' evs,
      retryHttpRequest env this rid a body w = (Normal tt, w') /\
      trace w' = trace w ++ evs /\
      statements evs = [DeleteAttempt rid] /\
      ledger w' = filter (fun row => negb (has_request_id rid row)) (ledger w)
      /\ (forall row, In row (ledger w') -> request_id row <> rid).
Proof.
  intros Hdb Hkey.
  assert (Hgone : forall l : list Row,
             forall row,
               In row (filter (fun row => negb (has_request_id rid row)) l) ->
               request_id row <> rid).
  { intros l row Hin Heq. apply filter_In in Hin as [_ Hneg].
    unfold has_request_id in Hneg. rewrite Heq, String.eqb_refl in Hneg.
    discriminate. }
  induction r as [|r IH]; intros a w m response Hr Hm Hbefore Hat.
  - assert (Hnow : (m < n)%nat) by (rewrite Nat.mul_1_r in Hm; exact Hm).
    rewrite (retryHttpRequest_answered_stored rid a body w response _
               (dispatch_answered env this body w m response Hnow Hbefore Hat)
               (Hdb _) Hkey).
    eexists _,
      ((flat_map (failed_events body tmo) (firstn m urls)
        ++ answered_events body tmo (nth m urls ""%string))
       ++ [ConsoleLog (RequestSuccessful (status response));
           Execute (DeleteAttempt rid)]).
    split; [reflexivity|].
    split; [simpl; now rewrite <- !app_assoc|].
    split; [rewrite !statements_app, statements_failed; reflexivity|].
    split; [reflexivity|]. apply Hgone.
  - destruct (Nat.lt_ge_cases m n) as [Hnow|Hlater].
    + rewrite (retryHttpRequest_answered_stored rid a body w response _
                 (dispatch_answered env this body w m response Hnow Hbefore
                                    Hat)
                 (Hdb _) Hkey).
      eexists _,
        ((flat_map (failed_events body tmo) (firstn m urls)
          ++ answered_events body tmo (nth m urls ""%string))
         ++ [ConsoleLog (RequestSuccessful (status response));
             Execute (DeleteAttempt rid)]).
      split; [reflexivity|].
      split; [simpl; now rewrite <- !app_assoc|].
      split; [rewrite !statements_app, statements_failed; reflexivity|].
      split; [reflexivity|]. apply Hgone.
    + assert (Hne : urls <> []).
      { intros E. rewrite E in Hm. simpl in Hm. rewrite Nat.mul_0_l in Hm.
        lia. }
      destruct (dispatch_fails env this Hne body w) as (err & Hsend).
      { intros j Hj. apply Hbefore. lia. }
      rewrite (retryHttpRequest_retry env this rid a body w err _ Hsend)
        by lia.
      match goal with
      | |- context [retryHttpRequest env this rid (a + 1) body ?w0] =>
          destruct (IH (a + 1) w0 (m - n)%nat response)
            as (w' & evs & Hrun & Ht & Hst & Hled & Hin)
      end.
      * lia.
      * rewrite (Nat.mul_succ_r n (S r)) in Hm. lia.
      * intros j Hj. erewrite call_shift by reflexivity. apply Hbefore. lia.
      * erewrite call_shift by reflexivity.
        now replace (n + (m - n))%nat with m by lia.
      * rewrite Hrun.
        eexists w',
          (flat_map (failed_events body tmo) urls
           ++ [ConsoleError (RetryAttemptFailed a (err_message err));
               ConsoleLog (RetryingAfter (2 ^ a * 1000));
               Sleep (2 ^ a * 1000)]
           ++ evs).
        split; [reflexivity|].
        split; [rewrite Ht; simpl; now rewrite <- !app_assoc|].
        split; [rewrite !statements_app, statements_failed; simpl;
                exact Hst|].
        split; [exact Hled | exact Hin].
Qed.

(** Every transport call of the budget fails: whatever the store does, the
    delivery goes through all its attempts. *)
Lemma exhaust_any_store body :
  urls <> [] ->
  forall r a key w,
    r = Z.to_nat (M - a) ->
    (forall j, (j < n * S r)%nat -> fails (call env this body w j)) ->
    exists w' evs,
      makeHttpRequest env this body a key w = (Normal tt, w') /\
      trace w' = trace w ++ evs /\
      ladder evs = schedule a r ++ [Failed (a + Z.of_nat r)] /\
      List.length (transport_calls evs) = (n * S r)%nat /\
      posts w' = (posts w + n * S r)%nat.
Proof.
  intros Hne.
  induction r as [|r IH]; intros a key w Hr Hcalls.
  - destruct (dispatch_fails env this Hne body w) as (err & Hsend).
    { intros j Hj. apply Hcalls. rewrite Nat.mul_1_r. exact Hj. }
    rewrite makeHttpRequest_blocks. unfold try_catch.
    rewrite (make_try_throw _ _ _ _ _ _ _ _ Hsend).
    destruct (make_catch_confined env this body
                (makeHttpRequest_fuel env this (Z.to_nat (M - a)) body)
                a key err
                (dispatched w (flat_map (failed_events body tmo) urls) n))
      as (key' & w2 & evs2 & _ & _ & Hc & Hl & Hrun).
    assert (Hlast : (a <? M) = false) by (apply Z.ltb_ge; lia).
    rewrite Hlast in Hl, Hrun. rewrite Hrun.
    destruct Hc as (Ht & _ & _ & _ & Hlen & Hposts & _).
    assert (Hnone : transport_calls evs2 = []).
    { destruct (transport_calls evs2); [reflexivity | simpl in Hlen; lia]. }
    exists w2, (flat_map (failed_events body tmo) urls ++ evs2).
    split; [reflexivity|].
    split; [rewrite Ht; simpl; now rewrite <- app_assoc|].
    split.
    { rewrite ladder_app, ladder_failed, Hl. simpl.
      now rewrite Z.add_0_r. }
    split.
    { rewrite transport_calls_app, transport_calls_failed, Hnone, app_nil_r,
        length_map. now rewrite Nat.mul_1_r. }
    rewrite Hposts, Hnone. simpl. rewrite Nat.mul_1_r. lia.
  - destruct (dispatch_fails env this Hne body w) as (err & Hsend).
    { intros j Hj. apply Hcalls. rewrite (Nat.mul_succ_r n (S r)). lia. }
    rewrite makeHttpRequest_blocks. unfold try_catch.
    rewrite (make_try_throw _ _ _ _ _ _ _ _ Hsend).
    destruct (make_catch_confined env this body
                (makeHttpRequest_fuel env this (Z.to_nat (M - a)) body)
                a key err
                (dispatched w (flat_map (failed_events body tmo) urls) n))
      as (key' & w2 & evs2 & _ & _ & Hc & Hl & Hrun).
    assert (Hmore : (a <? M) = true) by (apply Z.ltb_lt; lia).
    rewrite Hmore in Hl, Hrun. rewrite Hrun.
    rewrite makeHttpRequest_next by lia.
    destruct Hc as (Ht & _ & _ & _ & Hlen & Hposts & _).
    assert (Hnone : transport_calls evs2 = []).
    { destruct (transport_calls evs2); [reflexivity | simpl in Hlen; lia]. }
    rewrite Hnone in Hposts. simpl in Hposts.
    destruct (IH (a + 1) (Some key') w2) as (w' & evs & Hrun' & Ht' & Hl' & Hn' & Hp').
    { lia. }
    { intros j Hj.
      rewrite (call_shift env this body w w2 j)
        by (rewrite Hposts; simpl; lia).
      apply Hcalls. rewrite (Nat.mul_succ_r n (S r)). lia. }
    rewrite Hrun'.
    exists w', (flat_map (failed_events body tmo) urls ++ evs2 ++ evs).
    split; [reflexivity|].
    split; [rewrite Ht', Ht; simpl; now rewrite <- !app_assoc|].
    split.
    { rewrite !ladder_app, ladder_failed, Hl, Hl'.
      replace (a + Z.of_nat (S r)) with (a + 1 + Z.of_nat r) by lia.
      reflexivity. }
    split.
    { rewrite !transport_calls_app, transport_calls_failed, Hnone.
      simpl. rewrite length_app, length_map, Hn'.
      rewrite (Nat.mul_succ_r n (S r)). lia. }
    rewrite Hp', Hposts. simpl. rewrite (Nat.mul_succ_r n (S r)). lia.
Qed.

(** X15: every transport call of the budget fails: whatever the store does
    (answering, failing, or both in turn), a delivery started at an attempt
    [a >= 0] returns normally after exactly [n * (M - a + 1)] transport calls,
    having failed at the attempts [a .. M] and handed [sleep] the delay
    [2^i * 1000] ms after each of them but the last; with a budget of at most
    22 attempts every such delay is one that the timer takes as it is. *)
Theorem exhausted_delivery_any_store body r a key w :
  urls <> [] ->
  0 <= a ->
  r = Z.to_nat (M - a) ->
  (forall j, (j < n * S r)%nat -> fails (call env this body w j)) ->
  exists w' evs,
    makeHttpRequest env this body a key w = (Normal tt, w') /\
    trace w' = trace w ++ evs /\
    ladder evs = schedule a r ++ [Failed (a + Z.of_nat r)] /\
    List.length (transport_calls evs) = (n * S r)%nat /\
    posts w' = (posts w + n * S r)%nat /\
    (M <= 22 -> Forall within_timer (ladder evs)).
Proof.
  intros Hne Ha Hr Hcalls.
  destruct (exhaust_any_store body Hne r a key w Hr Hcalls)
    as (w' & evs & Hrun & Ht & Hl & Hc & Hp).
  exists w', evs. repeat (split; [assumption|]).
  intros HM. rewrite Hl. apply schedule_within_timer; [exact Ha|].
  lia.
Qed.

End Runs.

(** ** The recovery scan, whatever the collaborators do *)

Section Scan.

Context {Payload : Type}.
Variable env : Env Payload.
Variable this : HttpRequester.

Abbreviation M := (maxAttempts (config this)).
Abbreviation urls := (receiversUrl (config this)).
Abbreviation tmo := (timeout (config this)).
Abbreviation n := (List.length (receiversUrl (config this))).

#[local] Arguments Z.pow : simpl never.
#[local] Arguments Z.mul : simpl never.
#[local] Arguments Nat.mul : simpl never.

(** The ledger through the [try] block of a resumed attempt: untouched, or,
    when the attempt was answered, without the rows of the record. *)
Lemma retry_try_ledger rid body w :
  exists r w1,
    retry_try env this rid body w = (r, w1) /\
    next_id w1 = next_id w /\
    (ledger w1 = ledger w \/
     ledger w1 = filter (fun row => negb (has_request_id rid row)) (ledger w)).
Proof.
  unfold retry_try. unfold bind at 1.
  destruct (sendRequest_frame env this body w)
    as (r & evs & k & Hrun & Hfuel & _).
  rewrite Hrun. destruct r as [[response|]|err|]; [| | |congruence];
    cbn [response_status].
  - unfold bind at 1, ret at 1. unfold bind at 1.
    unfold console_log at 1, emit at 1. unfold deleteAttemptRecord.
    destruct (key_truthy (Some rid)).
    + unfold try_catch, bind, execute, ret, console_error, emit; simpl.
      destruct (db_fault env (execs w)); simpl; eexists _, _;
        (split; [reflexivity|]); simpl; split; auto.
    + unfold ret. eexists _, _. split; [reflexivity|]. simpl. auto.
  - unfold bind, throw. eexists _, _. split; [reflexivity|]. simpl. auto.
  - eexists _, _. split; [reflexivity|]. simpl. auto.
Qed.

Lemma retryHttpRequest_fuel_ledger rid body :
  forall fuel a w,
    exists r w',
      retryHttpRequest_fuel env this fuel rid a body w = (r, w') /\
      next_id w' = next_id w /\
      (ledger w' = ledger w \/
       ledger w'
       = filter (fun row => negb (has_request_id rid row)) (ledger w)).
Proof.
  induction fuel as [|fuel IH]; intros a w.
  - eexists _, _. split; [reflexivity|]. auto.
  - change (retryHttpRequest_fuel env this (S fuel) rid a body w)
      with (try_catch (retry_try env this rid body)
              (retry_catch this
                 (fun a' => retryHttpRequest_fuel env this fuel rid a' body) a)
              w).
    unfold try_catch.
    destruct (retry_try_ledger rid body w) as (r & w1 & Hrun & Hn & Hl).
    rewrite Hrun. destruct r as [[]|err|].
    + eexists _, _. split; [reflexivity|]. auto.
    + destruct (Z.lt_ge_cases a M) as [Ha|Ha].
      * rewrite retry_catch_retry by assumption.
        match goal with
        | |- context [retryHttpRequest_fuel env this fuel rid (a + 1) body
                                            ?w0] =>
            destruct (IH (a + 1) w0) as (r' & w' & Hrun' & Hn' & Hl')
        end.
        rewrite Hrun'. exists r', w'. split; [reflexivity|].
        simpl in Hn', Hl'. split; [congruence|].
        destruct Hl as [Hl|Hl]; destruct Hl' as [Hl'|Hl'];
          rewrite Hl', Hl; auto.
        right. clear. induction (ledger w) as [|row l IHl]; [reflexivity|].
        simpl. destruct (negb (has_request_id rid row)) eqn:E; simpl;
          rewrite ?E; congruence.
      * rewrite retry_catch_exhausted by assumption.
        eexists _, _. split; [reflexivity|]. simpl. auto.
    + eexists _, _. split; [reflexivity|]. auto.
Qed.

Lemma incl_filter_of (f : Row -> bool) (l l' : list Row) :
  l' = l \/ l' = filter f l -> incl l' l.
Proof.
  intros [->| ->]; [apply incl_refl|].
  intros row Hin. now apply filter_In in Hin.
Qed.

(** The loop over the stored rows. *)
Lemma for_each_row_scope :
  forall rows w,
    exists r w' evs,
      for_each_row env this rows w = (r, w') /\
      r <> OutOfFuel /\
      trace w' = trace w ++ evs /\
      Forall (deletion_of rows) (statements evs) /\
      Forall (resubmission_of env this rows) (transport_calls evs) /\
      incl (ledger w') (ledger w) /\ next_id w' = next_id w.
Proof.
  induction rows as [|row rows IH]; intros w.
  - exists (Normal tt), w, []. simpl. unfold ret. rewrite app_nil_r.
    split; [reflexivity|]. split; [discriminate|]. split; [reflexivity|].
    split; [constructor|]. split; [constructor|].
    split; [apply incl_refl | reflexivity].
  - destruct (JSON_parse env (payload row)) as [body|e] eqn:Hparse.
    + destruct (retryHttpRequest_confined env this (request_id row) body
                  (attempt_number row) w)
        as (r1 & w1 & evs1 & Hrun1 & Hf1 & Hc1 & Hs1 & _).
      destruct (retryHttpRequest_fuel_ledger (request_id row) body
                  (ladder_fuel this (attempt_number row))
                  (attempt_number row) w)
        as (r1' & w1' & Hrun1' & Hn1 & Hl1).
      unfold retryHttpRequest in Hrun1. rewrite Hrun1 in Hrun1'.
      injection Hrun1' as <- <-.
      apply incl_filter_of in Hl1.
      destruct Hc1 as (Ht1 & _ & _ & Hcalls1 & _).
      assert (Hst1 : Forall (deletion_of (row :: rows)) (statements evs1)).
      { rewrite Hs1. destruct r1; [|constructor|constructor].
        destruct (key_truthy (Some (request_id row))); constructor;
          [|constructor].
        exists row. split; [now left | reflexivity]. }
      assert (Hre1 : Forall (resubmission_of env this (row :: rows))
                            (transport_calls evs1)).
      { eapply Forall_impl; [|exact Hcalls1].
        intros c Hc. exists row, body. split; [now left|].
        split; assumption. }
      change (for_each_row env this (row :: rows))
        with (bind (match JSON_parse env (payload row) with
                    | inl v => ret v
                    | inr e => throw e
                    end)
                (fun body =>
                   bind (retryHttpRequest env this (request_id row)
                           (attempt_number row) body)
                        (fun _ => for_each_row env this rows))).
      rewrite Hparse. unfold bind at 1, ret at 1. unfold bind at 1.
      unfold retryHttpRequest. rewrite Hrun1.
      destruct r1 as [[]|err|]; [| |congruence].
      * destruct (IH w1) as (r & w' & evs & Hrun & Hf & Ht & Hst & Hre & Hl
                             & Hn).
        rewrite Hrun. exists r, w', (evs1 ++ evs).
        split; [reflexivity|]. split; [exact Hf|].
        split; [rewrite Ht, Ht1; now rewrite <- app_assoc|].
        split.
        { rewrite statements_app. apply Forall_app. split; [exact Hst1|].
          eapply Forall_impl; [|exact Hst].
          intros stmt (row' & Hin & E). exists row'. split; [now right|].
          exact E. }
        split.
        { rewrite transport_calls_app. apply Forall_app.
          split; [exact Hre1|].
          eapply Forall_impl; [|exact Hre].
          intros c (row' & body' & Hin & E). exists row', body'.
          split; [now right | exact E]. }
        split; [eapply incl_tran; eassumption | congruence].
      * exists (Throw err), w1, evs1.
        split; [reflexivity|]. split; [discriminate|].
        split; [exact Ht1|]. split; [exact Hst1|]. split; [exact Hre1|].
        split; assumption.
    + exists (Throw e), w, [].
      change (for_each_row env this (row :: rows))
        with (bind (match JSON_parse env (payload row) with
                    | inl v => ret v
                    | inr e => throw e
                    end)
                (fun body =>
                   bind (retryHttpRequest env this (request_id row)
                           (attempt_number row) body)
                        (fun _ => for_each_row env this rows))).
      rewrite Hparse. unfold bind at 1, throw at 1. rewrite app_nil_r.
      split; [reflexivity|]. split; [discriminate|]. split; [reflexivity|].
      split; [constructor|]. split; [constructor|].
      split; [apply incl_refl | reflexivity].
Qed.

(** X16: whatever the transport, the store and the parser do,
    [checkPendingRequests] returns normally.  It sends the store one SELECT
    and then nothing but deletions of records that were in the store; every
    transport call carries the parsed payload of such a record to a configured
    receiver with the configured timeout; it adds no row to the table. *)
Theorem scan_returns_and_only_deletes w :
  exists w' evs rest,
    checkPendingRequests env this w = (Normal tt, w') /\
    trace w' = trace w ++ evs /\
    statements evs = SelectAll :: rest /\
    Forall (deletion_of (ledger w)) rest /\
    Forall (resubmission_of env this (ledger w)) (transport_calls evs) /\
    incl (ledger w') (ledger w) /\ next_id w' = next_id w.
Proof.
  unfold checkPendingRequests, try_catch.
  unfold bind at 1. unfold execute.
  destruct (db_fault env (execs w)) as [e|] eqn:Hdb.
  - unfold console_error, emit. cbn [trace ledger next_id].
    eexists _, [Execute SelectAll; ConsoleError (PendingError (err_message e))],
      [].
    split; [reflexivity|].
    split; [simpl; now rewrite <- app_assoc|].
    split; [reflexivity|]. split; [constructor|]. split; [constructor|].
    split; [apply incl_refl | reflexivity].
  - cbn [result_rows apply_statement next_after].
    destruct (List.length (ledger w) =? 0)%nat eqn:Hlen.
    + unfold console_log, emit. cbn [trace ledger next_id].
      eexists _, [Execute SelectAll; ConsoleLog NoPendingRequests], [].
      split; [reflexivity|].
      split; [simpl; now rewrite <- app_assoc|].
      split; [reflexivity|]. split; [constructor|]. split; [constructor|].
      split; [apply incl_refl | reflexivity].
    + unfold bind at 1. unfold console_log at 1, emit at 1.
      cbn [trace ledger next_id posts execs draws].
      match goal with
      | |- context [for_each_row env this (ledger w) ?w0] =>
          destruct (for_each_row_scope (ledger w) w0)
            as (r & w' & evs & Hrun & Hf & Ht & Hst & Hre & Hl & Hn)
      end.
      rewrite Hrun. simpl in Ht, Hl, Hn.
      destruct r as [[]|err|]; [| |congruence].
      * exists w',
          ([Execute SelectAll; ConsoleLog ProcessingPending] ++ evs),
          (statements evs).
        split; [reflexivity|].
        split; [rewrite Ht; now rewrite <- !app_assoc|].
        split; [reflexivity|]. split; [exact Hst|]. split; [exact Hre|].
        split; assumption.
      * unfold console_error, emit.
        eexists _,
          ([Execute SelectAll; ConsoleLog ProcessingPending] ++ evs
           ++ [ConsoleError (PendingError (err_message err))]),
          (statements evs).
        split; [reflexivity|].
        split; [cbn [trace]; rewrite Ht; now rewrite <- !app_assoc|].
        split.
        { rewrite statements_app, statements_app. simpl.
          now rewrite app_nil_r. }
        split; [exact Hst|].
        split.
        { rewrite transport_calls_app, transport_calls_app. simpl.
          now rewrite app_nil_r. }
        split; assumption.
Qed.

End Scan.

(** ** The recovery scan, record by record *)

Section ScanRuns.

Context {Payload : Type}.
Variable env : Env Payload.
Variable this : HttpRequester.

Abbreviation M := (maxAttempts (config this)).
Abbreviation urls := (receiversUrl (config this)).
Abbreviation tmo := (timeout (config this)).
Abbreviation n := (List.length (receiversUrl (config this))).

#[local] Arguments Z.pow : simpl never.
#[local] Arguments Z.mul : simpl never.
#[local] Arguments Nat.mul : simpl never.

Lemma for_each_row_cons row rows :
  for_each_row env this (row :: rows)
  = bind (match JSON_parse env (payload row) with
          | inl v => ret v
          | inr e => throw e
          end)
      (fun body =>
         bind (retryHttpRequest env this (request_id row)
                 (attempt_number row) body)
              (fun _ => for_each_row env this rows)).
Proof. reflexivity. Qed.

(** X17: a resumed delivery from an attempt [a >= 0] whose every transport
    call fails gives up with an error of its own, the ReferenceError of the
    undefined [recordId]: it throws after the attempts [a .. M], having handed
    [sleep] the delay [2^i * 1000] ms after each of them but the last, sends
    the store no statement and leaves the ledger as it was, so that the
    record is neither deleted nor marked abandoned. *)
Theorem resumed_delivery_gives_up_by_throwing rid body r a w :
  urls <> [] ->
  0 <= a ->
  r = Z.to_nat (M - a) ->
  (forall j, (j < n * S r)%nat -> fails (call env this body w j)) ->
  exists w' evs,
    retryHttpRequest env this rid a body w
    = (Throw recordId_not_defined, w') /\
    trace w' = trace w ++ evs /\
    ledger w' = ledger w /\
    statements evs = [] /\
    ladder evs = schedule a r ++ [Failed (a + Z.of_nat r)] /\
    Forall (call_of this body) (transport_calls evs) /\
    (M <= 22 -> Forall within_timer (ladder evs)).
Proof.
  intros Hne Ha Hr Hcalls.
  destruct (resume_exhaustion_throws env this rid body Hne r a w Hr Hcalls)
    as (w' & evs & Hrun & Ht & Hled & Hst & Hlad).
  destruct (retryHttpRequest_confined env this rid body a w)
    as (r' & w'' & evs' & Hrun' & _ & Hc & _).
  rewrite Hrun in Hrun'. injection Hrun' as <- <-.
  destruct Hc as (Ht' & _ & _ & Hcall & _).
  rewrite Ht in Ht'. apply app_inv_head in Ht'. subst evs'.
  exists w', evs. repeat (split; [assumption|]).
  intros HM. rewrite Hlad. apply schedule_within_timer; [exact Ha|]. lia.
Qed.

(** X18: the scan stops at the first record whose delivery is exhausted.
    When the first stored record parses and every transport call of its
    budget fails, [checkPendingRequests] returns normally after reporting
    [recordId is not defined]: the SELECT is the only statement sent, the
    ledger is as it was, and every transport call carried the payload of that
    first record, so that the records after it were not resubmitted. *)
Theorem scan_stops_at_first_exhausted_record row rows body w :
  db_fault env (execs w) = None ->
  ledger w = row :: rows ->
  JSON_parse env (payload row) = inl body ->
  urls <> [] ->
  (forall j, (j < n * S (Z.to_nat (M - attempt_number row)))%nat ->
             fails (call env this body w j)) ->
  exists w' evs,
    checkPendingRequests env this w = (Normal tt, w') /\
    trace w' = trace w ++ evs /\
    statements evs = [SelectAll] /\
    ledger w' = ledger w /\
    Forall (call_of this body) (transport_calls evs) /\
    In (ConsoleError (PendingError "recordId is not defined")) evs.
Proof.
  intros Hdb Hrows Hparse Hne Hcalls.
  unfold checkPendingRequests, try_catch.
  unfold bind at 1. unfold execute. rewrite Hdb.
  cbn [result_rows apply_statement next_after]. rewrite Hrows.
  cbn [List.length Nat.eqb]. unfold bind at 1.
  unfold console_log at 1, emit at 1.
  cbn [trace ledger next_id posts execs draws].
  rewrite for_each_row_cons, Hparse. unfold bind at 1, ret at 1.
  unfold bind at 1.
  match goal with
  | |- context [retryHttpRequest env this _ _ body ?w0] =>
      destruct (resume_exhaustion_throws env this (request_id row) body Hne
                  _ (attempt_number row) w0 eq_refl Hcalls)
        as (w' & evs & Hrun & Ht & Hled & Hst & _);
      destruct (retryHttpRequest_confined env this (request_id row) body
                  (attempt_number row) w0)
        as (r' & w'' & evs' & Hrun' & _ & Hc & _)
  end.
  rewrite Hrun in Hrun'. injection Hrun' as <- <-.
  destruct Hc as (Ht' & _ & _ & Hcall & _).
  rewrite Ht in Ht'. apply app_inv_head in Ht'. subst evs'.
  rewrite Hrun. unfold console_error, emit.
  simpl in Ht, Hled.
  eexists _,
    ([Execute SelectAll; ConsoleLog ProcessingPending] ++ evs
     ++ [ConsoleError (PendingError "recordId is not defined")]).
  split; [reflexivity|].
  split; [cbn [trace]; rewrite Ht; now rewrite <- !app_assoc|].
  split.
  { rewrite statements_app, statements_app, Hst. reflexivity. }
  split; [exact Hled|].
  split.
  { rewrite transport_calls_app, transport_calls_app. simpl.
    now rewrite app_nil_r. }
  apply in_or_app. right. apply in_or_app. right. now left.
Qed.

(** X19: a scan that finds no record calls no receiver.  When the SELECT
    fails, or returns no row, [checkPendingRequests] returns normally after
    that one statement: no transport call, no delay, and the ledger and the
    AUTO_INCREMENT counter are as they were. *)
Theorem scan_without_records_is_quiet w :
  db_fault env (execs w) <> None \/ ledger w = [] ->
  exists w' evs,
    checkPendingRequests env this w = (Normal tt, w') /\
    trace w' = trace w ++ evs /\
    statements evs = [SelectAll] /\
    transport_calls evs = [] /\ ladder evs = [] /\
    ledger w' = ledger w /\ next_id w' = next_id w /\
    posts w' = posts w /\ execs w' = S (execs w).
Proof.
  intros Hnone.
  unfold checkPendingRequests, try_catch.
  unfold bind at 1. unfold execute.
  destruct (db_fault env (execs w)) as [e|] eqn:Hdb.
  - unfold console_error, emit. cbn [trace ledger next_id posts execs].
    eexists _,
      [Execute SelectAll; ConsoleError (PendingError (err_message e))].
    split; [reflexivity|].
    split; [simpl; now rewrite <- app_assoc|].
    repeat (split; [reflexivity|]). reflexivity.
  - destruct Hnone as [Hnone|Hempty]; [congruence|].
    cbn [result_rows apply_statement next_after]. rewrite Hempty.
    cbn [List.length Nat.eqb]. unfold console_log, emit.
    cbn [trace ledger next_id posts execs].
    eexists _, [Execute SelectAll; ConsoleLog NoPendingRequests].
    split; [reflexivity|].
    split; [simpl; now rewrite <- app_assoc|].
    repeat (split; [reflexivity|]). reflexivity.
Qed.

End ScanRuns.

(** ** Instances of the class *)

Lemma constructor_some_receiver {Payload} (env : Env Payload) db rc this :
  constructor env db rc = inl this -> receiversUrl (config this) <> [].
Proof.
  unfold constructor. intros H.
  destruct db; try discriminate;
    destruct (validate_receivers (rc_receiversUrl rc)) as [urls|msg] eqn:Hv;
    try discriminate;
    injection H as <-; cbn [config receiversUrl];
    destruct (validate_receivers_ok _ _ Hv) as (Hne & _);
    (destruct urls as [|u urls]; [congruence|]);
    intros E;
    (assert (Hu : In u (set_spread [] (u :: urls)))
      by (rewrite set_spread_In; simpl; tauto));
    rewrite E in Hu; exact Hu.
Qed.

(** X21: an instance built by the constructor never dispatches to nobody.
    Each [sendRequest] issues at least one transport call and at most one per
    configured receiver, and it ends with a response or with a thrown error:
    it never returns [undefined], so that reading [response.status] after it
    cannot fail. *)
Theorem constructed_instance_always_dispatches {Payload}
        (env0 env : Env Payload) db rc this body w :
  constructor env0 db rc = inl this ->
  exists r evs k,
    sendRequest env this body w = (r, dispatched w evs k) /\
    (1 <= k <= List.length (receiversUrl (config this)))%nat /\
    List.length (transport_calls evs) = k /\
    ((exists response, r = Normal (Some response)) \/
     (exists err, r = Throw err)).
Proof.
  intros Hnew. apply constructor_some_receiver in Hnew.
  destruct (sendRequest_loop_spec env this body (receiversUrl (config this))
              [] w eq_refl Hnew)
    as [(k & response & Hk & _ & _ & Hrun)|(err & _ & _ & Hrun)].
  - eexists _, _, (S k). split; [exact Hrun|]. split; [lia|].
    split; [|left; now exists response].
    rewrite transport_calls_app, transport_calls_failed, length_app,
      length_map, length_firstn.
    simpl. lia.
  - eexists _, _, _. split; [exact Hrun|].
    assert (List.length (receiversUrl (config this)) <> 0)%nat
      by (destruct (receiversUrl (config this)); [congruence|discriminate]).
    split; [lia|].
    split; [|right; now exists err].
    now rewrite transport_calls_failed, length_map.
Qed.

(** ** The ladder that the transport outcomes determine *)

Section Ladder.

Context {Payload : Type}.
Variable env : Env Payload.
Variable this : HttpRequester.

Abbreviation M := (maxAttempts (config this)).
Abbreviation urls := (receiversUrl (config this)).
Abbreviation tmo := (timeout (config this)).
Abbreviation n := (List.length (receiversUrl (config this))).

#[local] Arguments Z.pow : simpl never.
#[local] Arguments Z.mul : simpl never.
#[local] Arguments Nat.mul : simpl never.

Lemma call_shift_many body (w w1 : World Payload) k j :
  posts w1 = (posts w + n * k)%nat ->
  call env this body w1 j = call env this body w (n * k + j).
Proof.
  intros Hp. unfold call. cbv zeta. rewrite Hp.
  replace (posts w + n * k + j)%nat with (posts w + (n * k + j))%nat by lia.
  replace ((n * k + j) mod n)%nat with (j mod n)%nat; [reflexivity|].
  rewrite Nat.add_comm, Nat.mul_comm. symmetry. apply Nat.Div0.mod_add.
Qed.

(** An answered dispatch ends the delivery, whatever the store does. *)
Lemma make_try_answered body a key w response w1 :
  sendRequest env this body w = (Normal (Some response), w1) ->
  exists w' evs,
    make_try env this body a key w = (Normal tt, w') /\
    trace w' = trace w1 ++ evs /\ ladder evs = [].
Proof.
  intros Hsend. unfold make_try. unfold bind at 1. rewrite Hsend.
  destruct ((a >? 1) && key_truthy key).
  - destruct (deleteAttemptRecord_frame env key w1)
      as (w2 & evs2 & Hdel & Ht2 & Hl2).
    unfold bind at 1. rewrite Hdel. cbn [response_status].
    unfold bind, ret, console_log, emit.
    eexists _, (evs2 ++ [ConsoleLog (RequestSuccessful (status response))]).
    split; [reflexivity|]. split.
    + cbn [trace]. rewrite Ht2. now rewrite <- app_assoc.
    + rewrite ladder_app, Hl2. reflexivity.
  - unfold bind, ret, console_log, emit. cbn [response_status].
    eexists _, [ConsoleLog (RequestSuccessful (status response))].
    split; [reflexivity|]. split; reflexivity.
Qed.


(** [k] failed attempts below the budget: the run goes on from attempt
    [a + k], after [k] rungs of the ladder. *)
Lemma makeHttpRequest_failed_prefix body :
  urls <> [] ->
  forall k a key w,
    (k <= Z.to_nat (M - a))%nat ->
    (forall j, (j < n * k)%nat -> fails (call env this body w j)) ->
    exists key' w1 evs1,
      makeHttpRequest env this body a key w
      = makeHttpRequest env this body (a + Z.of_nat k) key' w1 /\
      trace w1 = trace w ++ evs1 /\
      ladder evs1 = schedule a k /\
      posts w1 = (posts w + n * k)%nat.
Proof.
  intros Hne.
  induction k as [|k IH]; intros a key w Hk Hcalls.
  - exists key, w, []. rewrite Z.add_0_r, app_nil_r, Nat.mul_0_r, Nat.add_0_r.
    repeat split.
  - destruct (dispatch_fails env this Hne body w) as (err & Hsend).
    { intros j Hj. apply Hcalls. rewrite (Nat.mul_succ_r n k). lia. }
    rewrite makeHttpRequest_blocks. unfold try_catch.
    rewrite (make_try_throw _ _ _ _ _ _ _ _ Hsend).
    destruct (make_catch_confined env this body
                (makeHttpRequest_fuel env this (Z.to_nat (M - a)) body)
                a key err
                (dispatched w (flat_map (failed_events body tmo) urls) n))
      as (key' & w2 & evs2 & _ & _ & Hc & Hl & Hrun).
    assert (Hmore : (a <? M) = true) by (apply Z.ltb_lt; lia).
    rewrite Hmore in Hl, Hrun. rewrite Hrun.
    rewrite makeHttpRequest_next by lia.
    destruct Hc as (Ht & _ & _ & _ & Hlen & Hposts & _).
    assert (Hnone : transport_calls evs2 = []).
    { destruct (transport_calls evs2); [reflexivity | simpl in Hlen; lia]. }
    rewrite Hnone in Hposts. simpl in Hposts.
    destruct (IH (a + 1) (Some key') w2)
      as (key'' & w1 & evs1 & Hrun1 & Ht1 & Hl1 & Hp1).
    { lia. }
    { intros j Hj.
      rewrite (call_shift env this body w w2 j)
        by (rewrite Hposts; simpl; lia).
      apply Hcalls. rewrite (Nat.mul_succ_r n k). lia. }
    rewrite Hrun1.
    exists key'', w1,
      (flat_map (failed_events body tmo) urls ++ evs2 ++ evs1).
    split; [f_equal; lia|].
    split; [rewrite Ht1, Ht; simpl; now rewrite <- !app_assoc|].
    split.
    { rewrite !ladder_app, ladder_failed, Hl, Hl1. reflexivity. }
    rewrite Hp1, Hposts. simpl. rewrite (Nat.mul_succ_r n k). lia.
Qed.


Lemma answered_dispatch_ladder (body : Payload) (l : list string) u :
  ladder (flat_map (failed_events body tmo) l ++ answered_events body tmo u)
  = [].
Proof. rewrite ladder_app, ladder_failed. reflexivity. Qed.

(** The delivery whose call [m], in the [k]-th dispatch after the first, is
    the first to be answered. *)
Lemma makeHttpRequest_answered_after body a key w k m response :
  urls <> [] ->
  (k <= Z.to_nat (M - a))%nat -> (n * k <= m < n * S k)%nat ->
  (forall j, (j < m)%nat -> fails (call env this body w j)) ->
  call env this body w m = inl response ->
  exists w' evs,
    makeHttpRequest env this body a key w = (Normal tt, w') /\
    trace w' = trace w ++ evs /\
    ladder evs = schedule a k.
Proof.
  intros Hne Hk Hm Hbefore Hat.
  destruct (makeHttpRequest_failed_prefix body Hne k a key w Hk)
    as (key' & w1 & evs1 & Hrun & Ht1 & Hl1 & Hp1).
  { intros j Hj. apply Hbefore. lia. }
  rewrite (Nat.mul_succ_r n k) in Hm.
  assert (Hsend := dispatch_answered env this body w1 (m - n * k) response).
  destruct (make_try_answered body (a + Z.of_nat k) key' w1 response _
              (Hsend ltac:(lia)
                 ltac:(intros j Hj;
                       rewrite (call_shift_many body w w1 k j Hp1);
                       apply Hbefore; lia)
                 ltac:(rewrite (call_shift_many body w w1 k _ Hp1);
                       now replace (n * k + (m - n * k))%nat with m by lia)))
    as (w' & evs & Htry & Ht & Hl).
  rewrite Hrun, makeHttpRequest_blocks. unfold try_catch. rewrite Htry.
  exists w',
    (evs1
     ++ (flat_map (failed_events body tmo) (firstn (m - n * k) urls)
         ++ answered_events body tmo (nth (m - n * k) urls ""%string))
     ++ evs).
  split; [reflexivity|]. split.
  - rewrite Ht. cbn [dispatched trace]. rewrite Ht1.
    now rewrite <- !app_assoc.
  - rewrite ladder_app, (ladder_app _ evs), answered_dispatch_ladder, Hl1, Hl.
    now rewrite !app_nil_r.
Qed.


(** The ladder of a delivery is the one its transport outcomes determine. *)
Lemma makeHttpRequest_ladder_of_outcomes body a key w :
  urls <> [] ->
  exists w' evs,
    makeHttpRequest env this body a key w = (Normal tt, w') /\
    trace w' = trace w ++ evs /\
    ladder_from M a (ladder evs) /\
    ladder_of_outcomes env this body a w (ladder evs).
Proof.
  intros Hne.
  destruct (makeHttpRequest_confined env this body a key w)
    as (w' & evs & Hrun & (Ht & _) & Hl).
  exists w', evs. split; [exact Hrun|]. split; [exact Ht|].
  split; [exact Hl|]. split.
  - intros k m response Hk Hm Hbefore Hat.
    destruct (makeHttpRequest_answered_after body a key w k m response
                Hne Hk Hm Hbefore Hat) as (w2 & evs2 & Hrun2 & Ht2 & Hl2).
    rewrite Hrun in Hrun2. injection Hrun2 as <-.
    rewrite Ht in Ht2. apply app_inv_head in Ht2. now subst evs2.
  - intros Hall.
    destruct (exhaust_any_store env this body Hne _ a key w eq_refl Hall)
      as (w2 & evs2 & Hrun2 & Ht2 & Hl2 & _).
    rewrite Hrun in Hrun2. injection Hrun2 as <-.
    rewrite Ht in Ht2. apply app_inv_head in Ht2. now subst evs2.
Qed.



(** X11: while the store fails on every statement, a delivery still returns
    normally and leaves the ledger and the AUTO_INCREMENT counter as they
    were, and its ladder is the one the transport outcomes determine from
    attempt 1: the failed attempts, each below the budget followed by its
    delay. *)
Theorem delivery_during_store_outage body w :
  urls <> [] ->
  store_down_from env (execs w) ->
  let r := startRequest env this body w in
  fst r = Normal tt /\
  ledger (snd r) = ledger w /\
  next_id (snd r) = next_id w /\
  exists evs,
    trace (snd r) = trace w ++ evs /\
    ladder_from M 1 (ladder evs) /\
    ladder_of_outcomes env this body 1 w (ladder evs).
Proof.
  intros Hne Hdown. cbv zeta.
  destruct (makeHttpRequest_confined env this body 1 None w)
    as (w' & evs & Hrun & (Ht & _ & _ & _ & _ & _ & _ & Hd) & Hl).
  destruct (makeHttpRequest_ladder_of_outcomes body 1 None w Hne)
    as (w2 & evs2 & Hrun2 & Ht2 & _ & Ho).
  rewrite Hrun in Hrun2. injection Hrun2 as <-.
  rewrite Ht in Ht2. apply app_inv_head in Ht2. subst evs2.
  unfold startRequest, try_catch. rewrite Hrun. simpl.
  destruct (Hd Hdown) as [Hled Hnext].
  split; [reflexivity|]. split; [exact Hled|]. split; [exact Hnext|].
  exists evs. split; [exact Ht|]. split; assumption.
Qed.

End Ladder.

(** ** What is recorded for a failed attempt, at every attempt *)

Section Record.

Context {Payload : Type}.
Variable env : Env Payload.
Variable this : HttpRequester.

Abbreviation M := (maxAttempts (config this)).

#[local] Arguments Z.pow : simpl never.
#[local] Arguments Z.mul : simpl never.

(** The [catch] block of [makeHttpRequest]: the failure is reported with its
    classification, and the same classification goes into the INSERT of
    attempt 1 and into the UPDATE of a later attempt that uses the budget up;
    a later attempt below the budget writes nothing before it sleeps. *)
Lemma make_catch_records next body a key err (w : World Payload) :
  (a < M -> forall k w0, exists evs,
        trace (snd (next (a + 1) k w0)) = trace w0 ++ evs) ->
  exists d rest,
    trace (snd (make_catch env this next body a key err w))
    = trace w
      ++ ConsoleError (AttemptFailed a (err_message err) (statusCode_of err))
      :: (if a =? 1
          then [ConsoleLog InsertingRecord;
                Execute (InsertAttempt (delivery_key env key w) a
                                       (statusCode_of err)
                                       (JSON_stringify env body)
                                       (if a <? M then 0 else 1)
                                       (this_hostname this))]
          else if a <? M
               then [ConsoleLog (RetryingAfter d); Sleep d]
               else [Execute (UpdateAbandoned 1 a (statusCode_of err)
                                              (delivery_key env key w))])
      ++ rest.
Proof.
  intros Hnext. unfold make_catch.
  set (w0 := logged w [ConsoleError
                         (AttemptFailed a (err_message err) (statusCode_of err))]).
  assert (Hkey : exists w1,
             (match key with
              | Some k => if key_truthy key then ret k else generateUUID env
              | None => generateUUID env
              end) w0 = (Normal (delivery_key env key w), w1) /\
             trace w1 = trace w0).
  { unfold delivery_key.
    destruct key as [k|]; [destruct (key_truthy (Some k))|];
      try (rewrite generateUUID_eq; eexists; split; reflexivity).
    exists w0. split; reflexivity. }
  destruct Hkey as (w1 & Hkey & Ht1).
  set (key' := delivery_key env key w) in *.
  unfold bind at 1. unfold console_error at 1, emit at 1.
  change (mkWorld (ledger w) (next_id w)
            (trace w ++ [ConsoleError (AttemptFailed a (err_message err)
                                                     (statusCode_of err))])
            (posts w) (execs w) (draws w)) with w0.
  unfold bind at 1. rewrite Hkey.
  assert (Ht0 : trace w1
                = trace w
                  ++ [ConsoleError (AttemptFailed a (err_message err)
                                                  (statusCode_of err))])
    by (rewrite Ht1; reflexivity).
  clearbody w0 key'. clear Hkey Ht1.
  destruct (a <? M) eqn:Hlt.
  - apply Z.ltb_lt in Hlt. specialize (Hnext Hlt).
    destruct (a =? 1).
    + unfold insertAttemptRecord. run.
      destruct (db_fault env (execs w1)); simpl;
        match goal with
        | |- context [next (a + 1) (Some key') ?wx] =>
            destruct (Hnext (Some key') wx) as (evs & Hn)
        end;
        rewrite Hn; simpl; rewrite Ht0;
        exists 0; eexists; rewrite <- !app_assoc; simpl; reflexivity.
    + run.
      match goal with
      | |- context [next (a + 1) (Some key') ?wx] =>
          destruct (Hnext (Some key') wx) as (evs & Hn)
      end.
      rewrite Hn. simpl. rewrite Ht0.
      exists (2 ^ a * 1000), evs. rewrite <- !app_assoc. reflexivity.
  - destruct (a =? 1).
    + unfold insertAttemptRecord. run.
      destruct (db_fault env (execs w1)); simpl; rewrite Ht0;
        exists 0; eexists; rewrite <- !app_assoc; simpl; reflexivity.
    + unfold abandonAttemptRecord. run.
      destruct (db_fault env (execs w1)); simpl; rewrite Ht0;
        exists 0; eexists; rewrite <- !app_assoc; simpl; reflexivity.
Qed.

(** C9, as the code has it: when the dispatch of an attempt of
    [makeHttpRequest] fails, at whatever attempt number and whatever the
    store does, the classification is the HTTP status when the error carries
    a response, otherwise the error code when the error has a non-empty one,
    and otherwise null; it is the one reported for the attempt, the one
    inserted with the record at attempt 1 and the one written by the UPDATE
    of a later attempt that uses the budget up.  A later attempt below the
    budget writes nothing: the report is followed at once by the sleep. *)
Theorem failure_classification_recorded body attempt uniqueKey w err w1 :
  sendRequest env this body w = (Throw err, w1) ->
  exists code,
    (forall response, err_response err = Some response ->
                      code = StatusNumber (status response)) /\
    (err_response err = None ->
     forall c, err_code err = Some c -> c <> ""%string ->
               code = StatusString c) /\
    (err_response err = None ->
     err_code err = None \/ err_code err = Some ""%string ->
     code = StatusNull) /\
    exists d rest,
      trace (snd (makeHttpRequest env this body attempt uniqueKey w))
      = trace w1
        ++ ConsoleError (AttemptFailed attempt (err_message err) code)
        :: (if attempt =? 1
            then [ConsoleLog InsertingRecord;
                  Execute (InsertAttempt (delivery_key env uniqueKey w1)
                                         attempt code
                                         (JSON_stringify env body)
                                         (if attempt <? M then 0 else 1)
                                         (this_hostname this))]
            else if attempt <? M
                 then [ConsoleLog (RetryingAfter d); Sleep d]
                 else [Execute (UpdateAbandoned 1 attempt code
                                  (delivery_key env uniqueKey w1))])
        ++ rest.
Proof.
  intros Hsend.
  exists (statusCode_of err).
  destruct (statusCode_of_cases err) as (H1 & H2 & H3).
  split; [exact H1|]. split; [exact H2|]. split; [exact H3|].
  rewrite makeHttpRequest_blocks. unfold try_catch.
  rewrite (make_try_throw _ _ _ _ _ _ _ _ Hsend).
  apply make_catch_records.
  intros Hlt k w0.
  destruct (makeHttpRequest_fuel_ladder env this body
              (Z.to_nat (M - attempt)) (attempt + 1) k w0)
    as (w' & evs & Hrun & Ht & _); [lia|].
  exists evs. now rewrite Hrun.
Qed.

End Record.

(** ** The further properties on the scenarios *)

Open Scope string_scope.



Lemma constructor_keeps_distinct_witness :
  receiversUrl (config (requester 5))
  = ["http://localhost:3450/message"; "http://localhost:3459/message"].
Proof.
  apply (constructor_keeps_distinct_receivers receivers_down DbPool
           two_receivers (requester 5) _ eq_refl eq_refl).
  repeat constructor; simpl; intuition discriminate.
Defined.

Lemma generateUUID_shape_witness :
  (forall k, 0 <= random16 receivers_down k < 16) /\
  exists c,
    String.get 0 (uuid_in receivers_down (world_with [])) = Some c /\
    (c = "-"%char \/ is_hex_char c = true).
Proof.
  assert (Hrange : forall k, 0 <= random16 receivers_down k < 16)
    by (intros k; apply Z.mod_pos_bound; lia).
  split; [exact Hrange|].
  destruct (generateUUID_shape receivers_down (world_with []))
    as (_ & _ & _ & _ & _ & _ & _ & _ & Hhex).
  eexists. split; [reflexivity|].
  apply (Hhex Hrange 0%nat). reflexivity.
Defined.

Lemma store_errors_swallowed_witness :
  let env := receivers_down_store (fun _ => true) in
  let w := world_with [stored_row 1 "r1" 1 "[1]" 0] in
  fst (deleteAttemptRecord env (Some "r1") w) = Normal tt /\
  ledger (snd (deleteAttemptRecord env (Some "r1") w)) = ledger w.
Proof.
  intros env w.
  destruct (ledger_operations_swallow_store_errors env (requester 3) w
              store_error eq_refl) as (_ & _ & Hdel).
  destruct (Hdel "r1" eq_refl) as (Hr & Hl & _).
  split; [exact Hr | exact Hl].
Defined.

Lemma deleteAttemptRecord_witness :
  let w := world_with [stored_row 1 "r1" 1 "[1]" 0;
                       stored_row 2 "r2" 1 "[2]" 0] in
  ledger (snd (deleteAttemptRecord receivers_down (Some "r1") w))
  = [stored_row 2 "r2" 1 "[2]" 0].
Proof.
  intros w.
  destruct (deleteAttemptRecord_effect receivers_down w) as (Hdel & _).
  destruct (Hdel "r1" eq_refl eq_refl) as (_ & Hl).
  rewrite Hl. reflexivity.
Defined.

Lemma abandonAttemptRecord_witness :
  let w := world_with [stored_row 1 "r1" 1 "[1]" 0;
                       stored_row 2 "r2" 1 "[2]" 0] in
  let r := abandonAttemptRecord receivers_down "r1" 5 (StatusNumber 503) w in
  fst r = Normal tt /\
  map request_id (ledger (snd r)) = map request_id (ledger w).
Proof.
  intros w r.
  destruct (abandonAttemptRecord_effect receivers_down "r1" 5
              (StatusNumber 503) w eq_refl) as (Hr & _ & _ & Hids & _).
  split; [exact Hr | exact Hids].
Defined.

Lemma store_outage_witness :
  let env := receivers_down_store (fun _ => true) in
  let r := startRequest env (requester 3) "[1]" (world_with []) in
  fst r = Normal tt /\ ledger (snd r) = [] /\
  exists evs,
    trace (snd r) = (trace (world_with []) ++ evs)%list /\
    ladder evs = [Failed 1; Delay 2000; Failed 2; Delay 4000; Failed 3].
Proof.
  intros env r.
  destruct (delivery_during_store_outage env (requester 3) "[1]"
              (world_with []) ltac:(discriminate))
    as (Hr & Hl & _ & evs & Ht & _ & _ & Hall).
  - intros i _. discriminate.
  - split; [exact Hr|]. split; [exact Hl|].
    exists evs. split; [exact Ht|].
    apply Hall. intros j _. exists error503. reflexivity.
Defined.

Lemma total_backoff_witness :
  exists evs,
    trace (snd (makeHttpRequest receivers_down (requester 3) "[1]" 1 None
                                (world_with [])))
    = (trace (world_with []) ++ evs)%list /\
    0 <= total_delay (ladder evs) <= 6000.
Proof.
  destruct (total_backoff_is_bounded receivers_down (requester 3) "[1]" 1
              ltac:(lia)) as (Hmake & _).
  destruct (Hmake None (world_with [])) as (evs & Ht & Hd & _).
  exists evs. split; [exact Ht | exact Hd].
Defined.

Lemma first_attempt_success_witness :
  exists w' evs,
    startRequest (receivers_up_from 1) (requester 3) "[1]" (world_with [])
    = (Normal tt, w') /\
    trace w' = (trace (world_with []) ++ evs)%list /\
    statements evs = [].
Proof.
  destruct (first_attempt_success_writes_nothing
              (receivers_up_from 1) (requester 3) "[1]" (world_with [])
              1%nat (mkResponse 200))
    as (w' & evs & Hrun & Ht & Hst & _).
  - simpl. lia.
  - intros [|j] Hj; [exists error503; reflexivity | lia].
  - reflexivity.
  - exists w', evs. split; [exact Hrun|]. split; [exact Ht | exact Hst].
Defined.

Lemma resume_answered_witness :
  let w := world_with [stored_row 1 "r1" 2 "[1]" 0] in
  exists w' evs,
    retryHttpRequest (receivers_up_from 2) (requester 3) "r1" 2 "[1]" w
    = (Normal tt, w') /\
    trace w' = (trace w ++ evs)%list /\
    statements evs = [DeleteAttempt "r1"] /\
    ledger w' = [].
Proof.
  intros w.
  destruct (resume_answered_deletes_the_record
              (receivers_up_from 2) (requester 3) "r1" "[1]"
              (fun k => eq_refl) eq_refl 1%nat 2 w 2%nat (mkResponse 200))
    as (w' & evs & Hrun & Ht & Hst & Hl & _).
  - reflexivity.
  - simpl. lia.
  - intros [|[|j]] Hj; [exists error503; reflexivity
                       | exists error503; reflexivity | lia].
  - reflexivity.
  - exists w', evs. split; [exact Hrun|]. split; [exact Ht|].
    split; [exact Hst|]. rewrite Hl. reflexivity.
Defined.

Lemma exhausted_delivery_any_store_witness :
  let env := receivers_down_store (fun i => Nat.even i) in
  exists w' evs,
    makeHttpRequest env (requester 3) "[1]" 1 None (world_with [])
    = (Normal tt, w') /\
    trace w' = (trace (world_with []) ++ evs)%list /\
    ladder evs = [Failed 1; Delay 2000; Failed 2; Delay 4000; Failed 3] /\
    posts w' = 6%nat.
Proof.
  intros env.
  destruct (exhausted_delivery_any_store env (requester 3) "[1]"
              2%nat 1 None (world_with []) ltac:(discriminate) ltac:(lia)
              eq_refl)
    as (w' & evs & Hrun & Ht & Hl & _ & Hp & _).
  - intros j _. exists error503. reflexivity.
  - exists w', evs. split; [exact Hrun|]. split; [exact Ht|].
    split; [exact Hl | exact Hp].
Defined.

Lemma resumed_delivery_gives_up_witness :
  let w := world_with [stored_row 1 "r1" 2 "[1]" 0] in
  exists w' evs,
    retryHttpRequest receivers_down (requester 3) "r1" 2 "[1]" w
    = (Throw recordId_not_defined, w') /\
    trace w' = (trace w ++ evs)%list /\
    ledger w' = ledger w /\
    ladder evs = [Failed 2; Delay 4000; Failed 3].
Proof.
  intros w.
  destruct (resumed_delivery_gives_up_by_throwing
              receivers_down (requester 3) "r1" "[1]" 1%nat 2 w
              ltac:(discriminate) ltac:(lia) eq_refl)
    as (w' & evs & Hrun & Ht & Hl & _ & Hlad & _).
  - intros j _. apply receivers_down_fail.
  - exists w', evs. split; [exact Hrun|]. split; [exact Ht|].
    split; [exact Hl | exact Hlad].
Defined.

Lemma scan_stops_witness :
  let w := world_with [stored_row 1 "r1" 1 "[1]" 0;
                       stored_row 2 "r2" 1 "[2]" 0] in
  exists w' evs,
    checkPendingRequests receivers_down (requester 2) w = (Normal tt, w') /\
    ledger w' = ledger w /\
    Forall (call_of (requester 2) "[1]") (transport_calls evs).
Proof.
  intros w.
  destruct (scan_stops_at_first_exhausted_record
              receivers_down (requester 2) (stored_row 1 "r1" 1 "[1]" 0)
              [stored_row 2 "r2" 1 "[2]" 0] "[1]" w
              eq_refl eq_refl eq_refl ltac:(discriminate))
    as (w' & evs & Hrun & _ & _ & Hl & Hc & _).
  - intros j _. exists error503. reflexivity.
  - exists w', evs. split; [exact Hrun|]. split; [exact Hl | exact Hc].
Defined.

Lemma scan_without_records_witness :
  exists w' evs,
    checkPendingRequests receivers_down (requester 3) (world_with [])
    = (Normal tt, w') /\
    trace w' = (trace (world_with []) ++ evs)%list /\
    transport_calls evs = [] /\ statements evs = [SelectAll].
Proof.
  destruct (scan_without_records_is_quiet receivers_down (requester 3)
              (world_with []) (or_intror eq_refl))
    as (w' & evs & Hrun & Ht & Hst & Hc & _).
  exists w', evs. split; [exact Hrun|]. split; [exact Ht|].
  split; [exact Hc | exact Hst].
Defined.

Lemma constructed_instance_witness :
  exists r evs k,
    sendRequest receivers_down (requester 5) "[1]" (world_with [])
    = (r, dispatched (world_with []) evs k) /\
    (1 <= k <= 2)%nat.
Proof.
  destruct (constructed_instance_always_dispatches
              receivers_down receivers_down DbPool two_receivers
              (requester 5) "[1]" (world_with []) eq_refl)
    as (r & evs & k & Hrun & Hk & _).
  exists r, evs, k. split; [exact Hrun | exact Hk].
Defined.


Lemma failure_classification_witness :
  let env := receivers_failing bare_error in
  let w := world_with [stored_row 1 "r1" 2 "[1]" 0] in
  let w1 := snd (sendRequest env (requester 3) "[1]" w) in
  exists rest,
    trace (snd (makeHttpRequest env (requester 3) "[1]" 3 (Some "r1") w))
    = (trace w1
       ++ ConsoleError (AttemptFailed 3 "socket hang up" StatusNull)
       :: [Execute (UpdateAbandoned 1 3 StatusNull "r1")]
       ++ rest)%list.
Proof.
  intros env w w1.
  destruct (failure_classification_recorded env (requester 3) "[1]" 3
              (Some "r1") w bare_error w1 eq_refl)
    as (code & _ & _ & Hnull & d & rest & Ht).
  assert (E : code = StatusNull)
    by (apply Hnull; [reflexivity | left; reflexivity]).
  rewrite E in Ht. exists rest. exact Ht.
Defined.
